(** * Verification of the action orchestrator, the decision loop and the
      session recorder / workflow generator

    Shallow embedding of
    - [mcp-servers/recorder/capture.py]            (module [Capture], and
      module [Recorder] for payloads that are not JSON values),
    - [mcp-servers/recorder/workflow_generator.py] (module [WorkflowGen]),
    - [mcp-servers/integration/orchestrator.py]    (module [Orchestrator]),
    - [mcp-servers/integration/autonomous_agent.py] (module [Agent]).

    Python values are an inductive type [value]; a [dict] is an association
    list in insertion order (Python dicts iterate in insertion order).
    Floats are rationals ([Q]) with exact sums and differences; where a
    product is truncated to an integer ([int(x * c)]) the product is the
    double nearest to it ([float_mul]), since the truncation makes the
    rounding visible.  Infinities and NaN appear only among the payloads of
    module [Recorder].
    Objects with mutable state become records threaded through the calls;
    [time.time()] reads a clock [time_at] at a tick counter kept in the
    recorder.  A call that may raise returns an [Exc]. *)

From stdpp Require Import gmap strings list pretty.
From Stdlib Require Import QArith Qround Qpower Lqa ZArith Ascii.

Set Warnings "-register-all".
Close Scope Q_scope.
Open Scope string_scope.
Open Scope list_scope.

(** ** Python values *)
Module Py.

Inductive value : Type :=
| VNone
| VBool (b : bool)
| VInt (n : Z)
| VFloat (q : Q)
| VStr (s : string)
| VList (l : list value)
| VDict (d : list (string * value)).

(** [Dict[str, Any]], in insertion order. *)
Abbreviation dict := (list (string * value)).

(** Outcome of a call that can raise. *)
Inductive Exc (A : Type) : Type :=
| Returned (a : A)
| Raised (msg : string).
Arguments Returned {A} a.
Arguments Raised {A} msg.

Fixpoint dict_get (k : string) (d : dict) : option value :=
  match d with
  | [] => None
  | (k', v) :: d' => if String.eqb k k' then Some v else dict_get k d'
  end.

(** [d.get(k, default)] *)
Definition dict_get_default (k : string) (default : value) (d : dict) : value :=
  match dict_get k d with Some v => v | None => default end.

(** [d.get(k)]: [None] when the key is absent. *)
Definition dict_get_none (k : string) (d : dict) : value :=
  dict_get_default k VNone d.

(** [d[k] = v]: the value is replaced in place, a new key goes last. *)
Fixpoint dict_set (k : string) (v : value) (d : dict) : dict :=
  match d with
  | [] => [(k, v)]
  | (k', v') :: d' =>
      if String.eqb k k' then (k', v) :: d' else (k', v') :: dict_set k v d'
  end.

(** [k in d] *)
Definition dict_mem (k : string) (d : dict) : bool :=
  match dict_get k d with Some _ => true | None => false end.

(** Numbers: [bool] is a subclass of [int]. *)
Definition num_of (v : value) : option Q :=
  match v with
  | VBool b => Some (if b then 1%Q else 0%Q)
  | VInt n => Some (inject_Z n)
  | VFloat q => Some q
  | _ => None
  end.

(** Truth value of an object in a condition. *)
Definition truthy (v : value) : bool :=
  match v with
  | VNone => false
  | VBool b => b
  | VInt n => negb (n =? 0)%Z
  | VFloat q => negb (Qeq_bool q 0)
  | VStr s => negb (String.eqb s "")
  | VList l => match l with [] => false | _ => true end
  | VDict d => match d with [] => false | _ => true end
  end.

(** [a == b]: numbers compare by value across [bool], [int] and [float];
    lists compare element-wise; dicts compare as maps, whatever the order
    of insertion. *)
Fixpoint py_eq (a b : value) {struct a} : bool :=
  match a with
  | VNone => match b with VNone => true | _ => false end
  | VBool x =>
      match num_of b with
      | Some q => Qeq_bool (if x then 1 else 0) q
      | None => false
      end
  | VInt n =>
      match num_of b with Some q => Qeq_bool (inject_Z n) q | None => false end
  | VFloat p =>
      match num_of b with Some q => Qeq_bool p q | None => false end
  | VStr s => match b with VStr t => String.eqb s t | _ => false end
  | VList l =>
      match b with
      | VList m =>
          (fix go (l m : list value) {struct l} : bool :=
             match l, m with
             | [], [] => true
             | x :: l', y :: m' => py_eq x y && go l' m'
             | _, _ => false
             end) l m
      | _ => false
      end
  | VDict d =>
      match b with
      | VDict e =>
          Nat.eqb (length d) (length e) &&
          (fix go (d : list (string * value)) {struct d} : bool :=
             match d with
             | [] => true
             | (k, v) :: d' =>
                 match dict_get k e with
                 | Some w => py_eq v w
                 | None => false
                 end && go d'
             end) d
      | _ => false
      end
  end.

(** [type(v).__name__] *)
Definition type_name (v : value) : string :=
  match v with
  | VNone => "NoneType"
  | VBool _ => "bool"
  | VInt _ => "int"
  | VFloat _ => "float"
  | VStr _ => "str"
  | VList _ => "list"
  | VDict _ => "dict"
  end.

(** [int(x)] of a float: truncation towards zero. *)
Definition py_int (x : Q) : Z :=
  if Qle_bool 0 x then Qfloor x else Qceiling x.

(** Floats are IEEE-754 doubles: 53 significant bits, every result rounded
    to the nearest double, a tie to the one with an even significand.
    [round_half_even y] is the integer nearest to [y]. *)
Definition round_half_even (y : Q) : Z :=
  let n := Qfloor y in
  match (y - inject_Z n ?= 1 # 2)%Q with
  | Lt => n
  | Gt => (n + 1)%Z
  | Eq => if Z.even n then n else (n + 1)%Z
  end.

(** The exponent [e] of a positive [x]: [2^e <= x < 2^(e+1)]. *)
Definition binade (x : Q) : Z :=
  let e := (Z.log2 (Qnum x) - Z.log2 (Z.pos (Qden x)))%Z in
  if Qle_bool (2 ^ e) x then e else (e - 1)%Z.

(** The distance between the doubles around a positive [x]; below
    [2^-1022] (the subnormal numbers) it stays [2^-1074]. *)
Definition ulp (x : Q) : Q := (2 ^ (Z.max (binade x) (-1022) - 52))%Q.

Definition round_positive (x : Q) : Q :=
  (inject_Z (round_half_even (x / ulp x)) * ulp x)%Q.

(** The double nearest to [x].  The exponent is not bounded above: a
    result of [2^1024] or more, which is infinite in Python, is outside
    the model. *)
Definition round_double (x : Q) : Q :=
  match Qnum x with
  | Z0 => 0%Q
  | Z.pos _ => round_positive x
  | Z.neg _ => (- round_positive (- x))%Q
  end.

(** [x * y] where one operand is a float: an [int] operand is converted
    to the nearest double (a float is one already), and the product is
    rounded. *)
Definition float_mul (x y : Q) : Q :=
  round_double (round_double x * round_double y).

(** [s.replace(a, b)] for single characters. *)
Fixpoint replace_char (a b : ascii) (s : string) : string :=
  match s with
  | EmptyString => EmptyString
  | String c s' =>
      String (if Ascii.eqb c a then b else c) (replace_char a b s')
  end.

(** [pat in s] for a non-empty pattern. *)
Definition contains (pat s : string) : bool :=
  match String.index 0 pat s with Some _ => true | None => false end.

Definition lower_char (c : ascii) : ascii :=
  let n := nat_of_ascii c in
  if (65 <=? n)%nat && (n <=? 90)%nat then ascii_of_nat (n + 32) else c.

(** [s.lower()] on ASCII text. *)
Fixpoint lower (s : string) : string :=
  match s with
  | EmptyString => EmptyString
  | String c s' => String (lower_char c) (lower s')
  end.

Definition opt_value {A} (f : A → value) (o : option A) : value :=
  match o with Some a => f a | None => VNone end.

End Py.
Import Py.

(** ** [recorder/capture.py]: the session recorder *)
Module Capture.

(** [@dataclass CapturedAction] *)
Record CapturedAction : Type := mkAction {
  timestamp : Q;
  action_type : string;
  tool_name : string;
  parameters : dict;
  result : option dict;
  screenshot_path : option string;
  duration_ms : option Q;
  success : bool;
  error : option string
}.

(** [@dataclass RecordingSession]; [__post_init__] turns a missing
    [metadata] or [actions] into an empty one, so both are plain here. *)
Record RecordingSession : Type := mkSession {
  session_id : string;
  name : string;
  started_at : Q;
  ended_at : option Q;
  actions : list CapturedAction;
  metadata : dict
}.

(** The attributes of a [WorkflowCapture] object.  [storage] is the content
    of [storage_dir]: file name to the JSON document written there;
    [ticks] counts the readings of the clock made so far. *)
Record WorkflowCapture : Type := mkCapture {
  is_recording : bool;
  current_session : option RecordingSession;
  storage_dir : string;
  storage : gmap string value;
  capture_screenshots : bool;
  action_start_times : gmap string Q;
  ticks : nat
}.

Definition set_is_recording (b : bool) (w : WorkflowCapture) : WorkflowCapture :=
  mkCapture b (current_session w) (storage_dir w) (storage w)
            (capture_screenshots w) (action_start_times w) (ticks w).

Definition set_current_session (s : option RecordingSession)
    (w : WorkflowCapture) : WorkflowCapture :=
  mkCapture (is_recording w) s (storage_dir w) (storage w)
            (capture_screenshots w) (action_start_times w) (ticks w).

Definition set_storage (st : gmap string value) (w : WorkflowCapture)
    : WorkflowCapture :=
  mkCapture (is_recording w) (current_session w) (storage_dir w) st
            (capture_screenshots w) (action_start_times w) (ticks w).

Definition set_action_start_times (m : gmap string Q) (w : WorkflowCapture)
    : WorkflowCapture :=
  mkCapture (is_recording w) (current_session w) (storage_dir w) (storage w)
            (capture_screenshots w) m (ticks w).

Definition set_ticks (n : nat) (w : WorkflowCapture) : WorkflowCapture :=
  mkCapture (is_recording w) (current_session w) (storage_dir w) (storage w)
            (capture_screenshots w) (action_start_times w) n.

Definition set_ended_at (e : option Q) (s : RecordingSession) : RecordingSession :=
  mkSession (session_id s) (name s) (started_at s) e (actions s) (metadata s).

Definition append_action (a : CapturedAction) (s : RecordingSession)
    : RecordingSession :=
  mkSession (session_id s) (name s) (started_at s) (ended_at s)
            (actions s ++ [a]) (metadata s).

(** [WorkflowCapture(config)] on an empty storage directory. *)
Definition init (dir : string) (screenshots : bool) : WorkflowCapture :=
  mkCapture false None dir ∅ screenshots ∅ 0.

(** [CapturedAction.to_dict] ([dataclasses.asdict]) *)
Definition to_dict (a : CapturedAction) : value :=
  VDict [ ("timestamp", VFloat (timestamp a));
          ("action_type", VStr (action_type a));
          ("tool_name", VStr (tool_name a));
          ("parameters", VDict (parameters a));
          ("result", opt_value VDict (result a));
          ("screenshot_path", opt_value VStr (screenshot_path a));
          ("duration_ms", opt_value VFloat (duration_ms a));
          ("success", VBool (success a));
          ("error", opt_value VStr (error a)) ].

(** The document [_save_session] hands to [json.dump].  A [value] is a
    JSON value (dict keys are strings), on which [json.load] after
    [json.dump] is the identity: the stored document stands for its text. *)
Definition session_data (session : RecordingSession) : value :=
  VDict [ ("session_id", VStr (session_id session));
          ("name", VStr (name session));
          ("started_at", VFloat (started_at session));
          ("ended_at", opt_value VFloat (ended_at session));
          ("duration_seconds",
             match ended_at session with
             | Some e =>
                 if Qeq_bool e 0 then VNone
                 else VFloat (e - started_at session)
             | None => VNone
             end);
          ("action_count", VInt (Z.of_nat (length (actions session))));
          ("metadata", VDict (metadata session));
          ("actions", VList (map to_dict (actions session))) ].

Definition session_file (sid : string) : string := sid +:+ ".json".

(** Reading back what [json.load] returns.  The fields of the dataclasses
    are not checked by Python; a document whose fields do not have the
    annotated types is outside this model and is not loaded. *)
Definition as_float (v : value) : option Q :=
  match v with VFloat q => Some q | VInt n => Some (inject_Z n) | _ => None end.

Definition as_str (v : value) : option string :=
  match v with VStr s => Some s | _ => None end.

Definition as_dict (v : value) : option dict :=
  match v with VDict d => Some d | _ => None end.

Definition as_bool (v : value) : option bool :=
  match v with VBool b => Some b | _ => None end.

(** An optional field: absent or [null] is [None]. *)
Definition as_optional {A} (f : value → option A) (v : option value)
    : option (option A) :=
  match v with
  | None | Some VNone => Some None
  | Some x => match f x with Some a => Some (Some a) | None => None end
  end.

Definition action_fields : list string :=
  ["timestamp"; "action_type"; "tool_name"; "parameters"; "result";
   "screenshot_path"; "duration_ms"; "success"; "error"].

(** The constructor [CapturedAction] called with the entries of
    [action_dict] as keywords: the four fields without default are
    required, and a keyword that is not a field raises [TypeError]. *)
Definition from_dict (v : value) : option CapturedAction :=
  d ← as_dict v;
  guard (forallb (λ kv, bool_decide (kv.1 ∈ action_fields)) d);;
  ts ← dict_get "timestamp" d ≫= as_float;
  ty ← dict_get "action_type" d ≫= as_str;
  tool ← dict_get "tool_name" d ≫= as_str;
  params ← dict_get "parameters" d ≫= as_dict;
  res ← as_optional as_dict (dict_get "result" d);
  shot ← as_optional as_str (dict_get "screenshot_path" d);
  dur ← as_optional as_float (dict_get "duration_ms" d);
  ok ← match dict_get "success" d with
       | None => Some true
       | Some x => as_bool x
       end;
  err ← as_optional as_str (dict_get "error" d);
  Some (mkAction ts ty tool params res shot dur ok err).

Fixpoint from_dicts (l : list value) : option (list CapturedAction) :=
  match l with
  | [] => Some []
  | v :: l' =>
      a ← from_dict v;
      rest ← from_dicts l';
      Some (a :: rest)
  end.

(** The body of the [try] in [load_session]. *)
Definition session_of_data (v : value) : option RecordingSession :=
  d ← as_dict v;
  acts ← match dict_get "actions" d with
         | None => Some []
         | Some (VList l) => from_dicts l
         | Some _ => None
         end;
  sid ← dict_get "session_id" d ≫= as_str;
  nm ← dict_get "name" d ≫= as_str;
  st ← dict_get "started_at" d ≫= as_float;
  en ← as_optional as_float (dict_get "ended_at" d);
  md ← match dict_get "metadata" d with
       | None | Some VNone => Some []
       | Some x => as_dict x
       end;
  Some (mkSession sid nm st en acts md).

Section Recorder.

(** [time_at n] is what the [n]-th call of [time.time()] returns;
    [fs_writable f] tells whether [open(f, 'w')] succeeds in the storage
    directory. *)
Variable time_at : nat → Q.
Variable fs_writable : string → bool.

(** [time.time()] *)
Definition now (w : WorkflowCapture) : Q * WorkflowCapture :=
  (time_at (ticks w), set_ticks (S (ticks w)) w).

Definition _save_session (session : RecordingSession) (w : WorkflowCapture)
    : Exc string * WorkflowCapture :=
  let file := session_file (session_id session) in
  if fs_writable file
  then (Returned file, set_storage (<[file := session_data session]> (storage w)) w)
  else (Raised "OSError", w).

Definition stop_recording (w : WorkflowCapture)
    : Exc (option string) * WorkflowCapture :=
  match is_recording w, current_session w with
  | true, Some cur =>
      let '(t, w) := now w in
      let cur := set_ended_at (Some t) cur in
      let w := set_current_session (Some cur) w in
      let w := set_is_recording false w in
      match _save_session cur w with
      | (Returned _, w) =>
          (Returned (Some (session_id cur)), set_current_session None w)
      | (Raised e, w) => (Raised e, w)
      end
  | _, _ => (Returned None, w)
  end.

Definition new_session_id (t : Q) (nm : string) : string :=
  "session_" +:+ pretty (py_int t) +:+ "_" +:+ replace_char " " "_" nm.

Definition start_recording (nm : string) (md : option dict)
    (w : WorkflowCapture) : Exc string * WorkflowCapture :=
  let stopped :=
    if is_recording w then stop_recording w else (Returned None, w) in
  match stopped with
  | (Raised e, w) => (Raised e, w)
  | (Returned _, w) =>
      let '(t1, w) := now w in
      let sid := new_session_id t1 nm in
      let '(t2, w) := now w in
      let session :=
        mkSession sid nm t2 None []
                  (match md with Some ((_ :: _) as m) => m | _ => [] end) in
      let w := set_current_session (Some session) w in
      let w := set_is_recording true w in
      (Returned sid, w)
  end.

Definition action_key (ty tool : string) : string := ty +:+ ":" +:+ tool.

Definition mark_action_start (ty tool : string) (w : WorkflowCapture)
    : WorkflowCapture :=
  let '(t, w) := now w in
  set_action_start_times (<[action_key ty tool := t]> (action_start_times w)) w.

Definition _capture_screenshot (sid ty tool : string) (w : WorkflowCapture)
    : option string * WorkflowCapture :=
  let '(t, w) := now w in
  let filename :=
    sid +:+ "_" +:+ ty +:+ "_" +:+ tool +:+ "_" +:+ pretty (py_int (float_mul t 1000)) +:+ ".png" in
  (Some (storage_dir w +:+ "/screenshots/" +:+ filename), w).

Definition capture_action (ty tool : string) (params : dict)
    (res : option dict) (ok : bool) (err : option string)
    (w : WorkflowCapture) : option string * WorkflowCapture :=
  match is_recording w, current_session w with
  | true, Some cur =>
      let key := action_key ty tool in
      let '(dur, w) :=
        match action_start_times w !! key with
        | Some t0 =>
            let '(t, w) := now w in
            (Some ((t - t0) * 1000)%Q,
             set_action_start_times (delete key (action_start_times w)) w)
        | None => (None, w)
        end in
      let '(shot, w) :=
        if capture_screenshots w
           && bool_decide (ty ∈ ["vision"; "browser"; "hands"])
        then _capture_screenshot (session_id cur) ty tool w
        else (None, w) in
      let '(t, w) := now w in
      let action :=
        mkAction t ty tool params
                 (match res with Some ((_ :: _) as r) => Some r | _ => None end)
                 shot dur ok err in
      let cur := append_action action cur in
      (Some ("action_" +:+ pretty (length (actions cur))),
       set_current_session (Some cur) w)
  | _, _ => (None, w)
  end.

Definition load_session (sid : string) (w : WorkflowCapture)
    : option RecordingSession :=
  match storage w !! session_file sid with
  | None => None
  | Some doc => session_of_data doc
  end.

(** One call made on the recorder while a session is recorded. *)
Record CaptureRequest : Type := mkRequest {
  req_type : string;
  req_tool : string;
  req_parameters : dict;
  req_result : option dict;
  req_success : bool;
  req_error : option string
}.

Inductive RecorderCall : Type :=
| Mark (ty tool : string)
| Capture (r : CaptureRequest).

Definition run_call (c : RecorderCall) (w : WorkflowCapture) : WorkflowCapture :=
  match c with
  | Mark ty tool => mark_action_start ty tool w
  | Capture r =>
      (capture_action (req_type r) (req_tool r) (req_parameters r)
                      (req_result r) (req_success r) (req_error r) w).2
  end.

Definition run_calls (cs : list RecorderCall) (w : WorkflowCapture)
    : WorkflowCapture :=
  fold_left (λ w c, run_call c w) cs w.

Fixpoint captured (cs : list RecorderCall) : list CaptureRequest :=
  match cs with
  | [] => []
  | Mark _ _ :: cs' => captured cs'
  | Capture r :: cs' => r :: captured cs'
  end.

(** A session is active when the flag is set and the handle is present:
    the condition under which [capture_action] and [stop_recording] act. *)
Definition active (w : WorkflowCapture) : option RecordingSession :=
  if is_recording w then current_session w else None.

(** The flag is never set without a session behind it. *)
Definition flag_has_session (w : WorkflowCapture) : Prop :=
  is_recording w = true → is_Some (current_session w).

(** The recorded action holds what the call passed. *)
Definition records_request (a : CapturedAction) (r : CaptureRequest) : Prop :=
  action_type a = req_type r ∧ tool_name a = req_tool r ∧
  parameters a = req_parameters r ∧ success a = req_success r ∧
  error a = req_error r.

(** *** Serialisation round trip *)

Lemma from_dict_to_dict a : from_dict (to_dict a) = Some a.
Proof.
  destruct a as [ts ty tool params res shot dur ok err].
  destruct res, shot, dur, err; reflexivity.
Qed.

Lemma from_dicts_to_dict l : from_dicts (map to_dict l) = Some l.
Proof.
  induction l as [|a l IH]; [reflexivity|].
  cbn [map from_dicts]. rewrite from_dict_to_dict, IH. reflexivity.
Qed.

Lemma session_of_data_session_data s :
  session_of_data (session_data s) = Some s.
Proof.
  destruct s as [sid nm st en acts md].
  unfold session_of_data, session_data. cbn -[from_dicts to_dict].
  rewrite from_dicts_to_dict. destruct en; reflexivity.
Qed.

(** *** The operations, one by one *)

Lemma mark_action_start_frame ty tool w :
  is_recording (mark_action_start ty tool w) = is_recording w ∧
  current_session (mark_action_start ty tool w) = current_session w ∧
  storage (mark_action_start ty tool w) = storage w.
Proof. done. Qed.

Lemma capture_action_inactive ty tool params res ok err w :
  active w = None →
  capture_action ty tool params res ok err w = (None, w).
Proof.
  unfold active, capture_action. destruct (is_recording w); [|done].
  by intros ->.
Qed.

Lemma capture_action_active ty tool params res ok err w cur :
  is_recording w = true → current_session w = Some cur →
  ∃ a, let w' := (capture_action ty tool params res ok err w).2 in
    current_session w' = Some (append_action a cur) ∧
    is_recording w' = true ∧ storage w' = storage w ∧
    records_request a (mkRequest ty tool params res ok err).
Proof.
  intros Hrec Hcur. unfold capture_action. rewrite Hrec, Hcur.
  destruct (action_start_times w !! action_key ty tool) as [t0|];
    cbn [now set_ticks set_action_start_times ticks capture_screenshots];
    destruct (capture_screenshots w && bool_decide (ty ∈ ["vision"; "browser"; "hands"]));
    cbn; (eexists; split; [reflexivity|]); cbn; rewrite ?Hrec; done.
Qed.

Lemma run_calls_cons c cs w :
  run_calls (c :: cs) w = run_calls cs (run_call c w).
Proof. reflexivity. Qed.

Lemma run_calls_active cs : ∀ w cur,
  is_recording w = true → current_session w = Some cur →
  ∃ new,
    current_session (run_calls cs w)
      = Some (mkSession (session_id cur) (name cur) (started_at cur)
                        (ended_at cur) (actions cur ++ new) (metadata cur)) ∧
    is_recording (run_calls cs w) = true ∧
    storage (run_calls cs w) = storage w ∧
    Forall2 records_request new (captured cs).
Proof.
  induction cs as [|c cs IH]; intros w cur Hrec Hcur.
  - exists []. rewrite app_nil_r. cbn. destruct cur; auto.
  - rewrite run_calls_cons. destruct c as [ty tool|r].
    + destruct (mark_action_start_frame ty tool w) as (H1 & H2 & H3).
      destruct (IH (mark_action_start ty tool w) cur) as (new & Hn & ? & Hs & ?);
        [by rewrite H1|by rewrite H2|].
      exists new. cbn [run_call captured].
      rewrite Hn, Hs, H3. done.
    + destruct r as [ty tool params res ok err].
      destruct (capture_action_active ty tool params res ok err w cur Hrec Hcur)
        as (a & Ha & Hr & Hs & Hm).
      cbn zeta in Ha, Hr, Hs.
      destruct (IH _ _ Hr Ha) as (new & Hn & ? & Hs' & ?).
      exists (a :: new). cbn [run_call captured].
      cbn [req_type req_tool req_parameters req_result req_success req_error].
      rewrite Hn, Hs', Hs. cbn. rewrite <- app_assoc. cbn.
      split_and!; [done|done|done|by constructor].
Qed.

Lemma stop_recording_inactive w :
  active w = None → stop_recording w = (Returned None, w).
Proof.
  unfold active, stop_recording. destruct (is_recording w); [|done].
  by intros ->.
Qed.

Lemma stop_recording_active w cur :
  is_recording w = true → current_session w = Some cur →
  let sealed := set_ended_at (Some (time_at (ticks w))) cur in
  let file := session_file (session_id cur) in
  if fs_writable file then
    ∃ w', stop_recording w = (Returned (Some (session_id cur)), w') ∧
          is_recording w' = false ∧ current_session w' = None ∧
          storage w' = <[file := session_data sealed]> (storage w) ∧
          ticks w' = S (ticks w)
  else
    ∃ w', stop_recording w = (Raised "OSError", w') ∧
          is_recording w' = false ∧ current_session w' = Some sealed ∧
          storage w' = storage w.
Proof.
  intros Hrec Hcur. unfold stop_recording, _save_session. rewrite Hrec, Hcur.
  cbn. destruct (fs_writable (session_file (session_id cur)));
    eexists; split; try reflexivity; done.
Qed.

Lemma start_recording_fresh nm md w w0 :
  (if is_recording w then stop_recording w else (Returned None, w))
    = (Returned w0.1, w0.2) →
  ∃ w', start_recording nm md w
          = (Returned (new_session_id (time_at (ticks w0.2)) nm), w') ∧
    is_recording w' = true ∧
    current_session w'
      = Some (mkSession (new_session_id (time_at (ticks w0.2)) nm) nm
                        (time_at (S (ticks w0.2))) None []
                        (match md with Some ((_ :: _) as m) => m | _ => [] end)) ∧
    storage w' = storage w0.2.
Proof.
  intros H. unfold start_recording. rewrite H. cbn.
  eexists; split; [reflexivity|]. done.
Qed.

Lemma start_recording_returned nm md w sid w' :
  start_recording nm md w = (Returned sid, w') →
  is_recording w' = true ∧
  ∃ t md', current_session w' = Some (mkSession sid nm t None [] md').
Proof.
  unfold start_recording.
  destruct (if is_recording w then stop_recording w else (Returned None, w))
    as [[r|e] wx]; cbn; intros [= <- <-]; eauto.
Qed.

Lemma load_session_saved sid doc w :
  storage w !! session_file sid = Some (session_data doc) →
  load_session sid w = Some doc.
Proof.
  unfold load_session. intros ->. apply session_of_data_session_data.
Qed.

(** *** Round trip of a recorded session *)

(** On payloads that are JSON values: after [start_recording], any run
    of [mark_action_start] and [capture_action] calls, and a
    [stop_recording] that returns an id, [load_session] of that id yields
    a session with exactly the captured actions, in capture order, each
    with the parameters (and type, tool, success flag and error) passed
    to [capture_action].  Module [Recorder] has the payloads Python
    accepts. *)
Theorem record_roundtrip nm md cs w0 sid w1 sid' w2 :
  start_recording nm md w0 = (Returned sid, w1) →
  stop_recording (run_calls cs w1) = (Returned (Some sid'), w2) →
  ∃ session,
    load_session sid' w2 = Some session ∧ sid' = sid ∧
    length (actions session) = length (captured cs) ∧
    map parameters (actions session) = map req_parameters (captured cs) ∧
    Forall2 records_request (actions session) (captured cs).
Proof.
  intros Hstart Hstop.
  destruct (start_recording_returned _ _ _ _ _ Hstart) as (Hrec & t & md' & Hcur).
  destruct (run_calls_active cs w1 _ Hrec Hcur) as (new & Hcur' & Hrec' & _ & Hnew).
  cbn [session_id name started_at ended_at actions metadata app] in Hcur'.
  pose proof (stop_recording_active _ _ Hrec' Hcur') as Hact.
  cbn zeta in Hact. cbn [session_id] in Hact.
  destruct (fs_writable (session_file sid)); destruct Hact as (w' & Hw' & Hact).
  - rewrite Hw' in Hstop. injection Hstop as <- <-.
    destruct Hact as (_ & _ & Hst & _).
    eexists. split; [|split; [reflexivity|]].
    + apply load_session_saved. rewrite Hst. apply lookup_insert_eq.
    + cbn [set_ended_at actions]. split_and!; [|  |done].
      * by eapply Forall2_length.
      * clear -Hnew. induction Hnew as [|a r l l' (_ & _ & Hp & _) _ IH];
          [done|]. cbn. by rewrite Hp, IH.
  - rewrite Hw' in Hstop. discriminate.
Qed.

(** *** One active session *)

Lemma flag_has_session_init dir shots : flag_has_session (init dir shots).
Proof. intros H. discriminate. Qed.

Lemma flag_has_session_stop w :
  flag_has_session w → flag_has_session (stop_recording w).2.
Proof.
  intros Hw. destruct (active w) as [cur|] eqn:Hact.
  - unfold active in Hact. destruct (is_recording w) eqn:Hrec; [|done].
    pose proof (stop_recording_active w cur Hrec Hact) as H. cbn zeta in H.
    destruct (fs_writable _); destruct H as (w' & -> & Hr & _);
      intros Hf; cbn in Hf; congruence.
  - by rewrite stop_recording_inactive.
Qed.

Lemma flag_has_session_start nm md w :
  flag_has_session w → flag_has_session (start_recording nm md w).2.
Proof.
  intros Hw. unfold start_recording.
  destruct (if is_recording w then stop_recording w else (Returned None, w))
    as [[r|e] wx] eqn:Hs; cbn.
  - intros _. eauto.
  - destruct (is_recording w) eqn:Hrec; [|discriminate].
    pose proof (flag_has_session_stop w Hw) as H. by rewrite Hs in H.
Qed.

Lemma flag_has_session_capture ty tool params res ok err w :
  flag_has_session w →
  flag_has_session (capture_action ty tool params res ok err w).2.
Proof.
  intros Hw. destruct (active w) as [cur|] eqn:Hact.
  - unfold active in Hact. destruct (is_recording w) eqn:Hrec; [|done].
    destruct (capture_action_active ty tool params res ok err w cur Hrec Hact)
      as (a & Ha & _). cbn zeta in Ha. intros _. by rewrite Ha.
  - by rewrite capture_action_inactive.
Qed.

Lemma flag_has_session_mark ty tool w :
  flag_has_session w → flag_has_session (mark_action_start ty tool w).
Proof. done. Qed.

(** C5: the recorder holds at most one active session in every state
    ([active] is an [option]), the flag is never set without a session in
    any state an operation leaves, and a [start_recording] issued while a
    session is active first seals that session ([ended_at] set) and writes
    it with all its captured actions, so that [load_session] of the old id
    returns it in full, and only then installs the new, empty session; when
    the write fails the call raises and no new session replaces the old
    one. *)
Theorem restart_persists_active_session :
  (∀ dir shots, flag_has_session (init dir shots)) ∧
  (∀ w, flag_has_session w →
     (∀ nm md, flag_has_session (start_recording nm md w).2) ∧
     flag_has_session (stop_recording w).2 ∧
     (∀ ty tool params res ok err,
        flag_has_session (capture_action ty tool params res ok err w).2) ∧
     (∀ ty tool, flag_has_session (mark_action_start ty tool w))) ∧
  (∀ w old nm md,
     active w = Some old →
     let sealed := set_ended_at (Some (time_at (ticks w))) old in
     (∀ sid w', start_recording nm md w = (Returned sid, w') →
        load_session (session_id old) w' = Some sealed ∧
        actions sealed = actions old ∧
        ended_at sealed = Some (time_at (ticks w)) ∧
        ∃ new, active w' = Some new ∧ session_id new = sid ∧
               actions new = []) ∧
     (∀ e w', start_recording nm md w = (Raised e, w') →
        active w' = None ∧ current_session w' = Some sealed ∧
        storage w' = storage w)).
Proof.
  split; [apply flag_has_session_init|]. split.
  { intros w Hw. split_and!; intros.
    - by apply flag_has_session_start.
    - by apply flag_has_session_stop.
    - by apply flag_has_session_capture.
    - by apply flag_has_session_mark. }
  intros w old nm md Hact sealed. unfold active in Hact.
  destruct (is_recording w) eqn:Hrec; [|done].
  pose proof (stop_recording_active w old Hrec Hact) as Hstop.
  cbn zeta in Hstop. fold sealed in Hstop.
  unfold start_recording. rewrite Hrec.
  destruct (fs_writable (session_file (session_id old)));
    destruct Hstop as (w1 & -> & Hr1 & Hc1 & Hs1).
  - split; [|discriminate]. cbn. intros sid w' [= <- <-].
    split; [|split; [done|split; [done|]]].
    + apply load_session_saved. cbn. destruct Hs1 as [-> _].
      apply lookup_insert_eq.
    + unfold active. cbn. eauto.
  - split; [discriminate|]. intros e w' [= <- <-].
    unfold active. rewrite Hr1. done.
Qed.

End Recorder.

(** *** A concrete run *)

Definition demo_clock (n : nat) : Q := inject_Z (1700000000 + Z.of_nat n).

Definition demo_calls : list RecorderCall :=
  [ Mark "browser" "click";
    Capture (mkRequest "browser" "click" [("selector", VStr "#a")]
                       (Some [("success", VBool true)]) true None);
    Capture (mkRequest "hands" "type" [("text", VStr "hi"); ("n", VInt 2)]
                       None false (Some "boom")) ].

Definition demo_started : Exc string * WorkflowCapture :=
  start_recording demo_clock (λ _, true) "my flow" None (init "rec" true).

Definition demo_stopped : Exc (option string) * WorkflowCapture :=
  stop_recording demo_clock (λ _, true) (run_calls demo_clock demo_calls demo_started.2).

Definition demo_restarted : Exc string * WorkflowCapture :=
  start_recording demo_clock (λ _, true) "next" None
                  (run_calls demo_clock demo_calls demo_started.2).

Example demo_started_id : demo_started.1 = Returned "session_1700000000_my_flow".
Proof. vm_compute. reflexivity. Qed.

Lemma record_roundtrip_witness :
  ∃ session,
    load_session "session_1700000000_my_flow" demo_stopped.2 = Some session ∧
    "session_1700000000_my_flow" = "session_1700000000_my_flow" ∧
    length (actions session) = 2 ∧
    map parameters (actions session)
      = [[("selector", VStr "#a")]; [("text", VStr "hi"); ("n", VInt 2)]] ∧
    Forall2 records_request (actions session) (captured demo_calls).
Proof.
  apply (record_roundtrip demo_clock (λ _, true) "my flow" None demo_calls
           (init "rec" true) "session_1700000000_my_flow" demo_started.2
           "session_1700000000_my_flow" demo_stopped.2);
    vm_compute; reflexivity.
Defined.

Lemma restart_persists_witness :
  ∃ old,
    active (run_calls demo_clock demo_calls demo_started.2) = Some old ∧
    length (actions old) = 2 ∧
    demo_restarted.1 = Returned "session_1700000009_next" ∧
    load_session (session_id old) demo_restarted.2
      = Some (set_ended_at (Some (demo_clock 8)) old).
Proof.
  eexists. split; [vm_compute; reflexivity|].
  split; [reflexivity|]. split; [vm_compute; reflexivity|].
  refine (proj1 (proj1 (proj2 (proj2
    (restart_persists_active_session demo_clock (λ _, true)))
      (run_calls demo_clock demo_calls demo_started.2) _ "next" None _)
      "session_1700000009_next" demo_restarted.2 _));
    vm_compute; reflexivity.
Defined.

End Capture.

(** ** [recorder/capture.py] with the payloads as Python has them *)
Module Recorder.

(** A Python object as a caller can pass it inside [parameters], [result]
    or [metadata].  [OFloat] is a finite float; a dict lists its items in
    insertion order, its keys being hashable objects; [OOther] is an
    object of any other class (a set, bytes, an instance), for which
    [json] has no encoding: [token] stands for its value, and [copyable]
    tells whether [copy.deepcopy] returns a copy of it or raises. *)
Inductive obj : Type :=
| ONone
| OBool (b : bool)
| OInt (n : Z)
| OFloat (x : Q)
| ONaN
| OInf (negative : bool)
| OStr (s : string)
| OList (l : list obj)
| OTuple (l : list obj)
| ODict (d : list (obj * obj))
| OOther (token : string) (copyable : bool).

(** [Dict[Any, Any]], in insertion order. *)
Abbreviation odict := (list (obj * obj)).

(** A JSON text, by its syntax tree; Python writes and reads [NaN],
    [Infinity] and [-Infinity] as numbers. *)
Inductive json : Type :=
| JNull
| JBool (b : bool)
| JInt (n : Z)
| JFloat (x : Q)
| JNaN
| JInf (negative : bool)
| JStr (s : string)
| JArray (l : list json)
| JObject (members : list (string * json)).

(** What a file of the storage directory holds: a whole JSON text, or
    the beginning of one, left by a [json.dump] that raised. *)
Inductive file_content : Type :=
| Document (text : json)
| Truncated.

Definition num_value (o : obj) : option Q :=
  match o with
  | OBool b => Some (if b then 1%Q else 0%Q)
  | OInt n => Some (inject_Z n)
  | OFloat x => Some x
  | _ => None
  end.

(** [a == b] between objects that share no part: numbers compare by
    value across [bool], [int] and [float], NaN equals nothing, a list
    never equals a tuple, dicts compare as maps. *)
Fixpoint obj_eq (a b : obj) {struct a} : bool :=
  match a with
  | ONone => match b with ONone => true | _ => false end
  | OBool _ | OInt _ | OFloat _ =>
      match num_value a, num_value b with
      | Some x, Some y => Qeq_bool x y
      | _, _ => false
      end
  | ONaN => false
  | OInf s => match b with OInf t => Bool.eqb s t | _ => false end
  | OStr s => match b with OStr t => String.eqb s t | _ => false end
  | OList l =>
      match b with
      | OList m =>
          (fix go (l m : list obj) {struct l} : bool :=
             match l, m with
             | [], [] => true
             | x :: l', y :: m' => obj_eq x y && go l' m'
             | _, _ => false
             end) l m
      | _ => false
      end
  | OTuple l =>
      match b with
      | OTuple m =>
          (fix go (l m : list obj) {struct l} : bool :=
             match l, m with
             | [], [] => true
             | x :: l', y :: m' => obj_eq x y && go l' m'
             | _, _ => false
             end) l m
      | _ => false
      end
  | ODict d =>
      match b with
      | ODict e =>
          Nat.eqb (length d) (length e) &&
          (fix go (d : odict) {struct d} : bool :=
             match d with
             | [] => true
             | (k, v) :: d' =>
                 (fix find (e : odict) : bool :=
                    match e with
                    | [] => false
                    | (k', v') :: e' =>
                        if obj_eq k k' then obj_eq v v' else find e'
                    end) e && go d'
             end) d
      | _ => false
      end
  | OOther t _ => match b with OOther u _ => String.eqb t u | _ => false end
  end.

(** [d.get(k)] for a string [k]: only a [str] key equals it. *)
Fixpoint odict_get (k : string) (d : odict) : option obj :=
  match d with
  | [] => None
  | (OStr k', v) :: d' => if String.eqb k k' then Some v else odict_get k d'
  | _ :: d' => odict_get k d'
  end.

(** [d[k] = v] for a string [k]. *)
Fixpoint odict_set (k : string) (v : obj) (d : odict) : odict :=
  match d with
  | [] => [(OStr k, v)]
  | (k', v') :: d' =>
      if match k' with OStr s => String.eqb k s | _ => false end
      then (k', v) :: d'
      else (k', v') :: odict_set k v d'
  end.

(** [copy.deepcopy] inside [dataclasses.asdict]: lists, tuples and dicts
    are rebuilt item by item, any other object is deep-copied. *)
Fixpoint deepcopy_ok (o : obj) : bool :=
  match o with
  | OList l | OTuple l => forallb deepcopy_ok l
  | ODict d => forallb (λ '(k, v), deepcopy_ok k && deepcopy_ok v) d
  | OOther _ c => c
  | _ => true
  end.

(** [json.load(f)] of a whole text: an object becomes a dict with the
    member names as keys, a repeated name keeping its first place and its
    last value. *)
Fixpoint load (j : json) : obj :=
  match j with
  | JNull => ONone
  | JBool b => OBool b
  | JInt n => OInt n
  | JFloat x => OFloat x
  | JNaN => ONaN
  | JInf s => OInf s
  | JStr s => OStr s
  | JArray l => OList (map load l)
  | JObject ms =>
      ODict ((fix go (ms : list (string * json)) (d : odict) : odict :=
                match ms with
                | [] => d
                | (k, v) :: ms' => go ms' (odict_set k (load v) d)
                end) ms [])
  end.


Section Json.

(** [float.__repr__] of a finite float. *)
Variable float_repr : Q → string.

(** The member name [json.dump] writes for a dict key; a key of another
    type raises [TypeError]. *)
Definition key_text (k : obj) : option string :=
  match k with
  | OStr s => Some s
  | OFloat x => Some (float_repr x)
  | ONaN => Some "NaN"
  | OInf negative => Some (if negative then "-Infinity" else "Infinity")
  | OBool b => Some (if b then "true" else "false")
  | ONone => Some "null"
  | OInt n => Some (pretty n)
  | _ => None
  end.

(** [json.dump(o, f)]: the text written, [None] when the encoder raises
    [TypeError] on the way. *)
Fixpoint dump (o : obj) : option json :=
  match o with
  | ONone => Some JNull
  | OBool b => Some (JBool b)
  | OInt n => Some (JInt n)
  | OFloat x => Some (JFloat x)
  | ONaN => Some JNaN
  | OInf s => Some (JInf s)
  | OStr s => Some (JStr s)
  | OList l | OTuple l =>
      JArray <$>
        (fix go (l : list obj) : option (list json) :=
           match l with
           | [] => Some []
           | x :: l' => j ← dump x; js ← go l'; Some (j :: js)
           end) l
  | ODict d =>
      JObject <$>
        (fix go (d : odict) : option (list (string * json)) :=
           match d with
           | [] => Some []
           | (k, v) :: d' =>
               s ← key_text k; j ← dump v; ms ← go d'; Some ((s, j) :: ms)
           end) d
  | OOther _ _ => None
  end.

(** What [json.load] reads back from what [json.dump] wrote. *)
Definition reload (o : obj) : option obj := load <$> dump o.

End Json.

(** An object that [json.load] reads back as written: no NaN (which
    equals nothing), no tuple, no object without encoding, and only
    dicts whose keys are strings, pairwise distinct as the keys of a
    dict are. *)
Definition str_keys (d : odict) : list string :=
  flat_map (λ '(k, _), match k with OStr s => [s] | _ => [] end) d.

Fixpoint json_stable (o : obj) : bool :=
  match o with
  | ONone | OBool _ | OInt _ | OFloat _ | OInf _ | OStr _ => true
  | OList l => forallb json_stable l
  | ODict d =>
      forallb (λ '(k, v), match k with OStr _ => json_stable v | _ => false end) d
      && bool_decide (NoDup (str_keys d))
  | ONaN | OTuple _ | OOther _ _ => false
  end.

(** [@dataclass CapturedAction], with the types [capture_action] gives
    its fields. *)
Record CapturedAction : Type := mkAction {
  timestamp : Q;
  action_type : string;
  tool_name : string;
  parameters : odict;
  result : option odict;
  screenshot_path : option string;
  duration_ms : option Q;
  success : bool;
  error : option string
}.

(** [@dataclass RecordingSession], as [start_recording] creates it. *)
Record RecordingSession : Type := mkSession {
  session_id : string;
  name : string;
  started_at : Q;
  ended_at : option Q;
  actions : list CapturedAction;
  metadata : odict
}.

(** The same two classes as [load_session] instantiates them: the
    constructors do not check the annotations, so that every field holds
    whatever object the document holds. *)
Record LoadedAction : Type := mkLoadedAction {
  l_timestamp : obj;
  l_action_type : obj;
  l_tool_name : obj;
  l_parameters : obj;
  l_result : obj;
  l_screenshot_path : obj;
  l_duration_ms : obj;
  l_success : obj;
  l_error : obj
}.

Record LoadedSession : Type := mkLoadedSession {
  l_session_id : obj;
  l_name : obj;
  l_started_at : obj;
  l_ended_at : obj;
  l_actions : list LoadedAction;
  l_metadata : obj
}.

(** The attributes of a [WorkflowCapture] object; [storage] is the
    content of [storage_dir], [ticks] counts the readings of the clock. *)
Record WorkflowCapture : Type := mkCapture {
  is_recording : bool;
  current_session : option RecordingSession;
  storage_dir : string;
  storage : gmap string file_content;
  capture_screenshots : bool;
  action_start_times : gmap string Q;
  ticks : nat
}.

Definition set_is_recording (b : bool) (w : WorkflowCapture) : WorkflowCapture :=
  mkCapture b (current_session w) (storage_dir w) (storage w)
            (capture_screenshots w) (action_start_times w) (ticks w).

Definition set_current_session (s : option RecordingSession)
    (w : WorkflowCapture) : WorkflowCapture :=
  mkCapture (is_recording w) s (storage_dir w) (storage w)
            (capture_screenshots w) (action_start_times w) (ticks w).

Definition set_storage (st : gmap string file_content) (w : WorkflowCapture)
    : WorkflowCapture :=
  mkCapture (is_recording w) (current_session w) (storage_dir w) st
            (capture_screenshots w) (action_start_times w) (ticks w).

Definition set_action_start_times (m : gmap string Q) (w : WorkflowCapture)
    : WorkflowCapture :=
  mkCapture (is_recording w) (current_session w) (storage_dir w) (storage w)
            (capture_screenshots w) m (ticks w).

Definition set_ticks (n : nat) (w : WorkflowCapture) : WorkflowCapture :=
  mkCapture (is_recording w) (current_session w) (storage_dir w) (storage w)
            (capture_screenshots w) (action_start_times w) n.

Definition set_ended_at (e : option Q) (s : RecordingSession) : RecordingSession :=
  mkSession (session_id s) (name s) (started_at s) e (actions s) (metadata s).

Definition append_action (a : CapturedAction) (s : RecordingSession)
    : RecordingSession :=
  mkSession (session_id s) (name s) (started_at s) (ended_at s)
            (actions s ++ [a]) (metadata s).

(** [WorkflowCapture(config)] on an empty storage directory. *)
Definition init (dir : string) (screenshots : bool) : WorkflowCapture :=
  mkCapture false None dir ∅ screenshots ∅ 0.

Definition opt_obj {A} (f : A → obj) (o : option A) : obj :=
  match o with Some a => f a | None => ONone end.

(** [CapturedAction.to_dict] ([dataclasses.asdict]): the fields in the
    order of their declaration, containers rebuilt, other objects
    deep-copied; [None] when a copy raises. *)
Definition to_dict (a : CapturedAction) : option obj :=
  if deepcopy_ok (ODict (parameters a))
     && deepcopy_ok (opt_obj ODict (result a))
  then Some (ODict [ (OStr "timestamp", OFloat (timestamp a));
                     (OStr "action_type", OStr (action_type a));
                     (OStr "tool_name", OStr (tool_name a));
                     (OStr "parameters", ODict (parameters a));
                     (OStr "result", opt_obj ODict (result a));
                     (OStr "screenshot_path", opt_obj OStr (screenshot_path a));
                     (OStr "duration_ms", opt_obj OFloat (duration_ms a));
                     (OStr "success", OBool (success a));
                     (OStr "error", opt_obj OStr (error a)) ])
  else None.

Fixpoint to_dicts (l : list CapturedAction) : option (list obj) :=
  match l with
  | [] => Some []
  | a :: l' => d ← to_dict a; ds ← to_dicts l'; Some (d :: ds)
  end.

(** The dict [_save_session] hands to [json.dump]. *)
Definition session_data (session : RecordingSession) (action_dicts : list obj)
    : obj :=
  ODict [ (OStr "session_id", OStr (session_id session));
          (OStr "name", OStr (name session));
          (OStr "started_at", OFloat (started_at session));
          (OStr "ended_at", opt_obj OFloat (ended_at session));
          (OStr "duration_seconds",
             match ended_at session with
             | Some e =>
                 if Qeq_bool e 0 then ONone
                 else OFloat (e - started_at session)
             | None => ONone
             end);
          (OStr "action_count", OInt (Z.of_nat (length (actions session))));
          (OStr "metadata", ODict (metadata session));
          (OStr "actions", OList action_dicts) ].

Definition action_fields : list string :=
  ["timestamp"; "action_type"; "tool_name"; "parameters"; "result";
   "screenshot_path"; "duration_ms"; "success"; "error"].

(** [k in d] for a string [k]. *)
Definition odict_mem (k : string) (d : odict) : bool :=
  match odict_get k d with Some _ => true | None => false end.

Definition odict_get_default (k : string) (default : obj) (d : odict) : obj :=
  match odict_get k d with Some v => v | None => default end.

(** The constructor [CapturedAction] called with the items of
    [action_dict] as keywords: [None] stands for the [TypeError] raised
    when [action_dict] is no mapping, has a key that is no field, or
    lacks one of the four fields without default. *)
Definition action_of_dict (o : obj) : option LoadedAction :=
  match o with
  | ODict d =>
      if forallb (λ '(k, _), match k with
                             | OStr s => bool_decide (s ∈ action_fields)
                             | _ => false
                             end) d
         && forallb (λ k, odict_mem k d)
                    ["timestamp"; "action_type"; "tool_name"; "parameters"]
      then Some (mkLoadedAction
                   (odict_get_default "timestamp" ONone d)
                   (odict_get_default "action_type" ONone d)
                   (odict_get_default "tool_name" ONone d)
                   (odict_get_default "parameters" ONone d)
                   (odict_get_default "result" ONone d)
                   (odict_get_default "screenshot_path" ONone d)
                   (odict_get_default "duration_ms" ONone d)
                   (odict_get_default "success" (OBool true) d)
                   (odict_get_default "error" ONone d))
      else None
  | _ => None
  end.

Fixpoint actions_of_dicts (l : list obj) : option (list LoadedAction) :=
  match l with
  | [] => Some []
  | o :: l' => a ← action_of_dict o; rest ← actions_of_dicts l'; Some (a :: rest)
  end.

(** The body of the [try] in [load_session] after [json.load]; [None]
    stands for any exception, which [load_session] turns into [None].
    A document that is no dict has no [get]; iterating over [actions]
    yields the items of a list, nothing for an empty string or dict, and
    fails on anything else (the keys of a dict and the characters of a
    string are no mappings). *)
Definition session_of_data (o : obj) : option LoadedSession :=
  match o with
  | ODict d =>
      acts ← match odict_get "actions" d with
             | None => Some []
             | Some (OList l) => actions_of_dicts l
             | Some (ODict []) | Some (OStr "") => Some []
             | Some _ => None
             end;
      sid ← odict_get "session_id" d;
      nm ← odict_get "name" d;
      st ← odict_get "started_at" d;
      Some (mkLoadedSession sid nm st
              (odict_get_default "ended_at" ONone d)
              acts
              (match odict_get "metadata" d with
               | None | Some ONone => ODict []
               | Some md => md
               end))
  | _ => None
  end.


(** *** Induction on objects *)

Section ObjInd.

Variable P : obj → Prop.
Hypothesis HNone : P ONone.
Hypothesis HBool : ∀ b, P (OBool b).
Hypothesis HInt : ∀ n, P (OInt n).
Hypothesis HFloat : ∀ x, P (OFloat x).
Hypothesis HNaN : P ONaN.
Hypothesis HInf : ∀ s, P (OInf s).
Hypothesis HStr : ∀ s, P (OStr s).
Hypothesis HList : ∀ l, Forall P l → P (OList l).
Hypothesis HTuple : ∀ l, Forall P l → P (OTuple l).
Hypothesis HDict : ∀ d, Forall (λ kv, P kv.1 ∧ P kv.2) d → P (ODict d).
Hypothesis HOther : ∀ t c, P (OOther t c).

Fixpoint obj_induction (o : obj) : P o :=
  match o with
  | ONone => HNone
  | OBool b => HBool b
  | OInt n => HInt n
  | OFloat x => HFloat x
  | ONaN => HNaN
  | OInf s => HInf s
  | OStr s => HStr s
  | OList l =>
      HList l ((fix go (l : list obj) : Forall P l :=
                  match l with
                  | [] => Forall_nil_2 P
                  | x :: l' => Forall_cons_2 P x l' (obj_induction x) (go l')
                  end) l)
  | OTuple l =>
      HTuple l ((fix go (l : list obj) : Forall P l :=
                   match l with
                   | [] => Forall_nil_2 P
                   | x :: l' => Forall_cons_2 P x l' (obj_induction x) (go l')
                   end) l)
  | ODict d =>
      HDict d ((fix go (d : odict) : Forall (λ kv, P kv.1 ∧ P kv.2) d :=
                  match d with
                  | [] => Forall_nil_2 _
                  | (k, v) :: d' =>
                      Forall_cons_2 (λ kv, P kv.1 ∧ P kv.2) (k, v) d'
                        (conj (obj_induction k) (obj_induction v)) (go d')
                  end) d)
  | OOther t c => HOther t c
  end.

End ObjInd.


(** *** The encoder and the decoder, container by container *)

Section JsonFacts.

Variable float_repr : Q → string.

Fixpoint dump_list (l : list obj) : option (list json) :=
  match l with
  | [] => Some []
  | x :: l' => j ← dump float_repr x; js ← dump_list l'; Some (j :: js)
  end.

Fixpoint dump_items (d : odict) : option (list (string * json)) :=
  match d with
  | [] => Some []
  | (k, v) :: d' =>
      s ← key_text float_repr k; j ← dump float_repr v;
      ms ← dump_items d'; Some ((s, j) :: ms)
  end.

Fixpoint load_members (ms : list (string * json)) (d : odict) : odict :=
  match ms with
  | [] => d
  | (k, v) :: ms' => load_members ms' (odict_set k (load v) d)
  end.

Lemma dump_OList l : dump float_repr (OList l) = JArray <$> dump_list l.
Proof. reflexivity. Qed.

Lemma dump_OTuple l : dump float_repr (OTuple l) = JArray <$> dump_list l.
Proof. reflexivity. Qed.

Lemma dump_ODict d : dump float_repr (ODict d) = JObject <$> dump_items d.
Proof. reflexivity. Qed.

Lemma load_JObject ms : load (JObject ms) = ODict (load_members ms []).
Proof. reflexivity. Qed.

Lemma load_JArray l : load (JArray l) = OList (map load l).
Proof. reflexivity. Qed.

Lemma odict_set_fresh k v (d : odict) :
  k ∉ str_keys d → odict_set k v d = d ++ [(OStr k, v)].
Proof.
  induction d as [|[k' v'] d IH]; [done|]. cbn [str_keys flat_map].
  intros Hk. cbn [odict_set]. destruct k' as [| | | | | |s| | | |];
    try (rewrite IH; [done|]; exact Hk).
  cbn in Hk. apply not_elem_of_cons in Hk as [Hne Hk].
  apply String.eqb_neq in Hne. rewrite Hne. by rewrite IH.
Qed.

Lemma str_keys_app d e : str_keys (d ++ e) = str_keys d ++ str_keys e.
Proof. unfold str_keys. by rewrite flat_map_app. Qed.

Lemma load_members_fresh ms : ∀ d,
  NoDup (str_keys d ++ map fst ms) →
  load_members ms d = d ++ map (λ m, (OStr m.1, load m.2)) ms.
Proof.
  induction ms as [|[k j] ms IH]; intros d Hnd; cbn [load_members map].
  - by rewrite app_nil_r.
  - cbn [map fst] in Hnd.
    rewrite odict_set_fresh.
    + rewrite IH; [by rewrite <- app_assoc|].
      rewrite str_keys_app. cbn. rewrite <- app_assoc. exact Hnd.
    + apply NoDup_app in Hnd as (_ & Hd & _). intros Hin.
      apply (Hd k Hin). left.
Qed.

Lemma stable_reload (o : obj) :
  json_stable o = true → reload float_repr o = Some o.
Proof.
  unfold reload. induction o as [| | | | | | |l IH|l IH|d IH|] using obj_induction;
    try done.
  - cbn [json_stable]. intros Hs. rewrite dump_OList.
    assert (∃ js, dump_list l = Some js ∧ map load js = l) as (js & -> & Hl).
    { induction IH as [|x l Hx _ IHl]; [by exists []|].
      cbn [forallb] in Hs. apply andb_prop in Hs as [Hx' Hs].
      specialize (Hx Hx'). destruct (IHl Hs) as (js & El & Ml).
      destruct (dump float_repr x) as [j|] eqn:Ej; [|done].
      cbn in Hx. injection Hx as Hx.
      exists (j :: js). cbn [dump_list]. rewrite Ej. cbn. rewrite El. cbn.
      by rewrite Hx, Ml. }
    cbn [fmap option_fmap option_map]. by rewrite load_JArray, Hl.
  - cbn [json_stable]. intros Hs. apply andb_prop in Hs as [Hs Hnd].
    apply bool_decide_eq_true in Hnd.
    rewrite dump_ODict.
    assert (∃ ms, dump_items d = Some ms
                  ∧ map (λ m, (OStr m.1, load m.2)) ms = d
                  ∧ map fst ms = str_keys d) as (ms & -> & Hms & Hkeys).
    { clear Hnd. induction IH as [|[k v] d [_ Hv] _ IHd]; [by exists []|].
      cbn [forallb] in Hs. apply andb_prop in Hs as [Hkv Hs].
      destruct k as [| | | | | |s| | | |]; try done.
      cbn [snd] in Hv. specialize (Hv Hkv).
      destruct (IHd Hs) as (ms & Ems & Mms & Kms).
      destruct (dump float_repr v) as [j|] eqn:Ej; [|done].
      cbn in Hv. injection Hv as Hv.
      exists ((s, j) :: ms). cbn [dump_items key_text]. rewrite Ej. cbn.
      rewrite Ems. cbn. by rewrite Hv, Mms, Kms. }
    cbn [fmap option_fmap option_map]. f_equal.
    rewrite load_JObject, load_members_fresh; [by rewrite Hms|].
    cbn [str_keys flat_map app]. by rewrite Hkeys.
Qed.

End JsonFacts.


(** *** Equality of an object with itself *)

Fixpoint list_eq (l m : list obj) : bool :=
  match l, m with
  | [], [] => true
  | x :: l', y :: m' => obj_eq x y && list_eq l' m'
  | _, _ => false
  end.

Definition dict_find (k v : obj) : odict → bool :=
  fix find (e : odict) : bool :=
    match e with
    | [] => false
    | (k', v') :: e' => if obj_eq k k' then obj_eq v v' else find e'
    end.

(** Every item of [d] is an item of [e]. *)
Definition dict_within (e : odict) : odict → bool :=
  fix go (d : odict) : bool :=
    match d with
    | [] => true
    | (k, v) :: d' => dict_find k v e && go d'
    end.

Lemma obj_eq_OList l m : obj_eq (OList l) (OList m) = list_eq l m.
Proof. reflexivity. Qed.

Lemma obj_eq_ODict d e :
  obj_eq (ODict d) (ODict e) = Nat.eqb (length d) (length e) && dict_within e d.
Proof. reflexivity. Qed.

Lemma dict_find_cons k v k' v' e :
  dict_find k v ((k', v') :: e)
  = if obj_eq k k' then obj_eq v v' else dict_find k v e.
Proof. reflexivity. Qed.

Lemma dict_within_cons e k v d :
  dict_within e ((k, v) :: d) = dict_find k v e && dict_within e d.
Proof. reflexivity. Qed.

Lemma str_keys_elem s v (e : odict) : (OStr s, v) ∈ e → s ∈ str_keys e.
Proof.
  induction e as [|[k' v'] e IH]; intros Hin; [by apply elem_of_nil in Hin|].
  cbn [str_keys flat_map]. apply elem_of_app.
  apply elem_of_cons in Hin as [[= <- <-]|Hin]; [left; left|right; by apply IH].
Qed.

Lemma dict_find_self s v (e : odict) :
  Forall (λ kv, ∃ t, kv.1 = OStr t) e → NoDup (str_keys e) →
  (OStr s, v) ∈ e → obj_eq v v = true →
  dict_find (OStr s) v e = true.
Proof.
  intros Hkeys Hnd Hin Hv.
  induction Hkeys as [|[k' v'] e [t Ht] _ IH]; [by apply elem_of_nil in Hin|].
  cbn [fst] in Ht. subst k'. cbn [str_keys flat_map app] in Hnd.
  apply NoDup_cons in Hnd as [Hnotin Hnd].
  rewrite dict_find_cons. cbn [obj_eq].
  destruct (String.eqb s t) eqn:E.
  - apply String.eqb_eq in E. subst t.
    apply elem_of_cons in Hin as [[= <-]|Hin]; [done|].
    exfalso. apply Hnotin. by eapply str_keys_elem.
  - apply elem_of_cons in Hin as [[= -> _]|Hin].
    + by rewrite String.eqb_refl in E.
    + by apply IH.
Qed.

Lemma stable_equals_itself (o : obj) : json_stable o = true → obj_eq o o = true.
Proof.
  induction o as [| | | | | | |l IH|l IH|d IH|] using obj_induction;
    try done.
  - intros _. cbn. by destruct b.
  - intros _. cbn. apply Qeq_bool_iff. reflexivity.
  - intros _. cbn. apply Qeq_bool_iff. reflexivity.
  - intros _. cbn. by destruct s.
  - intros _. cbn. apply String.eqb_refl.
  - cbn [json_stable]. intros Hs. rewrite obj_eq_OList.
    induction IH as [|x l Hx _ IHl]; [done|].
    cbn [forallb] in Hs. apply andb_prop in Hs as [Hx' Hs].
    cbn [list_eq]. by rewrite Hx, IHl.
  - cbn [json_stable]. intros Hs. apply andb_prop in Hs as [Hs Hnd].
    apply bool_decide_eq_true in Hnd.
    rewrite obj_eq_ODict, Nat.eqb_refl. cbn [andb].
    assert (Forall (λ kv : obj * obj,
                      (∃ t, kv.1 = OStr t) ∧ obj_eq kv.2 kv.2 = true) d) as Hd.
    { clear Hnd. induction IH as [|[k v] d [_ Hv] _ IHd]; [done|].
      cbn [forallb] in Hs. apply andb_prop in Hs as [Hkv Hs].
      destruct k as [| | | | | |t| | | |]; try done.
      constructor; [|by apply IHd]. split; [by exists t|]. by apply Hv. }
    assert (∀ d', Forall (λ kv, kv ∈ d) d' → dict_within d d' = true) as Hsub.
    { intros d' Hd'. induction Hd' as [|[k v] d' Hin _ IHd']; [done|].
      rewrite dict_within_cons, IHd', andb_true_r.
      rewrite Forall_forall in Hd. destruct (Hd _ Hin) as [[t Ht] Hv].
      cbn [fst snd] in Ht, Hv. subst k.
      apply dict_find_self; [|done|done|done].
      apply Forall_forall. intros kv Hkv. by destruct (Hd _ Hkv). }
    apply Hsub. by apply Forall_forall.
Qed.


(** *** A saved session, read back *)

Section SavedSession.

Variable float_repr : Q → string.

(** The action [load_session] rebuilds from the dict of [a], given what
    the parameters and the result were read back as. *)
Definition loaded_action (a : CapturedAction) (params res : obj)
    : LoadedAction :=
  mkLoadedAction (OFloat (timestamp a)) (OStr (action_type a))
                 (OStr (tool_name a)) params res
                 (opt_obj OStr (screenshot_path a))
                 (opt_obj OFloat (duration_ms a))
                 (OBool (success a)) (opt_obj OStr (error a)).

Definition reloaded_as (a : CapturedAction) (la : LoadedAction) : Prop :=
  ∃ params res,
    reload float_repr (ODict (parameters a)) = Some params ∧
    reload float_repr (opt_obj ODict (result a)) = Some res ∧
    la = loaded_action a params res.

Lemma to_dict_reloaded a d j :
  to_dict a = Some d → dump float_repr d = Some j →
  ∃ la, action_of_dict (load j) = Some la ∧ reloaded_as a la.
Proof.
  unfold to_dict. destruct (_ && _); [|done]. intros [= <-].
  rewrite dump_ODict. cbn [dump_items key_text mbind option_bind].
  unfold reloaded_as, reload.
  destruct (dump float_repr (ODict (parameters a))) as [jp|] eqn:Ep.
  2:{ cbn. destruct (dump float_repr (opt_obj OStr (screenshot_path a)));
        destruct (dump float_repr (opt_obj ODict (result a))); done. }
  destruct (dump float_repr (opt_obj ODict (result a))) as [jr|] eqn:Er.
  2:{ cbn. done. }
  destruct a as [ts ty tool params res shot dur ok err].
  cbn [timestamp action_type tool_name parameters result screenshot_path
       duration_ms success error] in *.
  destruct shot, dur, err; cbn; intros [= <-];
    (eexists; split; [reflexivity|]); exists (load jp), (load jr); done.
Qed.


Lemma to_dicts_reloaded l : ∀ ds js,
  to_dicts l = Some ds → dump_list float_repr ds = Some js →
  ∃ las, actions_of_dicts (map load js) = Some las ∧
         Forall2 (λ la a, reloaded_as a la) las l.
Proof.
  induction l as [|a l IH]; intros ds js.
  - intros [= <-] [= <-]. by exists [].
  - cbn [to_dicts]. destruct (to_dict a) as [d|] eqn:Ed; [|done].
    destruct (to_dicts l) as [ds'|] eqn:Eds; [|done]. intros [= <-].
    cbn [dump_list].
    destruct (dump float_repr d) as [j|] eqn:Ej; [|done].
    destruct (dump_list float_repr ds') as [js'|] eqn:Ejs; [|done].
    intros [= <-].
    destruct (to_dict_reloaded a d j Ed Ej) as (la & Hla & Hrel).
    destruct (IH ds' js' eq_refl Ejs) as (las & Hlas & Hall).
    exists (la :: las). cbn [map actions_of_dicts]. rewrite Hla. cbn.
    rewrite Hlas. cbn. split; [done|by constructor].
Qed.

Lemma dump_dict_object d j :
  dump float_repr (ODict d) = Some j → ∃ ms, j = JObject ms.
Proof.
  rewrite dump_ODict. destruct (dump_items float_repr d) as [ms|]; [|done].
  intros [= <-]. by exists ms.
Qed.

Lemma session_data_reloaded s ds j :
  to_dicts (actions s) = Some ds →
  dump float_repr (session_data s ds) = Some j →
  ∃ las md,
    session_of_data (load j)
    = Some (mkLoadedSession (OStr (session_id s)) (OStr (name s))
                            (OFloat (started_at s))
                            (opt_obj OFloat (ended_at s)) las md) ∧
    reload float_repr (ODict (metadata s)) = Some md ∧
    Forall2 (λ la a, reloaded_as a la) las (actions s).
Proof.
  intros Hds. unfold session_data. rewrite dump_ODict.
  cbn [dump_items key_text mbind option_bind]. rewrite dump_OList.
  unfold reload.
  destruct (dump float_repr (ODict (metadata s))) as [jmd|] eqn:Emd.
  2:{ destruct (ended_at s) as [e|]; [destruct (Qeq_bool e 0)|]; cbn;
        destruct (dump_list float_repr ds); done. }
  destruct (dump_list float_repr ds) as [js|] eqn:Ejs.
  2:{ destruct (ended_at s) as [e|]; [destruct (Qeq_bool e 0)|]; done. }
  destruct (to_dicts_reloaded _ _ _ Hds Ejs) as (las & Hlas & Hall).
  destruct (dump_dict_object _ _ Emd) as (ms & ->).
  intros Hj. exists las, (load (JObject ms)). split; [|done].
  destruct (ended_at s) as [e|]; [destruct (Qeq_bool e 0)|];
    cbn in Hj; injection Hj as <-; cbn -[actions_of_dicts];
    rewrite Hlas; reflexivity.
Qed.

End SavedSession.


Section Recording.

(** [time_at n] is what the [n]-th call of [time.time()] returns;
    [fs_writable f] tells whether [open(f, 'w')] succeeds in the storage
    directory; [float_repr] is [float.__repr__]. *)
Variable time_at : nat → Q.
Variable fs_writable : string → bool.
Variable float_repr : Q → string.

(** [time.time()] *)
Definition now (w : WorkflowCapture) : Q * WorkflowCapture :=
  (time_at (ticks w), set_ticks (S (ticks w)) w).

(** [_save_session]: the action dicts are built before the file is
    opened; [open(file, 'w')] empties the file, and a [json.dump] that
    raises leaves the beginning of the text in it. *)
Definition _save_session (session : RecordingSession) (w : WorkflowCapture)
    : Exc string * WorkflowCapture :=
  let file := Capture.session_file (session_id session) in
  match to_dicts (actions session) with
  | None => (Raised "TypeError", w)
  | Some action_dicts =>
      if fs_writable file then
        match dump float_repr (session_data session action_dicts) with
        | Some text =>
            (Returned file,
             set_storage (<[file := Document text]> (storage w)) w)
        | None =>
            (Raised "TypeError",
             set_storage (<[file := Truncated]> (storage w)) w)
        end
      else (Raised "OSError", w)
  end.

Definition stop_recording (w : WorkflowCapture)
    : Exc (option string) * WorkflowCapture :=
  match is_recording w, current_session w with
  | true, Some cur =>
      let '(t, w) := now w in
      let cur := set_ended_at (Some t) cur in
      let w := set_current_session (Some cur) w in
      let w := set_is_recording false w in
      match _save_session cur w with
      | (Returned _, w) =>
          (Returned (Some (session_id cur)), set_current_session None w)
      | (Raised e, w) => (Raised e, w)
      end
  | _, _ => (Returned None, w)
  end.

Definition start_recording (nm : string) (md : option odict)
    (w : WorkflowCapture) : Exc string * WorkflowCapture :=
  let stopped :=
    if is_recording w then stop_recording w else (Returned None, w) in
  match stopped with
  | (Raised e, w) => (Raised e, w)
  | (Returned _, w) =>
      let '(t1, w) := now w in
      let sid := Capture.new_session_id t1 nm in
      let '(t2, w) := now w in
      let session :=
        mkSession sid nm t2 None []
                  (match md with Some ((_ :: _) as m) => m | _ => [] end) in
      let w := set_current_session (Some session) w in
      let w := set_is_recording true w in
      (Returned sid, w)
  end.

Definition mark_action_start (ty tool : string) (w : WorkflowCapture)
    : WorkflowCapture :=
  let '(t, w) := now w in
  set_action_start_times
    (<[Capture.action_key ty tool := t]> (action_start_times w)) w.

Definition _capture_screenshot (sid ty tool : string) (w : WorkflowCapture)
    : option string * WorkflowCapture :=
  let '(t, w) := now w in
  let filename :=
    sid +:+ "_" +:+ ty +:+ "_" +:+ tool +:+ "_"
        +:+ pretty (py_int (float_mul t 1000)) +:+ ".png" in
  (Some (storage_dir w +:+ "/screenshots/" +:+ filename), w).

Definition capture_action (ty tool : string) (params : odict)
    (res : option odict) (ok : bool) (err : option string)
    (w : WorkflowCapture) : option string * WorkflowCapture :=
  match is_recording w, current_session w with
  | true, Some cur =>
      let key := Capture.action_key ty tool in
      let '(dur, w) :=
        match action_start_times w !! key with
        | Some t0 =>
            let '(t, w) := now w in
            (Some ((t - t0) * 1000)%Q,
             set_action_start_times (delete key (action_start_times w)) w)
        | None => (None, w)
        end in
      let '(shot, w) :=
        if capture_screenshots w
           && bool_decide (ty ∈ ["vision"; "browser"; "hands"])
        then _capture_screenshot (session_id cur) ty tool w
        else (None, w) in
      let '(t, w) := now w in
      let action :=
        mkAction t ty tool params
                 (match res with Some ((_ :: _) as r) => Some r | _ => None end)
                 shot dur ok err in
      let cur := append_action action cur in
      (Some ("action_" +:+ pretty (length (actions cur))),
       set_current_session (Some cur) w)
  | _, _ => (None, w)
  end.

(** [load_session]: [None] when the file is missing, when [json.load]
    raises on a truncated text, and when the session cannot be rebuilt. *)
Definition load_session (sid : string) (w : WorkflowCapture)
    : option LoadedSession :=
  match storage w !! Capture.session_file sid with
  | None => None
  | Some Truncated => None
  | Some (Document text) => session_of_data (load text)
  end.

(** One call made on the recorder while a session is recorded. *)
Record CaptureRequest : Type := mkRequest {
  req_type : string;
  req_tool : string;
  req_parameters : odict;
  req_result : option odict;
  req_success : bool;
  req_error : option string
}.

Inductive RecorderCall : Type :=
| Mark (ty tool : string)
| Capture (r : CaptureRequest).

Definition run_call (c : RecorderCall) (w : WorkflowCapture) : WorkflowCapture :=
  match c with
  | Mark ty tool => mark_action_start ty tool w
  | Capture r =>
      (capture_action (req_type r) (req_tool r) (req_parameters r)
                      (req_result r) (req_success r) (req_error r) w).2
  end.

Definition run_calls (cs : list RecorderCall) (w : WorkflowCapture)
    : WorkflowCapture :=
  fold_left (λ w c, run_call c w) cs w.

Fixpoint captured (cs : list RecorderCall) : list CaptureRequest :=
  match cs with
  | [] => []
  | Mark _ _ :: cs' => captured cs'
  | Capture r :: cs' => r :: captured cs'
  end.

(** The recorded action holds what the call passed. *)
Definition records_request (a : CapturedAction) (r : CaptureRequest) : Prop :=
  action_type a = req_type r ∧ tool_name a = req_tool r ∧
  parameters a = req_parameters r ∧ success a = req_success r ∧
  error a = req_error r.

(** The round trip as first stated, for one run: when recording starts and
    stops with an id, the session loaded under that id has one action per
    captured call, in order, with parameters equal ([==]) to those passed. *)
Definition parameters_equal_those_passed (nm : string)
    (cs : list RecorderCall) (w0 : WorkflowCapture) : bool :=
  match start_recording nm None w0 with
  | (Returned _, w1) =>
      match stop_recording (run_calls cs w1) with
      | (Returned (Some sid), w2) =>
          match load_session sid w2 with
          | Some session =>
              Nat.eqb (length (l_actions session)) (length (captured cs))
              && forallb (λ ar, obj_eq (l_parameters ar.1)
                                       (ODict (req_parameters ar.2)))
                         (zip (l_actions session) (captured cs))
          | None => false
          end
      | _ => true
      end
  | _ => true
  end.

(** *** The operations, one by one *)

Lemma marking_keeps_the_session ty tool w :
  is_recording (mark_action_start ty tool w) = is_recording w ∧
  current_session (mark_action_start ty tool w) = current_session w ∧
  storage (mark_action_start ty tool w) = storage w.
Proof. done. Qed.

Lemma capturing_appends_an_action ty tool params res ok err w cur :
  is_recording w = true → current_session w = Some cur →
  ∃ a, let w' := (capture_action ty tool params res ok err w).2 in
    current_session w' = Some (append_action a cur) ∧
    is_recording w' = true ∧ storage w' = storage w ∧
    records_request a (mkRequest ty tool params res ok err).
Proof.
  intros Hrec Hcur. unfold capture_action. rewrite Hrec, Hcur.
  destruct (action_start_times w !! Capture.action_key ty tool) as [t0|];
    cbn [now set_ticks set_action_start_times ticks capture_screenshots];
    destruct (capture_screenshots w
              && bool_decide (ty ∈ ["vision"; "browser"; "hands"]));
    cbn; (eexists; split; [reflexivity|]); cbn; rewrite ?Hrec; done.
Qed.

Lemma calls_append_actions cs : ∀ w cur,
  is_recording w = true → current_session w = Some cur →
  ∃ new,
    current_session (run_calls cs w)
      = Some (mkSession (session_id cur) (name cur) (started_at cur)
                        (ended_at cur) (actions cur ++ new) (metadata cur)) ∧
    is_recording (run_calls cs w) = true ∧
    storage (run_calls cs w) = storage w ∧
    Forall2 records_request new (captured cs).
Proof.
  induction cs as [|c cs IH]; intros w cur Hrec Hcur.
  - exists []. rewrite app_nil_r. cbn. destruct cur; auto.
  - change (run_calls (c :: cs) w) with (run_calls cs (run_call c w)).
    destruct c as [ty tool|r].
    + destruct (marking_keeps_the_session ty tool w) as (H1 & H2 & H3).
      destruct (IH (mark_action_start ty tool w) cur) as (new & Hn & ? & Hs & ?);
        [by rewrite H1|by rewrite H2|].
      exists new. cbn [run_call captured].
      rewrite Hn, Hs, H3. done.
    + destruct r as [ty tool params res ok err].
      destruct (capturing_appends_an_action ty tool params res ok err w cur Hrec Hcur)
        as (a & Ha & Hr & Hs & Hm).
      cbn zeta in Ha, Hr, Hs.
      destruct (IH _ _ Hr Ha) as (new & Hn & ? & Hs' & ?).
      exists (a :: new). cbn [run_call captured].
      cbn [req_type req_tool req_parameters req_result req_success req_error].
      rewrite Hn, Hs', Hs. cbn. rewrite <- app_assoc. cbn.
      split_and!; [done|done|done|by constructor].
Qed.

Lemma started_session_is_empty nm md w sid w' :
  start_recording nm md w = (Returned sid, w') →
  is_recording w' = true ∧
  ∃ t md', current_session w' = Some (mkSession sid nm t None [] md').
Proof.
  unfold start_recording.
  destruct (if is_recording w then stop_recording w else (Returned None, w))
    as [[r|e] wx]; cbn; intros [= <- <-]; eauto.
Qed.

(** A [stop_recording] that returns an id has written the whole text of
    the sealed session. *)
Lemma stop_recording_returned w cur sid w' :
  is_recording w = true → current_session w = Some cur →
  stop_recording w = (Returned (Some sid), w') →
  let sealed := set_ended_at (Some (time_at (ticks w))) cur in
  sid = session_id cur ∧
  ∃ ds text,
    to_dicts (actions sealed) = Some ds ∧
    dump float_repr (session_data sealed ds) = Some text ∧
    storage w' = <[Capture.session_file sid := Document text]> (storage w).
Proof.
  intros Hrec Hcur. unfold stop_recording, _save_session.
  rewrite Hrec, Hcur. cbn -[to_dicts dump session_data].
  destruct (to_dicts (actions cur)) as [ds|] eqn:Eds; [|done].
  destruct (fs_writable _); [|done].
  destruct (dump float_repr _) as [text|] eqn:Etext; [|done].
  intros [= <- <-]. split; [done|]. exists ds, text. done.
Qed.


(** *** Round trip of a recorded session *)

(** C4, as the code has it: after [start_recording], any run of
    [mark_action_start] and [capture_action] calls, and a
    [stop_recording] that returns an id, [load_session] of that id yields
    a session with one action per captured call, in capture order, with
    the type, tool, success flag and error passed to [capture_action],
    and with the parameters that [json.load] reads back from what
    [json.dump] wrote of those passed.  These are the parameters passed,
    and equal to them, when they are made of [None], booleans, integers,
    floats other than NaN, strings, lists, and dicts with string keys.
    Other payloads come back changed: a tuple is read back as the list
    of its items read back, which equals no tuple; a key that is an
    integer, a float, a boolean or [None] is read back as the string of
    its JSON text; NaN is read back as NaN, which does not equal itself. *)
Theorem recorded_parameters_read_back nm md cs w0 sid w1 sid' w2 :
  start_recording nm md w0 = (Returned sid, w1) →
  stop_recording (run_calls cs w1) = (Returned (Some sid'), w2) →
  (∃ session,
     load_session sid' w2 = Some session ∧ sid' = sid ∧
     l_session_id session = OStr sid ∧
     length (l_actions session) = length (captured cs) ∧
     Forall2 (λ a r,
                l_action_type a = OStr (req_type r) ∧
                l_tool_name a = OStr (req_tool r) ∧
                l_success a = OBool (req_success r) ∧
                l_error a = opt_obj OStr (req_error r) ∧
                reload float_repr (ODict (req_parameters r))
                = Some (l_parameters a) ∧
                (json_stable (ODict (req_parameters r)) = true →
                 l_parameters a = ODict (req_parameters r) ∧
                 obj_eq (l_parameters a) (ODict (req_parameters r)) = true))
             (l_actions session) (captured cs)) ∧
  (∀ l, reload float_repr (OTuple l) = reload float_repr (OList l)) ∧
  (∀ l back, reload float_repr (OList l) = Some back →
     ∃ items, back = OList items ∧
              Forall2 (λ x y, reload float_repr x = Some y) l items) ∧
  (∀ l m, obj_eq (OList l) (OTuple m) = false) ∧
  (∀ k v back, reload float_repr v = Some back →
     reload float_repr (ODict [(k, v)])
     = match k with
       | OStr s => Some (ODict [(OStr s, back)])
       | OInt n => Some (ODict [(OStr (pretty n), back)])
       | OBool b => Some (ODict [(OStr (if b then "true" else "false"), back)])
       | ONone => Some (ODict [(OStr "null", back)])
       | OFloat x => Some (ODict [(OStr (float_repr x), back)])
       | ONaN => Some (ODict [(OStr "NaN", back)])
       | OInf negative =>
           Some (ODict [(OStr (if negative then "-Infinity" else "Infinity"),
                         back)])
       | _ => None
       end) ∧
  reload float_repr ONaN = Some ONaN ∧ obj_eq ONaN ONaN = false.
Proof.
  intros Hstart Hstop. split_and!.
  - destruct (started_session_is_empty _ _ _ _ _ Hstart)
      as (Hrec & t & md' & Hcur).
    destruct (calls_append_actions cs w1 _ Hrec Hcur)
      as (new & Hcur' & Hrec' & _ & Hnew).
    cbn [session_id name started_at ended_at actions metadata app] in Hcur'.
    destruct (stop_recording_returned _ _ _ _ Hrec' Hcur' Hstop)
      as (-> & ds & text & Hds & Htext & Hst).
    cbn [session_id] in *.
    destruct (session_data_reloaded float_repr _ _ _ Hds Htext)
      as (las & lmd & Hload & _ & Hall).
    cbn [set_ended_at session_id name started_at ended_at actions] in Hload, Hall.
    eexists. split; [|split; [reflexivity|]].
    + unfold load_session. rewrite Hst, lookup_insert_eq. exact Hload.
    + cbn [l_session_id l_actions]. split; [done|].
      assert (Forall2 (λ la r,
                ∃ a, reloaded_as float_repr a la ∧ records_request a r)
              las (captured cs)) as Hboth.
      { clear -Hall Hnew. revert Hnew. generalize (captured cs).
        induction Hall as [|la a las new Hla _ IH]; intros rs Hrs;
          inversion Hrs; subst; constructor; eauto. }
      split; [by eapply Forall2_length|].
      eapply Forall2_impl; [exact Hboth|].
      intros la r (a & (params & res & Hp & _ & ->) & (Hty & Htool & Hpar & Hok & Herr)).
      cbn [loaded_action l_action_type l_tool_name l_success l_error
           l_parameters].
      rewrite Hty, Htool, Hok, Herr, <- Hpar. split_and!; try done.
      intros Hstable. rewrite (stable_reload float_repr _ Hstable) in Hp.
      injection Hp as <-. split; [done|].
      by apply stable_equals_itself.
  - intros l. reflexivity.
  - intros l back. unfold reload. rewrite dump_OList.
    destruct (dump_list float_repr l) as [js|] eqn:Ejs; [|done].
    cbn [fmap option_fmap option_map]. rewrite load_JArray. intros [= <-].
    exists (map load js). split; [done|].
    revert js Ejs. induction l as [|x l IH]; intros js.
    + intros [= <-]. constructor.
    + cbn [dump_list]. destruct (dump float_repr x) as [j|] eqn:Ej; [|done].
      destruct (dump_list float_repr l) as [js'|]; [|done].
      intros [= <-]. cbn [map]. constructor; [by rewrite Ej|by apply IH].
  - done.
  - intros k v back. unfold reload.
    destruct (dump float_repr v) as [j|] eqn:Ej; [|done].
    intros [= <-]. rewrite dump_ODict. cbn [dump_items].
    destruct k; cbn [key_text mbind option_bind]; rewrite ?Ej; try done.
  - done.
  - done.
Qed.

End Recording.

(** *** Concrete runs *)

(** [float.__repr__] on the floats with an integer value below [1e16]. *)
Definition integral_repr (x : Q) : string := pretty (Qfloor x) +:+ ".0".

Definition started : Exc string * WorkflowCapture :=
  start_recording Capture.demo_clock (λ _, true) integral_repr "my flow" None
                  (init "rec" true).

Definition stopped_after (cs : list RecorderCall)
    : Exc (option string) * WorkflowCapture :=
  stop_recording Capture.demo_clock (λ _, true) integral_repr
                 (run_calls Capture.demo_clock cs started.2).

(** [{'selector': '#a', 'options': {'retries': 2}}] and
    [{'text': 'hi', 'n': 2}]. *)
Definition plain_calls : list RecorderCall :=
  [ Mark "browser" "click";
    Capture (mkRequest "browser" "click"
                       [(OStr "selector", OStr "#a");
                        (OStr "options", ODict [(OStr "retries", OInt 2)])]
                       (Some [(OStr "success", OBool true)]) true None);
    Capture (mkRequest "hands" "type"
                       [(OStr "text", OStr "hi"); (OStr "n", OInt 2)]
                       None false (Some "boom")) ].

(** [{'position': (100, 200)}] *)
Definition tuple_call : list RecorderCall :=
  [ Capture (mkRequest "hands" "click"
                       [(OStr "position", OTuple [OInt 100; OInt 200])]
                       None true None) ].

(** [{1: 'a', None: nan}] *)
Definition keyed_call : list RecorderCall :=
  [ Capture (mkRequest "memory" "store"
                       [(OInt 1, OStr "a"); (ONone, ONaN)] None true None) ].

(** [{'tags': {'a', 'b'}}]: a set has no JSON encoding. *)
Definition set_call : list RecorderCall :=
  [ Capture (mkRequest "memory" "store"
                       [(OStr "tags", OOther "{'a', 'b'}" true)]
                       None true None) ].

Lemma recorded_parameters_read_back_witness :
  ∃ session,
    load_session "session_1700000000_my_flow" (stopped_after plain_calls).2
    = Some session ∧
    "session_1700000000_my_flow" = "session_1700000000_my_flow" ∧
    l_session_id session = OStr "session_1700000000_my_flow" ∧
    length (l_actions session) = length (captured plain_calls) ∧
    Forall2 (λ a r,
               l_action_type a = OStr (req_type r) ∧
               l_tool_name a = OStr (req_tool r) ∧
               l_success a = OBool (req_success r) ∧
               l_error a = opt_obj OStr (req_error r) ∧
               reload integral_repr (ODict (req_parameters r))
               = Some (l_parameters a) ∧
               (json_stable (ODict (req_parameters r)) = true →
                l_parameters a = ODict (req_parameters r) ∧
                obj_eq (l_parameters a) (ODict (req_parameters r)) = true))
            (l_actions session) (captured plain_calls).
Proof.
  refine (proj1 (recorded_parameters_read_back Capture.demo_clock (λ _, true)
                   integral_repr "my flow" None plain_calls (init "rec" true)
                   "session_1700000000_my_flow" started.2
                   "session_1700000000_my_flow" (stopped_after plain_calls).2
                   _ _));
    vm_compute; reflexivity.
Defined.

Example plain_parameters_read_back :
  map l_parameters
      <$> (l_actions
             <$> load_session "session_1700000000_my_flow"
                              (stopped_after plain_calls).2)
  = Some [ ODict [(OStr "selector", OStr "#a");
                  (OStr "options", ODict [(OStr "retries", OInt 2)])];
           ODict [(OStr "text", OStr "hi"); (OStr "n", OInt 2)] ].
Proof. vm_compute. reflexivity. Qed.

(** The tuple is read back as a list. *)
Example tuple_read_back_as_list :
  (stopped_after tuple_call).1 = Returned (Some "session_1700000000_my_flow") ∧
  map l_parameters
      <$> (l_actions
             <$> load_session "session_1700000000_my_flow"
                              (stopped_after tuple_call).2)
  = Some [ ODict [(OStr "position", OList [OInt 100; OInt 200])] ].
Proof. vm_compute. done. Qed.

(** The keys [1] and [None] are read back as the strings ['1'] and
    ['null']. *)
Example keys_read_back_as_strings :
  map l_parameters
      <$> (l_actions
             <$> load_session "session_1700000000_my_flow"
                              (stopped_after keyed_call).2)
  = Some [ ODict [(OStr "1", OStr "a"); (OStr "null", ONaN)] ].
Proof. vm_compute. reflexivity. Qed.

(** With a set among the parameters [stop_recording] raises, the session
    stays in the recorder, sealed, and the file holds the beginning of a
    text, which [load_session] cannot read. *)
Example set_parameter_truncates_the_file :
  (stopped_after set_call).1 = Raised "TypeError" ∧
  is_recording (stopped_after set_call).2 = false ∧
  (is_Some (current_session (stopped_after set_call).2)) ∧
  storage (stopped_after set_call).2 !! "session_1700000000_my_flow.json"
  = Some Truncated ∧
  load_session "session_1700000000_my_flow" (stopped_after set_call).2 = None.
Proof. vm_compute. split_and!; eauto. Qed.

(** C4 as stated fails on a tuple: recorded as [(100, 200)], the position
    is loaded as [[100, 200]], which does not equal it. *)
Lemma tuple_parameter_not_equal_after_reload :
  parameters_equal_those_passed Capture.demo_clock (λ _, true) integral_repr
                                "my flow" tuple_call (init "rec" true)
  = false.
Proof. vm_compute. reflexivity. Qed.

Example plain_parameters_equal_after_reload :
  parameters_equal_those_passed Capture.demo_clock (λ _, true) integral_repr
                                "my flow" plain_calls (init "rec" true)
  = true.
Proof. vm_compute. reflexivity. Qed.

End Recorder.

(** ** [recorder/workflow_generator.py]: from a session to a workflow *)
Module WorkflowGen.

(** A workflow step is a dict: an action step carries [step], [action],
    [parameters] and the optional [expected_result], [on_error] and
    [timeout]; a loop step carries [step], [action = 'loop'],
    [iterations] and [steps]. *)
Inductive Step : Type :=
| ActionStep (step : nat) (action : string) (parameters : dict)
             (expected_result : option dict) (on_error : option string)
             (timeout : option Z)
| LoopStep (step : nat) (iterations : nat) (steps : list Step).

(** [s['action']] *)
Definition step_action (s : Step) : string :=
  match s with
  | ActionStep _ a _ _ _ _ => a
  | LoopStep _ _ _ => "loop"
  end.

(** [s.get('parameters')] *)
Definition step_parameters (s : Step) : option dict :=
  match s with
  | ActionStep _ _ p _ _ _ => Some p
  | LoopStep _ _ _ => None
  end.

(** [s.get('on_error')] *)
Definition step_on_error (s : Step) : option string :=
  match s with
  | ActionStep _ _ _ _ e _ => e
  | LoopStep _ _ _ => None
  end.

(** [s['step']] *)
Definition step_number (s : Step) : nat :=
  match s with
  | ActionStep n _ _ _ _ _ => n
  | LoopStep n _ _ => n
  end.

(** An entry of [variables]. *)
Record VarDef : Type := mkVar {
  var_value : value;
  var_description : string;
  var_type : string
}.

Record Workflow : Type := mkWorkflow {
  wf_name : string;
  wf_description : string;
  wf_version : string;
  wf_metadata : dict;
  wf_variables : list (string * VarDef);
  wf_steps : list Step
}.

(** The settings read from [config] by [__init__]. *)
Record Config : Type := mkConfig {
  optimize : bool;
  extract_variables : bool;
  detect_loops : bool
}.

Definition default_config : Config := mkConfig true true true.

(** [isinstance(v, (str, int, float))]; a [bool] is an [int]. *)
Definition is_str_or_number (v : value) : bool :=
  match v with
  | VStr _ | VInt _ | VFloat _ | VBool _ => true
  | _ => false
  end.

Definition group_key (a : Capture.CapturedAction) (param_name : string) : string :=
  Capture.action_type a +:+ "_" +:+ Capture.tool_name a +:+ "_" +:+ param_name.

(** [value_counts[key].append(v)], the key created on first use. *)
Fixpoint vc_append (key : string) (v : value) (vc : list (string * list value))
    : list (string * list value) :=
  match vc with
  | [] => [(key, [v])]
  | (k, vs) :: vc' =>
      if String.eqb key k then (k, (vs ++ [v])%list) :: vc'
      else (k, vs) :: vc_append key v vc'
  end.

Definition count_params (a : Capture.CapturedAction)
    (vc : list (string * list value)) : list (string * list value) :=
  fold_left (λ vc kv,
               if is_str_or_number kv.2
               then vc_append (group_key a kv.1) kv.2 vc else vc)
            (Capture.parameters a) vc.

(** The first loop of [_extract_variables]. *)
Definition value_counts (actions : list Capture.CapturedAction)
    : list (string * list value) :=
  fold_left (λ vc a, count_params a vc) actions [].

(** [values.count(x)] *)
Fixpoint count (x : value) (values : list value) : nat :=
  match values with
  | [] => 0
  | y :: rest => (if py_eq y x then 1 else 0) + count x rest
  end.

(** [max(it, key=key)] keeps the first item whose key is maximal. *)
Fixpoint max_by (key : value → nat) (best : value) (l : list value) : value :=
  match l with
  | [] => best
  | x :: l' => max_by key (if (key best <? key x)%nat then x else best) l'
  end.

Section Generator.

(** [set_order values] is the order in which Python iterates over
    [set(values)]: it depends on the hashes, not on the order of insertion. *)
Variable set_order : list value → list value.

(** [max(set(values), key=values.count)]; the set of a non-empty list is
    not empty. *)
Definition most_common (values : list value) : value :=
  match set_order values with
  | [] => VNone
  | x :: l => max_by (λ v, count v values) x l
  end.

(** The second loop of [_extract_variables]. *)
Fixpoint build_variables (vc : list (string * list value)) (var_counter : nat)
    : list (string * VarDef) :=
  match vc with
  | [] => []
  | (key, values) :: vc' =>
      if (1 <? length values)%nat then
        let mc := most_common values in
        ("var_" +:+ pretty var_counter,
         mkVar mc ("Extracted from " +:+ key) (type_name mc))
          :: build_variables vc' (S var_counter)
      else build_variables vc' var_counter
  end.

Definition _extract_variables (actions : list Capture.CapturedAction)
    : list (string * VarDef) :=
  build_variables (value_counts actions) 1.

(** The inner loop of [_substitute_variables]: the first variable whose
    value equals the parameter. *)
Fixpoint find_variable (v : value) (variables : list (string * VarDef))
    : option string :=
  match variables with
  | [] => None
  | (var_name, var_def) :: rest =>
      if py_eq v (var_value var_def) then Some var_name
      else find_variable v rest
  end.

Definition var_ref (var_name : string) : value :=
  VStr ("${" +:+ var_name +:+ "}").

Definition _substitute_variables (parameters : dict)
    (variables : list (string * VarDef)) : dict :=
  fold_left (λ substituted kv,
               match find_variable kv.2 variables with
               | Some var_name => dict_set kv.1 (var_ref var_name) substituted
               | None => substituted
               end)
            parameters parameters.

Definition essential_fields : list string :=
  ["status"; "success"; "element_count"; "found"; "visible"].

Definition _simplify_result (result : dict) : dict :=
  flat_map (λ field,
              match dict_get field result with
              | Some v => [(field, v)]
              | None => []
              end)
           essential_fields.

(** The body of the loop of [_convert_actions_to_steps]. *)
Definition convert_action (variables : list (string * VarDef)) (idx : nat)
    (a : Capture.CapturedAction) : Step :=
  ActionStep idx
    (Capture.action_type a +:+ "." +:+ Capture.tool_name a)
    (_substitute_variables (Capture.parameters a) variables)
    (match Capture.result a with
     | Some ((_ :: _) as r) => Some (_simplify_result r)
     | _ => None
     end)
    (if Capture.success a then None else Some "continue")
    (match Capture.duration_ms a with
     | Some d =>
         if negb (Qeq_bool d 0) && negb (Qle_bool d 1000)
         then Some (py_int (float_mul d (3 # 2)))
         else None
     | None => None
     end).

Definition _convert_actions_to_steps (actions : list Capture.CapturedAction)
    (variables : list (string * VarDef)) : list Step :=
  imap (λ i a, convert_action variables (S i) a) actions.

(** [steps[a:a + n]] *)
Definition slice (steps : list Step) (a n : nat) : list Step :=
  take n (drop a steps).

Definition _is_pattern_repeating (steps : list Step)
    (start_idx pattern_length : nat) : bool :=
  if (length steps <? start_idx + pattern_length * 2)%nat then false
  else
    let pattern := slice steps start_idx pattern_length in
    let next_sequence := slice steps (start_idx + pattern_length) pattern_length in
    forallb (λ pn, String.eqb (step_action pn.1) (step_action pn.2))
            (zip pattern next_sequence).

Definition _find_pattern_length (steps : list Step) (start_idx : nat) : nat :=
  let max_pattern_length := Nat.min 10 ((length steps - start_idx) / 2) in
  match find (λ pattern_length,
                _is_pattern_repeating steps start_idx pattern_length)
             (seq 1 max_pattern_length) with
  | Some pattern_length => pattern_length
  | None => 1
  end.

(** The [while] loop of [_count_pattern_repeats]; [idx] grows at every
    turn, so [fuel] bounds the number of turns. *)
Fixpoint count_repeats_from (fuel : nat) (steps : list Step)
    (pattern_length count idx : nat) : nat :=
  match fuel with
  | O => count
  | S fuel' =>
      if (idx + pattern_length <=? length steps)%nat then
        if _is_pattern_repeating steps idx pattern_length
        then count_repeats_from fuel' steps pattern_length
                                (S count) (idx + pattern_length)
        else count
      else count
  end.

Definition _count_pattern_repeats (steps : list Step)
    (start_idx pattern_length : nat) : nat :=
  Nat.max (count_repeats_from (S (length steps)) steps pattern_length 0 start_idx) 1.

(** The [while] loop of [_detect_and_optimize_loops]; [i] grows at every
    turn. *)
Fixpoint detect_from (fuel : nat) (steps : list Step) (i : nat)
    (optimized : list Step) : list Step :=
  match fuel with
  | O => optimized
  | S fuel' =>
      match steps !! i with
      | None => optimized
      | Some s =>
          let pattern_length := _find_pattern_length steps i in
          if (1 <? pattern_length)%nat then
            let pattern_steps := slice steps i pattern_length in
            let repeat_count := _count_pattern_repeats steps i pattern_length in
            let loop_step :=
              LoopStep (length optimized + 1) repeat_count pattern_steps in
            detect_from fuel' steps (i + pattern_length * repeat_count)
                        (optimized ++ [loop_step])
          else detect_from fuel' steps (i + 1) (optimized ++ [s])
      end
  end.

Definition _detect_and_optimize_loops (steps : list Step) : list Step :=
  detect_from (length steps) steps 0 [].

Definition _is_redundant (step1 step2 : Step) : bool :=
  String.eqb (step_action step1) (step_action step2)
  && py_eq (opt_value VDict (step_parameters step1))
           (opt_value VDict (step_parameters step2)).

Definition _can_merge (step1 step2 : Step) : bool := false.

Definition _merge_steps (step1 step2 : Step) : Step := step1.

(** The loop of [_optimize_steps]. *)
Fixpoint optimize_from (prev_step : option Step) (optimized : list Step)
    (steps : list Step) : list Step :=
  match steps with
  | [] => optimized
  | s :: rest =>
      match prev_step with
      | Some p =>
          if _is_redundant p s then optimize_from prev_step optimized rest
          else if _can_merge p s then
            let merged := _merge_steps p s in
            optimize_from (Some merged) (removelast optimized ++ [merged]) rest
          else optimize_from (Some s) (optimized ++ [s]) rest
      | None => optimize_from (Some s) (optimized ++ [s]) rest
      end
  end.

Definition _optimize_steps (steps : list Step) : list Step :=
  optimize_from None [] steps.

Definition generate_workflow (cfg : Config) (session : Capture.RecordingSession)
    (workflow_name : option string) : Workflow :=
  let name :=
    match workflow_name with
    | Some n => if String.eqb n "" then Capture.name session else n
    | None => Capture.name session
    end in
  let metadata :=
    fold_left (λ d kv, dict_set kv.1 kv.2 d) (Capture.metadata session)
      [ ("generated_from", VStr (Capture.session_id session));
        ("generated_at", opt_value VFloat (Capture.ended_at session));
        ("action_count", VInt (Z.of_nat (length (Capture.actions session)))) ] in
  let variables :=
    if extract_variables cfg then _extract_variables (Capture.actions session)
    else [] in
  let steps := _convert_actions_to_steps (Capture.actions session) variables in
  let steps := if detect_loops cfg then _detect_and_optimize_loops steps else steps in
  let steps := if optimize cfg then _optimize_steps steps else steps in
  mkWorkflow name
    ("Generated from recording session: " +:+ Capture.session_id session)
    "1.0" metadata variables steps.

End Generator.

(** The groups for which [_extract_variables] makes a variable. *)
Definition multi_groups (vc : list (string * list value))
    : list (string * list value) :=
  List.filter (λ g, (1 <? length g.2)%nat) vc.

(** Set iteration in first-seen order, one representative per class of
    equal values: the order the tie-break among equally frequent values
    would need. *)
Definition first_seen_order (values : list value) : list value :=
  fold_left (λ acc x, if existsb (λ y, py_eq y x) acc then acc
                      else (acc ++ [x])%list)
            values [].

(** The action with identifier [ty.tool], as [capture_action] stores it
    when no timing and no screenshot were taken. *)
Definition recorded (ty tool : string) (params : dict) (ok : bool)
    : Capture.CapturedAction :=
  Capture.mkAction 0 ty tool params None None None ok
                   (if ok then None else Some "failed").

Definition session_of (acts : list Capture.CapturedAction)
    : Capture.RecordingSession :=
  Capture.mkSession "session_1_demo" "demo" 0 (Some 1%Q) acts [].

(** [click, type] three times, with the parameters of each turn. *)
Definition click_type_3 : list Capture.CapturedAction :=
  [ recorded "browser" "click" [("selector", VStr "#item0")] true;
    recorded "browser" "type" [("text", VStr "text0")] true;
    recorded "browser" "click" [("selector", VStr "#item1")] true;
    recorded "browser" "type" [("text", VStr "text1")] true;
    recorded "browser" "click" [("selector", VStr "#item2")] true;
    recorded "browser" "type" [("text", VStr "text2")] true ].

(** The same click twice, the second one failing. *)
Definition click_then_failed_click : list Capture.CapturedAction :=
  [ recorded "browser" "click" [("selector", VStr "#a")] true;
    recorded "browser" "click" [("selector", VStr "#a")] false ].

(** [click, type] three times, the second click failing. *)
Definition click_type_3_failed_middle : list Capture.CapturedAction :=
  [ recorded "browser" "click" [("selector", VStr "#item0")] true;
    recorded "browser" "type" [("text", VStr "text0")] true;
    recorded "browser" "click" [("selector", VStr "#item1")] false;
    recorded "browser" "type" [("text", VStr "text1")] true;
    recorded "browser" "click" [("selector", VStr "#item2")] true;
    recorded "browser" "type" [("text", VStr "text2")] true ].

(** Every step of a workflow, those inside loops included. *)
Fixpoint flatten (steps : list Step) : list Step :=
  match steps with
  | [] => []
  | ActionStep n a p r e t :: rest => ActionStep n a p r e t :: flatten rest
  | LoopStep n k body :: rest => LoopStep n k body :: body ++ flatten rest
  end.

(** What [_substitute_variables] makes of one parameter value. *)
Definition substitute_value (variables : list (string * VarDef)) (v : value)
    : value :=
  match find_variable v variables with
  | Some var_name => var_ref var_name
  | None => v
  end.

(** Every observed value of a group is a string or a number. *)
Definition scalar_groups (vc : list (string * list value)) : Prop :=
  Forall (λ g, Forall (λ v, is_str_or_number v = true) g.2) vc.

(** Three actions sharing the same type, tool and parameter value. *)
Definition three_foo : list Capture.CapturedAction :=
  [ recorded "browser" "type" [("text", VStr "foo")] true;
    recorded "browser" "type" [("text", VStr "foo")] true;
    recorded "browser" "type" [("text", VStr "foo")] true ].

Fixpoint insert_int (x : value) (l : list value) : list value :=
  match l with
  | [] => [x]
  | y :: l' =>
      match x, y with
      | VInt a, VInt b =>
          if (a <=? b)%Z then x :: y :: l' else y :: insert_int x l'
      | _, _ => x :: y :: l'
      end
  end.

(** The iteration order of CPython over the set of a few small
    non-negative ints: [hash(n) = n], the table of a small set has 8
    slots and is walked slot by slot, so the ints come out in increasing
    order, whatever the order of insertion ([list(set([2, 1]))] is
    [[1, 2]]). *)
Definition small_int_set_order (values : list value) : list value :=
  fold_right insert_int [] (first_seen_order values).

(** Two scrolls, by 2 and then by 1. *)
Definition scroll_2_then_1 : list Capture.CapturedAction :=
  [ recorded "hands" "scroll" [("amount", VInt 2)] true;
    recorded "hands" "scroll" [("amount", VInt 1)] true ].

(** The tie-break as the specification words it: of the most frequent
    values of a group, the one seen first. *)
Definition spec_most_common (values : list value) : value :=
  most_common first_seen_order values.

Definition ties_broken_by_first_seen (set_order : list value → list value)
    (actions : list Capture.CapturedAction) : Prop :=
  map (λ kv, var_value kv.2) (_extract_variables set_order actions)
  = map (λ g, spec_most_common g.2) (multi_groups (value_counts actions)).

(** The property the specification asks of the generated steps: every
    failed action is there, as a step of its own with the [continue]
    policy. *)
Definition failed_actions_kept (actions : list Capture.CapturedAction)
    (steps : list Step) : Prop :=
  ∀ (i : nat) (a : Capture.CapturedAction),
    actions !! i = Some a → Capture.success a = false →
    ∃ s : Step, s ∈ flatten steps ∧ step_number s = S i ∧
         step_on_error s = Some "continue".

(** *** Loop detection *)

Example six_steps_of_click_type :
  map step_action (_convert_actions_to_steps click_type_3 [])
  = ["browser.click"; "browser.type"; "browser.click"; "browser.type";
     "browser.click"; "browser.type"].
Proof. reflexivity. Qed.

(** C6 on the code: for the six identifiers [A,B,A,B,A,B] the loop step
    records [iterations = 2], not 3, and the third [A,B] follows it as two
    plain steps: [_count_pattern_repeats] counts the pairs of adjacent
    equal blocks, one less than the number of blocks. *)
Theorem loop_detection_on_ABABAB :
  _detect_and_optimize_loops (_convert_actions_to_steps click_type_3 [])
  = [ LoopStep 1 2
        [ ActionStep 1 "browser.click" [("selector", VStr "#item0")] None None None;
          ActionStep 2 "browser.type" [("text", VStr "text0")] None None None ];
      ActionStep 5 "browser.click" [("selector", VStr "#item2")] None None None;
      ActionStep 6 "browser.type" [("text", VStr "text2")] None None None ].
Proof. vm_compute. reflexivity. Qed.

Lemma detect_from_step fuel steps i optimized :
  detect_from (S fuel) steps i optimized
  = match steps !! i with
    | None => optimized
    | Some s =>
        let pattern_length := _find_pattern_length steps i in
        if (1 <? pattern_length)%nat then
          detect_from fuel steps
            (i + pattern_length * _count_pattern_repeats steps i pattern_length)
            (optimized ++ [LoopStep (length optimized + 1)
                             (_count_pattern_repeats steps i pattern_length)
                             (slice steps i pattern_length)])
        else detect_from fuel steps (i + 1) (optimized ++ [s])
    end.
Proof. reflexivity. Qed.

(** *** The loops terminate within their fuel *)

Lemma count_pattern_repeats_positive steps i n :
  (1 ≤ _count_pattern_repeats steps i n)%nat.
Proof. unfold _count_pattern_repeats. lia. Qed.

(** More fuel than steps left changes nothing: [detect_from] has reached
    the end of [steps] before the fuel runs out. *)
Lemma detect_from_enough_fuel steps : ∀ fuel fuel' i optimized,
  (length steps - i ≤ fuel)%nat → (length steps - i ≤ fuel')%nat →
  detect_from fuel steps i optimized = detect_from fuel' steps i optimized.
Proof.
  induction fuel as [|fuel IH]; intros fuel' i optimized Hf Hf'.
  - destruct fuel' as [|fuel']; [done|]. rewrite detect_from_step.
    rewrite (lookup_ge_None_2 steps i) by lia. done.
  - rewrite detect_from_step. destruct fuel' as [|fuel'].
    + rewrite (lookup_ge_None_2 steps i) by lia. done.
    + rewrite detect_from_step.
      destruct (steps !! i) as [s|] eqn:Hi; [|done].
      apply lookup_lt_Some in Hi. cbv zeta.
      destruct (1 <? _find_pattern_length steps i)%nat eqn:Hp.
      * apply Nat.ltb_lt in Hp.
        pose proof (count_pattern_repeats_positive steps i
                      (_find_pattern_length steps i)).
        apply IH; nia.
      * apply IH; lia.
Qed.

Lemma count_repeats_enough_fuel steps n : ∀ fuel fuel' count idx,
  (1 ≤ n)%nat →
  (S (length steps) - idx ≤ fuel)%nat → (S (length steps) - idx ≤ fuel')%nat →
  count_repeats_from fuel steps n count idx
  = count_repeats_from fuel' steps n count idx.
Proof.
  induction fuel as [|fuel IH]; intros fuel' count idx Hn Hf Hf'.
  - destruct fuel' as [|fuel']; [done|]. cbn [count_repeats_from].
    destruct (idx + n <=? length steps)%nat eqn:E; [|done].
    apply Nat.leb_le in E. lia.
  - destruct fuel' as [|fuel']; cbn [count_repeats_from].
    + destruct (idx + n <=? length steps)%nat eqn:E; [|done].
      apply Nat.leb_le in E. lia.
    + destruct (idx + n <=? length steps)%nat eqn:E; [|done].
      destruct (_is_pattern_repeating steps idx n); [|done].
      apply IH; lia.
Qed.

(** The same for any six action steps whose identifiers alternate. *)
Section Alternating.

Variables (a b : string) (s1 s2 s3 s4 s5 s6 : Step).
Hypothesis Hab : a ≠ b.
Hypothesis Hids :
  map step_action [s1; s2; s3; s4; s5; s6] = [a; b; a; b; a; b].

Let steps6 : list Step := [s1; s2; s3; s4; s5; s6].

Lemma repeating_at_6 :
  _is_pattern_repeating steps6 0 1 = false ∧
  _is_pattern_repeating steps6 0 2 = true ∧
  _is_pattern_repeating steps6 2 2 = true ∧
  _is_pattern_repeating steps6 4 2 = false ∧
  _is_pattern_repeating steps6 4 1 = false.
Proof.
  injection Hids as H1 H2 H3 H4 H5 H6.
  assert (Hba : String.eqb b a = false) by (apply String.eqb_neq; congruence).
  assert (Hab' : String.eqb a b = false) by (by apply String.eqb_neq).
  unfold _is_pattern_repeating, slice, steps6; cbn.
  rewrite ?H1, ?H2, ?H3, ?H4, ?H5, ?H6, ?String.eqb_refl, ?Hab', ?Hba.
  done.
Qed.

Lemma find_pattern_length_at_6 :
  _find_pattern_length steps6 0 = 2 ∧ _find_pattern_length steps6 4 = 1 ∧
  _find_pattern_length steps6 5 = 1.
Proof.
  destruct repeating_at_6 as (R01 & R02 & R22 & R42 & R41).
  unfold _find_pattern_length. cbn -[_is_pattern_repeating].
  rewrite R01, R02, R41. done.
Qed.

Lemma count_pattern_repeats_at_6 : _count_pattern_repeats steps6 0 2 = 2.
Proof.
  destruct repeating_at_6 as (R01 & R02 & R22 & R42 & R41).
  unfold _count_pattern_repeats. cbn -[_is_pattern_repeating].
  rewrite R02. cbn -[_is_pattern_repeating].
  rewrite R22. cbn -[_is_pattern_repeating].
  rewrite R42. reflexivity.
Qed.

Lemma loop_detection_alternating :
  _detect_and_optimize_loops steps6 = [LoopStep 1 2 [s1; s2]; s5; s6].
Proof.
  destruct find_pattern_length_at_6 as (F0 & F4 & F5).
  unfold _detect_and_optimize_loops.
  change (length steps6) with 6.
  rewrite (detect_from_step 5 steps6 0).
  change (steps6 !! 0) with (Some s1). cbv zeta.
  rewrite F0, count_pattern_repeats_at_6. cbn [Nat.ltb Nat.leb].
  change (0 + 2 * 2) with 4.
  rewrite (detect_from_step 4 steps6 4).
  change (steps6 !! 4) with (Some s5). cbv zeta.
  rewrite F4. cbn [Nat.ltb Nat.leb]. change (4 + 1) with 5.
  rewrite (detect_from_step 3 steps6 5).
  change (steps6 !! 5) with (Some s6). cbv zeta.
  rewrite F5. cbn [Nat.ltb Nat.leb]. change (5 + 1) with 6.
  rewrite (detect_from_step 2 steps6 6). reflexivity.
Qed.

End Alternating.

(** *** Failed actions *)

Lemma convert_lookup variables actions (i : nat) a :
  actions !! i = Some a →
  _convert_actions_to_steps actions variables !! i
  = Some (convert_action variables (S i) a).
Proof.
  intros H. unfold _convert_actions_to_steps.
  rewrite list_lookup_imap, H. reflexivity.
Qed.

Lemma elem_of_flatten s steps : s ∈ steps → s ∈ flatten steps.
Proof.
  induction steps as [|x steps IH]; [done|].
  rewrite elem_of_cons. intros [->|H].
  - destruct x; cbn; left.
  - destruct x; cbn; rewrite ?elem_of_cons, ?elem_of_app; auto.
Qed.

(** C8, as the code has it: step conversion turns every failed action
    into a step of its own, at the position and with the number of the
    action, carrying [on_error = 'continue']; with loop detection and
    optimisation switched off these steps are the generated workflow, so
    every failed action is kept there. *)
Theorem failed_actions_become_continue_steps :
  ∀ set_order variables actions (i : nat) a,
    actions !! i = Some a → Capture.success a = false →
    (∃ params expected timeout,
       _convert_actions_to_steps actions variables !! i
       = Some (ActionStep (S i)
                 (Capture.action_type a +:+ "." +:+ Capture.tool_name a)
                 params expected (Some "continue") timeout)) ∧
    ∀ extract session name,
      Capture.actions session = actions →
      failed_actions_kept actions
        (wf_steps (generate_workflow set_order (mkConfig false extract false)
                                     session name)).
Proof.
  intros set_order variables actions i a Hi Hfail. split.
  - rewrite (convert_lookup _ _ _ _ Hi). unfold convert_action.
    rewrite Hfail. eauto.
  - intros extract session name <- j b Hj Hb.
    unfold generate_workflow.
    cbn [optimize detect_loops extract_variables wf_steps].
    eexists. split; [|split].
    + apply elem_of_flatten. eapply list_elem_of_lookup_2.
      by apply convert_lookup.
    + reflexivity.
    + cbn. by rewrite Hb.
Qed.

Lemma failed_actions_become_continue_steps_witness :
  (∃ params expected timeout,
     _convert_actions_to_steps click_then_failed_click [] !! 1
     = Some (ActionStep 2 "browser.click" params expected
                        (Some "continue") timeout)) ∧
  ∀ extract session name,
    Capture.actions session = click_then_failed_click →
    failed_actions_kept click_then_failed_click
      (wf_steps (generate_workflow first_seen_order
                   (mkConfig false extract false) session name)).
Proof.
  apply (failed_actions_become_continue_steps first_seen_order []
           click_then_failed_click 1
           (recorded "browser" "click" [("selector", VStr "#a")] false));
    reflexivity.
Defined.

(** C8 as stated fails: with the default settings the step of the failed
    second click is removed as a duplicate of the first ([_is_redundant]
    compares the identifier and the parameters only), and the one step
    left has no [on_error]. *)
Lemma failed_step_removed_as_duplicate :
  ¬ failed_actions_kept click_then_failed_click
      (wf_steps (generate_workflow first_seen_order default_config
                   (session_of click_then_failed_click) None)).
Proof.
  intros H.
  destruct (H 1 (recorded "browser" "click" [("selector", VStr "#a")] false))
    as (s & Hs & _ & He); [reflexivity..|].
  vm_compute in Hs. apply list_elem_of_singleton in Hs. subst s. discriminate.
Qed.

(** Two identical adjacent successful clicks collapse into one step. *)
Theorem adjacent_duplicate_is_removed :
  wf_steps (generate_workflow first_seen_order default_config
              (session_of [ recorded "browser" "click" [("selector", VStr "#a")] true;
                            recorded "browser" "click" [("selector", VStr "#a")] true ])
              None)
  = [ActionStep 1 "browser.click" [("selector", var_ref "var_1")] None None None].
Proof. vm_compute. reflexivity. Qed.

(** Loop folding drops failed steps too: only the first block of a
    folded region is kept. *)
Example failed_step_removed_by_loop_folding :
  ¬ failed_actions_kept click_type_3_failed_middle
      (_detect_and_optimize_loops
         (_convert_actions_to_steps click_type_3_failed_middle [])).
Proof.
  intros H.
  destruct (H 2 (recorded "browser" "click" [("selector", VStr "#item1")] false))
    as (s & Hs & Hn & He); [reflexivity..|].
  vm_compute in Hs.
  repeat (apply elem_of_cons in Hs as [->|Hs]; [discriminate|]).
  by apply elem_of_nil in Hs.
Qed.


(** *** Variable extraction *)

Lemma Qeq_bool_trans_r p q r :
  Qeq_bool q r = true → Qeq_bool p q = Qeq_bool p r.
Proof.
  intros H. apply Qeq_bool_iff in H.
  destruct (Qeq_bool p q) eqn:E1, (Qeq_bool p r) eqn:E2; try reflexivity.
  - apply Qeq_bool_iff in E1. apply Qeq_bool_neq in E2.
    exfalso. apply E2. by rewrite E1.
  - apply Qeq_bool_iff in E2. apply Qeq_bool_neq in E1.
    exfalso. apply E1. by rewrite E2, H.
Qed.

Lemma py_eq_scalar_refl x : is_str_or_number x = true → py_eq x x = true.
Proof.
  destruct x; try discriminate; intros _; cbn.
  - destruct b; reflexivity.
  - apply Qeq_bool_refl.
  - apply Qeq_bool_refl.
  - apply String.eqb_refl.
Qed.

Lemma py_eq_num x y p q :
  num_of x = Some p → num_of y = Some q → py_eq x y = Qeq_bool p q.
Proof.
  destruct x; try discriminate; intros [= <-] Hy; cbn; rewrite Hy; reflexivity.
Qed.

Lemma py_eq_scalar_num x y q :
  is_str_or_number x = true → num_of y = Some q →
  py_eq x y = match num_of x with Some p => Qeq_bool p q | None => false end.
Proof.
  intros Hx Hy. destruct (num_of x) as [p|] eqn:Hp.
  - by apply py_eq_num.
  - destruct x; try discriminate. by destruct y.
Qed.

(** On strings and numbers [==] does not tell equal values apart. *)
Lemma py_eq_scalar_congr x y z :
  is_str_or_number x = true → is_str_or_number y = true →
  py_eq x y = true → py_eq z x = py_eq z y.
Proof.
  intros Hx Hy Hxy.
  destruct (num_of x) as [p|] eqn:Hp, (num_of y) as [q|] eqn:Hq.
  - rewrite (py_eq_num _ _ _ _ Hp Hq) in Hxy.
    destruct (num_of z) as [r|] eqn:Hr.
    + rewrite (py_eq_num _ _ _ _ Hr Hp), (py_eq_num _ _ _ _ Hr Hq).
      by apply Qeq_bool_trans_r.
    + destruct z; try discriminate; destruct x; try discriminate;
        destruct y; try discriminate; reflexivity.
  - destruct x; try discriminate; destruct y; discriminate.
  - destruct x; try discriminate; destruct y; discriminate.
  - destruct x; try discriminate; destruct y; try discriminate.
    cbn in Hxy. apply String.eqb_eq in Hxy. by subst.
Qed.

Lemma py_eq_scalar_sym x y :
  is_str_or_number x = true → py_eq y x = true → py_eq x y = true.
Proof.
  intros Hx Hyx.
  destruct (num_of x) as [p|] eqn:Hp.
  - destruct (num_of y) as [q|] eqn:Hq.
    + rewrite (py_eq_num _ _ _ _ Hq Hp) in Hyx.
      rewrite (py_eq_num _ _ _ _ Hp Hq).
      apply Qeq_bool_iff. apply Qeq_bool_iff in Hyx. by symmetry.
    + destruct y; try discriminate; destruct x; discriminate.
  - destruct x; try discriminate. destruct y; try discriminate.
    cbn in *. by rewrite String.eqb_sym.
Qed.

Lemma count_congr x y l :
  is_str_or_number x = true → is_str_or_number y = true →
  py_eq x y = true → count x l = count y l.
Proof.
  intros Hx Hy Hxy. induction l as [|z l IH]; [done|].
  cbn. by rewrite IH, (py_eq_scalar_congr x y z).
Qed.

Lemma max_by_in key best l : max_by key best l ∈ best :: l.
Proof.
  revert best. induction l as [|x l IH]; intros best; cbn [max_by]; [left|].
  destruct (key best <? key x)%nat.
  - right. apply IH.
  - pose proof (IH best) as H.
    apply elem_of_cons in H as [H|H]; [rewrite H; left|right; by right].
Qed.

Lemma max_by_ge (key : value → nat) best l y :
  y ∈ best :: l → (key y ≤ key (max_by key best l))%nat.
Proof.
  revert best y. induction l as [|x l IH]; intros best y; cbn [max_by].
  - intros ->%list_elem_of_singleton. done.
  - intros Hy. destruct (key best <? key x)%nat eqn:E.
    + apply Nat.ltb_lt in E. apply elem_of_cons in Hy as [->|Hy].
      * transitivity (key x); [lia|apply IH; left].
      * by apply IH.
    + apply Nat.ltb_ge in E. apply elem_of_cons in Hy as [->|Hy].
      * apply IH; left.
      * apply elem_of_cons in Hy as [->|Hy].
        -- transitivity (key best); [lia|apply IH; left].
        -- apply IH. by right.
Qed.


(** [max] keeps the first of the items whose key is maximal. *)
Lemma max_by_first (key : value → nat) l : ∀ best,
  ∃ pre post,
    best :: l = pre ++ max_by key best l :: post ∧
    Forall (λ y, (key y < key (max_by key best l))%nat) pre ∧
    Forall (λ y, (key y ≤ key (max_by key best l))%nat) post.
Proof.
  induction l as [|x l IH]; intros best.
  - exists [], []. cbn. split; [done|]. split; constructor.
  - cbn [max_by]. destruct (key best <? key x)%nat eqn:E.
    + apply Nat.ltb_lt in E.
      destruct (IH x) as (pre & post & Heq & Hpre & Hpost).
      exists (best :: pre), post. split; [|split].
      * cbn. by rewrite <- Heq.
      * constructor; [|exact Hpre].
        pose proof (max_by_ge key x l x) as Hge.
        specialize (Hge ltac:(left)). lia.
      * exact Hpost.
    + apply Nat.ltb_ge in E.
      destruct (IH best) as (pre & post & Heq & Hpre & Hpost).
      destruct pre as [|b pre].
      * cbn in Heq. injection Heq as Hbest Hl.
        exists [], (x :: post). split; [|split].
        -- cbn. f_equal; [exact Hbest|f_equal; exact Hl].
        -- constructor.
        -- constructor; [|exact Hpost]. rewrite <- Hbest. lia.
      * cbn in Heq. injection Heq as Hb Hl. subst b.
        exists (best :: x :: pre), post. split; [|split].
        -- cbn. do 2 f_equal. exact Hl.
        -- apply Forall_cons in Hpre as [Hb Hpre].
           constructor; [exact Hb|]. constructor; [lia|exact Hpre].
        -- exact Hpost.
Qed.

Lemma vc_append_scalar key v vc :
  is_str_or_number v = true → scalar_groups vc →
  scalar_groups (vc_append key v vc).
Proof.
  intros Hv. induction 1 as [|[k vs] vc Hg Hvc IH]; cbn.
  - repeat constructor. done.
  - destruct (String.eqb key k); constructor; try done.
    cbn in *. apply Forall_app. split; [done|by constructor].
Qed.

Lemma count_params_scalar a vc :
  scalar_groups vc → scalar_groups (count_params a vc).
Proof.
  unfold count_params. generalize (Capture.parameters a) as ps.
  intros ps. revert vc. induction ps as [|[k v] ps IH]; intros vc Hvc; [done|].
  cbn. apply IH. destruct (is_str_or_number v) eqn:E; [|done].
  by apply vc_append_scalar.
Qed.

Lemma value_counts_scalar actions : scalar_groups (value_counts actions).
Proof.
  unfold value_counts.
  assert (∀ vc, scalar_groups vc → scalar_groups
            (fold_left (λ vc a, count_params a vc) actions vc)) as H.
  { induction actions as [|a actions IH]; intros vc Hvc; [done|].
    cbn. apply IH. by apply count_params_scalar. }
  apply H. constructor.
Qed.

Lemma multi_groups_scalar vc g :
  scalar_groups vc → g ∈ multi_groups vc →
  Forall (λ v, is_str_or_number v = true) g.2 ∧ (1 < length g.2)%nat.
Proof.
  unfold scalar_groups, multi_groups. rewrite Forall_forall.
  intros Hvc Hg. apply list_elem_of_In, filter_In in Hg as [Hg Hlen].
  split; [apply Hvc; by apply list_elem_of_In|by apply Nat.ltb_lt].
Qed.

Section VariableExtraction.

(** What is assumed of the iteration over [set(values)], for a list of
    strings and numbers: it yields values of the list, and every value of
    the list is equal to one of them. *)
Variable set_order : list value → list value.
Hypothesis set_order_sound : ∀ l x, x ∈ set_order l → x ∈ l.
Hypothesis set_order_complete : ∀ l x,
  Forall (λ v, is_str_or_number v = true) l → x ∈ l →
  ∃ y, y ∈ set_order l ∧ py_eq x y = true.

Lemma build_variables_imap vc n :
  build_variables set_order vc n
  = imap (λ i g,
            ("var_" +:+ pretty (n + i),
             mkVar (most_common set_order g.2) ("Extracted from " +:+ g.1)
                   (type_name (most_common set_order g.2))))
         (multi_groups vc).
Proof.
  revert n. induction vc as [|[key values] vc IH]; intros n; [done|].
  cbn [build_variables multi_groups List.filter snd fst].
  destruct (1 <? length values)%nat.
  - cbn [imap]. rewrite Nat.add_0_r. f_equal. rewrite IH.
    apply imap_ext. intros i g _. cbn. by rewrite Nat.add_succ_r.
  - apply IH.
Qed.

Lemma most_common_in values :
  Forall (λ v, is_str_or_number v = true) values → values ≠ [] →
  most_common set_order values ∈ set_order values.
Proof.
  intros Hs Hne. unfold most_common.
  destruct (set_order values) as [|x l] eqn:E.
  - destruct values as [|v values]; [done|].
    destruct (set_order_complete (v :: values) v Hs) as (y & Hy & _); [left|].
    rewrite E in Hy. by apply elem_of_nil in Hy.
  - apply max_by_in.
Qed.

Lemma most_common_max values w :
  Forall (λ v, is_str_or_number v = true) values → w ∈ values →
  (count w values ≤ count (most_common set_order values) values)%nat.
Proof.
  intros Hs Hw.
  destruct (set_order_complete values w Hs Hw) as (y & Hy & Hwy).
  rewrite Forall_forall in Hs.
  rewrite (count_congr w y); [|by apply Hs|by apply Hs, set_order_sound|done].
  unfold most_common. destruct (set_order values) as [|x l]; [by apply elem_of_nil in Hy|].
  by apply (max_by_ge (λ v, count v values)).
Qed.

Lemma most_common_first values :
  Forall (λ v, is_str_or_number v = true) values → values ≠ [] →
  ∃ pre post,
    set_order values = pre ++ most_common set_order values :: post ∧
    Forall (λ w, (count w values < count (most_common set_order values) values)%nat)
           pre ∧
    Forall (λ w, (count w values ≤ count (most_common set_order values) values)%nat)
           post.
Proof.
  intros Hs Hne. unfold most_common.
  destruct (set_order values) as [|x l] eqn:E.
  - destruct values as [|v values]; [done|].
    destruct (set_order_complete (v :: values) v Hs) as (y & Hy & _); [left|].
    rewrite E in Hy. by apply elem_of_nil in Hy.
  - apply (max_by_first (λ v, count v values)).
Qed.

Lemma find_variable_none v variables :
  Forall (λ nd : string * VarDef, py_eq v (var_value nd.2) = false) variables →
  find_variable v variables = None.
Proof.
  induction 1 as [|[name def] variables Hnd _ IH]; [done|].
  cbn in *. by rewrite Hnd.
Qed.

Lemma find_variable_first v pre name def post :
  Forall (λ nd : string * VarDef, py_eq v (var_value nd.2) = false) pre →
  py_eq v (var_value def) = true →
  find_variable v (pre ++ (name, def) :: post) = Some name.
Proof.
  intros Hpre Hdef. induction Hpre as [|[n d] pre Hnd _ IH]; cbn in *.
  - by rewrite Hdef.
  - by rewrite Hnd.
Qed.

Lemma dict_set_middle k v v0 (l1 l2 : dict) :
  k ∉ map fst l1 →
  dict_set k v (l1 ++ (k, v0) :: l2) = l1 ++ (k, v) :: l2.
Proof.
  induction l1 as [|[k1 v1] l1 IH]; cbn; intros Hk.
  - by rewrite String.eqb_refl.
  - apply not_elem_of_cons in Hk as [Hne Hk].
    apply String.eqb_neq in Hne. rewrite Hne. by rewrite IH.
Qed.

Lemma substitute_fold variables (done rest : dict) :
  NoDup (map fst (done ++ rest)) →
  fold_left (λ substituted kv,
               match find_variable kv.2 variables with
               | Some var_name => dict_set kv.1 (var_ref var_name) substituted
               | None => substituted
               end)
            rest
            (map (λ kv, (kv.1, substitute_value variables kv.2)) done ++ rest)
  = map (λ kv, (kv.1, substitute_value variables kv.2)) (done ++ rest).
Proof.
  revert done. induction rest as [|[k v] rest IH]; intros done Hnd.
  - by rewrite !app_nil_r.
  - cbn [fold_left fst snd].
    assert (k ∉ map fst (map (λ kv : string * value,
              (kv.1, substitute_value variables kv.2)) done)) as Hk.
    { rewrite map_map. cbn. rewrite map_app in Hnd.
      apply NoDup_app in Hnd as (_ & Hd & _). intros Hin.
      apply (Hd k Hin). cbn. left. }
    replace (done ++ (k, v) :: rest) with ((done ++ [(k, v)]) ++ rest) in *
      by (by rewrite <- app_assoc).
    rewrite <- IH by done. f_equal.
    rewrite map_app. cbn [map fst snd]. rewrite <- app_assoc. cbn [app].
    change (substitute_value variables v)
      with (match find_variable v variables with
            | Some var_name => var_ref var_name
            | None => v
            end).
    destruct (find_variable v variables); [|done].
    by apply dict_set_middle.
Qed.

Lemma substitute_variables_map parameters variables :
  NoDup (map fst parameters) →
  _substitute_variables parameters variables
  = map (λ kv, (kv.1, substitute_value variables kv.2)) parameters.
Proof. intros H. apply (substitute_fold variables [] parameters H). Qed.

Lemma three_foo_counts ty tool p a1 a2 a3 :
  (∀ a, a ∈ [a1; a2; a3] →
     Capture.action_type a = ty ∧ Capture.tool_name a = tool ∧
     Capture.parameters a = [(p, VStr "foo")]) →
  value_counts [a1; a2; a3]
  = [(ty +:+ "_" +:+ tool +:+ "_" +:+ p, [VStr "foo"; VStr "foo"; VStr "foo"])].
Proof.
  intros H.
  destruct (H a1) as (T1 & U1 & P1); [by left|].
  destruct (H a2) as (T2 & U2 & P2); [by right; left|].
  destruct (H a3) as (T3 & U3 & P3); [by right; right; left|].
  unfold value_counts, count_params, group_key. cbn [fold_left].
  rewrite P1, P2, P3, T1, T2, T3, U1, U2, U3.
  cbn [fold_left fst snd is_str_or_number].
  do 3 (cbn [vc_append app]; rewrite ?String.eqb_refl). reflexivity.
Qed.

Lemma most_common_three_foo :
  most_common set_order [VStr "foo"; VStr "foo"; VStr "foo"] = VStr "foo".
Proof.
  pose proof (most_common_in [VStr "foo"; VStr "foo"; VStr "foo"]) as H.
  apply set_order_sound in H; [|by repeat constructor|done].
  repeat (apply elem_of_cons in H as [H|H]; [done|]).
  by apply elem_of_nil in H.
Qed.

(** C7, as the code has it: one variable per group
    [{type}_{tool}_{param}] with more than one observed string or number,
    named [var_1], [var_2], ... in the order the groups were first seen and
    bound to a value of the group that no other value of the group
    outnumbers, and among equally frequent values to the one that the
    iteration over the set of the values yields first (every value the
    set yields before it is less frequent); every parameter of every
    converted step whose value equals the value of some variable becomes
    the reference [${name}] to the first such variable, the others are
    kept; three actions with the
    same type, tool and single parameter ["foo"] give the one variable
    [var_1 = "foo"], referenced by all three converted steps. *)
Theorem variables_bound_to_a_most_frequent_value actions :
  let groups := multi_groups (value_counts actions) in
  let variables := _extract_variables set_order actions in
  length variables = length groups ∧
  (∀ (i : nat) (g : string * list value),
     groups !! i = Some g →
     ∃ v, variables !! i
          = Some ("var_" +:+ pretty (S i),
                  mkVar v ("Extracted from " +:+ g.1) (type_name v)) ∧
          v ∈ g.2 ∧ (∀ w, w ∈ g.2 → (count w g.2 ≤ count v g.2)%nat) ∧
          ∃ before after,
            set_order g.2 = before ++ v :: after ∧
            Forall (λ w, (count w g.2 < count v g.2)%nat) before ∧
            Forall (λ w, (count w g.2 ≤ count v g.2)%nat) after) ∧
  (∀ (i : nat) (a : Capture.CapturedAction),
     actions !! i = Some a → NoDup (map fst (Capture.parameters a)) →
     step_parameters <$> (_convert_actions_to_steps actions variables !! i)
     = Some (Some (map (λ kv, (kv.1, substitute_value variables kv.2))
                       (Capture.parameters a)))) ∧
  (∀ v,
     (Forall (λ nd : string * VarDef, py_eq v (var_value nd.2) = false)
             variables →
      substitute_value variables v = v) ∧
     (∀ earlier name def later,
        variables = earlier ++ (name, def) :: later →
        Forall (λ nd : string * VarDef, py_eq v (var_value nd.2) = false)
               earlier →
        py_eq v (var_value def) = true →
        substitute_value variables v = VStr ("${" +:+ name +:+ "}"))) ∧
  (∀ ty tool p a1 a2 a3,
     actions = [a1; a2; a3] →
     (∀ a, a ∈ [a1; a2; a3] →
        Capture.action_type a = ty ∧ Capture.tool_name a = tool ∧
        Capture.parameters a = [(p, VStr "foo")]) →
     variables
     = [("var_1", mkVar (VStr "foo")
                    ("Extracted from " +:+ ty +:+ "_" +:+ tool +:+ "_" +:+ p)
                    "str")] ∧
     map step_parameters (_convert_actions_to_steps actions variables)
     = [Some [(p, var_ref "var_1")]; Some [(p, var_ref "var_1")];
        Some [(p, var_ref "var_1")]]).
Proof.
  intros groups variables. unfold variables, _extract_variables.
  rewrite build_variables_imap. fold groups. split_and!.
  - apply length_imap.
  - intros i g Hg. exists (most_common set_order g.2).
    rewrite list_lookup_imap, Hg. split; [reflexivity|].
    destruct (multi_groups_scalar (value_counts actions) g) as (Hs & Hlen);
      [apply value_counts_scalar|by eapply list_elem_of_lookup_2|].
    assert (g.2 ≠ []) as Hne.
    { intros E. rewrite E in Hlen. cbn in Hlen. lia. }
    split_and!.
    + by apply set_order_sound, most_common_in.
    + intros w Hw. by apply most_common_max.
    + by apply most_common_first.
  - intros i a Hi Hnd. rewrite (convert_lookup _ _ _ _ Hi). cbn.
    by rewrite substitute_variables_map.
  - intros v. unfold substitute_value. split.
    + intros Hnone. by rewrite find_variable_none.
    + intros earlier name def later -> Hearlier Hdef.
      by rewrite (find_variable_first v earlier name def later).
  - intros ty tool p a1 a2 a3 -> H.
    assert (imap (λ i g, ("var_" +:+ pretty (1 + i),
                     mkVar (most_common set_order g.2) ("Extracted from " +:+ g.1)
                           (type_name (most_common set_order g.2)))) groups
            = [("var_1", mkVar (VStr "foo")
                    ("Extracted from " +:+ ty +:+ "_" +:+ tool +:+ "_" +:+ p)
                    "str")]) as ->.
    { unfold groups. rewrite (three_foo_counts ty tool p a1 a2 a3 H).
      cbn [multi_groups List.filter length Nat.ltb Nat.leb snd fst imap].
      rewrite most_common_three_foo. reflexivity. }
    split; [reflexivity|].
    destruct (H a1) as (_ & _ & P1); [by left|].
    destruct (H a2) as (_ & _ & P2); [by right; left|].
    destruct (H a3) as (_ & _ & P3); [by right; right; left|].
    unfold _convert_actions_to_steps, convert_action, _substitute_variables.
    cbn. rewrite P1, P2, P3.
    cbn. rewrite String.eqb_refl. reflexivity.
Qed.

End VariableExtraction.

(** [first_seen_order] is a possible iteration order. *)
Lemma first_seen_fold_sound l : ∀ acc x,
  x ∈ fold_left (λ acc x, if existsb (λ y, py_eq y x) acc then acc
                          else (acc ++ [x])%list) l acc →
  x ∈ acc ∨ x ∈ l.
Proof.
  induction l as [|a l IH]; intros acc x; cbn [fold_left]; [by left|].
  intros H. apply IH in H as [H|H]; [|right; by right].
  destruct (existsb _ acc); [by left|].
  apply elem_of_app in H as [H|H]; [by left|].
  right. apply list_elem_of_singleton in H as ->. left.
Qed.

Lemma first_seen_fold_mono l : ∀ acc y,
  y ∈ acc →
  y ∈ fold_left (λ acc x, if existsb (λ y, py_eq y x) acc then acc
                          else (acc ++ [x])%list) l acc.
Proof.
  induction l as [|a l IH]; intros acc y Hy; cbn [fold_left]; [done|].
  apply IH. destruct (existsb _ acc); [done|]. apply elem_of_app. by left.
Qed.

Lemma first_seen_fold_complete l : ∀ acc x,
  Forall (λ v, is_str_or_number v = true) l → x ∈ l →
  ∃ y, y ∈ fold_left (λ acc x, if existsb (λ y, py_eq y x) acc then acc
                               else (acc ++ [x])%list) l acc
       ∧ py_eq x y = true.
Proof.
  induction l as [|a l IH]; intros acc x Hs Hx; [by apply elem_of_nil in Hx|].
  apply Forall_cons in Hs as [Ha Hs]. cbn [fold_left].
  apply elem_of_cons in Hx as [->|Hx]; [|by apply IH].
  destruct (existsb (λ y, py_eq y a) acc) eqn:E.
  - apply existsb_exists in E as (y & Hy & Hya).
    exists y. split; [|by apply py_eq_scalar_sym].
    apply first_seen_fold_mono. by apply list_elem_of_In.
  - exists a. split; [|by apply py_eq_scalar_refl].
    apply first_seen_fold_mono, elem_of_app. right. left.
Qed.

Lemma first_seen_order_sound l x : x ∈ first_seen_order l → x ∈ l.
Proof.
  intros H. apply first_seen_fold_sound in H as [H|H]; [|done].
  by apply elem_of_nil in H.
Qed.

Lemma first_seen_order_complete l x :
  Forall (λ v, is_str_or_number v = true) l → x ∈ l →
  ∃ y, y ∈ first_seen_order l ∧ py_eq x y = true.
Proof. apply first_seen_fold_complete. Qed.

Lemma variables_witness :
  _extract_variables first_seen_order three_foo
  = [("var_1", mkVar (VStr "foo") "Extracted from browser_type_text" "str")] ∧
  map step_parameters
      (_convert_actions_to_steps three_foo
         (_extract_variables first_seen_order three_foo))
  = [Some [("text", var_ref "var_1")]; Some [("text", var_ref "var_1")];
     Some [("text", var_ref "var_1")]].
Proof.
  refine (proj2 (proj2 (proj2 (proj2
    (variables_bound_to_a_most_frequent_value first_seen_order
       first_seen_order_sound first_seen_order_complete three_foo))))
    "browser" "type" "text" _ _ _ eq_refl _).
  intros a Ha. repeat (apply elem_of_cons in Ha as [->|Ha]; [done|]).
  by apply elem_of_nil in Ha.
Defined.

(** C7 as stated fails on the tie-break: the amounts 2 and 1 are seen
    once each, in that order, and the variable is bound to 1, the value
    the set yields first. *)
Lemma tie_not_broken_by_first_seen :
  ¬ ties_broken_by_first_seen small_int_set_order scroll_2_then_1.
Proof. vm_compute. discriminate. Qed.

End WorkflowGen.

(** ** [integration/orchestrator.py]: the security-gated dispatcher *)
Module Orchestrator.

(** The calls [execute_secure_action] makes, in the order it makes them:
    the validator, the recorder, the dispatch to a handler
    ([_execute_action]) and the memory write. *)
Inductive Call : Type :=
| CallValidate (input_text input_type : string)
| CallMarkStart (action_type tool_name : string)
| CallExecute (action_type tool_name : string) (parameters : dict)
| CallCapture (action_type tool_name : string) (parameters : dict)
| CallStore (action_type tool_name : string) (parameters : dict).

Definition is_validate (c : Call) : bool :=
  match c with CallValidate _ _ => true | _ => false end.

(** [SecurityValidator.validate_input(value, input_type)] *)
Definition Validator : Type := string → string → Exc (bool * string).

(** [analyze_screen(screenshot_path, prompt)] of the vision analyzer. *)
Definition Vision : Type := value → value → Exc value.

(** The memory manager, with its own state [M]. *)
Record MemoryManager (M : Type) : Type := mkMemory {
  search_memories : value → value → M → Exc value;
  store_screen_memory : value → value → value → M → Exc value * M;
  store_action_memory : string → string → bool → string → M → Exc unit * M
}.
Arguments mkMemory {M} _ _ _.
Arguments search_memories {M} _ _ _ _.
Arguments store_screen_memory {M} _ _ _ _ _.
Arguments store_action_memory {M} _ _ _ _ _ _.

(** The attributes of an [AIOrchestrator]: the recorder it loaded (if it
    could), its own recording flag and session id, the state of the memory
    manager, and the calls made so far. *)
Record Orch (M : Type) : Type := mkOrch {
  recorder : option Capture.WorkflowCapture;
  is_recording : bool;
  current_session_id : option string;
  memory_state : M;
  calls : list Call
}.
Arguments mkOrch {M} _ _ _ _ _.
Arguments recorder {M} _.
Arguments is_recording {M} _.
Arguments current_session_id {M} _.
Arguments memory_state {M} _.
Arguments calls {M} _.

Definition _detect_input_type (param_name : string) : string :=
  let param_lower := lower param_name in
  if contains "url" param_lower || contains "link" param_lower then "url"
  else if contains "path" param_lower || contains "file" param_lower then "path"
  else if contains "command" param_lower || contains "cmd" param_lower then "command"
  else if contains "query" param_lower || contains "sql" param_lower then "sql"
  else if contains "html" param_lower || contains "content" param_lower then "html"
  else "general".

(** The loop of [_validate_action] over [parameters.items()], with the
    calls it makes to the validator; an exception of the validator is
    caught and reported as a rejection. *)
Fixpoint _validate_action (security : Validator) (parameters : dict)
    : (bool * string) * list Call :=
  match parameters with
  | [] => ((true, ""), [])
  | (param_name, VStr param_value) :: rest =>
      let input_type := _detect_input_type param_name in
      let call := CallValidate param_value input_type in
      match security param_value input_type with
      | Returned (true, _) =>
          let '(verdict, cs) := _validate_action security rest in
          (verdict, call :: cs)
      | Returned (false, reason) =>
          ((false, "Parameter '" +:+ param_name +:+ "' validation failed: "
                   +:+ reason), [call])
      | Raised e => ((false, e), [call])
      end
  | _ :: rest => _validate_action security rest
  end.

Definition blocked_result (reason : string) : dict :=
  [ ("success", VBool false);
    ("error", VStr ("Security validation failed: " +:+ reason));
    ("blocked", VBool true) ].

Definition failure (msg : string) : dict :=
  [("success", VBool false); ("error", VStr msg)].

Section Dispatcher.

Context {M : Type}.

(** The collaborators; [None] when the lazy import failed.  [time_at] is
    the clock of the recorder, [dict_repr] is [str] of a dict. *)
Variable security : option Validator.
Variable vision : option Vision.
Variable memory : option (MemoryManager M).
Variable time_at : nat → Q.
Variable dict_repr : dict → string.

Definition log (c : Call) (o : Orch M) : Orch M :=
  mkOrch (recorder o) (is_recording o) (current_session_id o)
         (memory_state o) (calls o ++ [c]).

Definition set_recorder (r : Capture.WorkflowCapture) (o : Orch M) : Orch M :=
  mkOrch (Some r) (is_recording o) (current_session_id o)
         (memory_state o) (calls o).

Definition set_memory_state (m : M) (o : Orch M) : Orch M :=
  mkOrch (recorder o) (is_recording o) (current_session_id o) m (calls o).

Definition _execute_vision_action (tool_name : string) (parameters : dict)
    : Exc dict :=
  match vision with
  | None => Returned (failure "Vision AI not available")
  | Some v =>
      if String.eqb tool_name "analyze_screen" then
        match v (dict_get_none "screenshot_path" parameters)
                (dict_get_none "prompt" parameters) with
        | Returned result =>
            Returned [("success", VBool true); ("result", result)]
        | Raised e => Raised e
        end
      else Returned (failure ("Unknown vision tool: " +:+ tool_name))
  end.

Definition _execute_memory_action (tool_name : string) (parameters : dict)
    (o : Orch M) : Exc dict * Orch M :=
  match memory with
  | None => (Returned (failure "Memory system not available"), o)
  | Some m =>
      if String.eqb tool_name "search" then
        match search_memories m (dict_get_none "query" parameters)
                (dict_get_default "limit" (VInt 10) parameters)
                (memory_state o) with
        | Returned results =>
            (Returned [("success", VBool true); ("results", results)], o)
        | Raised e => (Raised e, o)
        end
      else if String.eqb tool_name "store_screen" then
        match store_screen_memory m (dict_get_none "content" parameters)
                (dict_get_default "ai_provider" (VStr "gemini") parameters)
                (dict_get_none "ai_analysis" parameters)
                (memory_state o) with
        | (Returned mem_id, ms) =>
            (Returned [("success", VBool true); ("memory_id", mem_id)],
             set_memory_state ms o)
        | (Raised e, ms) => (Raised e, set_memory_state ms o)
        end
      else (Returned (failure ("Unknown memory tool: " +:+ tool_name)), o)
  end.

Definition _execute_browser_action (tool_name : string) (parameters : dict)
    : dict :=
  failure "Browser control not yet implemented".

Definition _execute_hands_action (tool_name : string) (parameters : dict)
    : dict :=
  failure "Desktop control not yet implemented".

(** The dispatch; an exception of a handler becomes a failure result. *)
Definition _execute_action (action_type tool_name : string)
    (parameters : dict) (o : Orch M) : dict * Orch M :=
  let o := log (CallExecute action_type tool_name parameters) o in
  let '(outcome, o) :=
    if String.eqb action_type "vision" then
      (_execute_vision_action tool_name parameters, o)
    else if String.eqb action_type "memory" then
      _execute_memory_action tool_name parameters o
    else if String.eqb action_type "browser" then
      (Returned (_execute_browser_action tool_name parameters), o)
    else if String.eqb action_type "hands" then
      (Returned (_execute_hands_action tool_name parameters), o)
    else (Returned (failure ("Unknown action type: " +:+ action_type)), o) in
  match outcome with
  | Returned result => (result, o)
  | Raised e => (failure e, o)
  end.

(** [result.get('success', True)] as a condition. *)
Definition succeeded (result : dict) : bool :=
  truthy (dict_get_default "success" (VBool true) result).

Definition _store_in_memory (action_type tool_name : string)
    (parameters result : dict) (o : Orch M) : Orch M :=
  match memory with
  | None => o
  | Some m =>
      let o := log (CallStore action_type tool_name parameters) o in
      let '(_, ms) :=
        store_action_memory m
          (action_type +:+ "." +:+ tool_name +:+ ": " +:+ dict_repr parameters)
          tool_name (succeeded result) action_type (memory_state o) in
      set_memory_state ms o
  end.

(** Steps 2 to 5 of [execute_secure_action], after the security gate. *)
Definition execute_validated (action_type tool_name : string)
    (parameters : dict) (o : Orch M) : dict * Orch M :=
  let o :=
    match recorder o with
    | Some r =>
        if is_recording o then
          set_recorder (Capture.mark_action_start time_at action_type tool_name r)
                       (log (CallMarkStart action_type tool_name) o)
        else o
    | None => o
    end in
  let '(result, o) := _execute_action action_type tool_name parameters o in
  let o :=
    match recorder o with
    | Some r =>
        if is_recording o then
          set_recorder
            (Capture.capture_action time_at action_type tool_name parameters
               (Some result) (succeeded result)
               (Capture.as_str (dict_get_none "error" result)) r).2
            (log (CallCapture action_type tool_name parameters) o)
        else o
    | None => o
    end in
  let o :=
    match memory with
    | Some _ =>
        if succeeded result
        then _store_in_memory action_type tool_name parameters result o
        else o
    | None => o
    end in
  (result, o).

Definition execute_secure_action (action_type tool_name : string)
    (parameters : dict) (o : Orch M) : dict * Orch M :=
  match security with
  | Some validator =>
      let '((is_valid, reason), cs) := _validate_action validator parameters in
      let o := mkOrch (recorder o) (is_recording o) (current_session_id o)
                      (memory_state o) (calls o ++ cs) in
      if is_valid then execute_validated action_type tool_name parameters o
      else (blocked_result reason, o)
  | None => execute_validated action_type tool_name parameters o
  end.

(** *** The security gate *)

Lemma validate_calls validator parameters :
  forallb is_validate (_validate_action validator parameters).2 = true.
Proof.
  induction parameters as [|[k v] ps IH]; [done|].
  destruct v; try exact IH. cbn [_validate_action].
  destruct (validator s (_detect_input_type k)) as [[[] r]|e]; [|done..].
  destruct (_validate_action validator ps) as [verdict cs]. cbn in *. done.
Qed.

Lemma validate_non_strings validator parameters :
  Forall (λ kv : string * value, ∀ s, kv.2 ≠ VStr s) parameters →
  _validate_action validator parameters = ((true, ""), []).
Proof.
  induction 1 as [|[k v] ps Hv _ IH]; [done|].
  destruct v; try exact IH. by destruct (Hv s).
Qed.

(** Where the reason of a rejection comes from: the first string-valued
    parameter the validator rejects, or on which it raises. *)
Definition rejection_of (validator : Validator) (parameters : dict)
    (reason : string) : Prop :=
  (∃ k s r, (k, VStr s) ∈ parameters ∧
            validator s (_detect_input_type k) = Returned (false, r) ∧
            reason = "Parameter '" +:+ k +:+ "' validation failed: " +:+ r) ∨
  (∃ k s, (k, VStr s) ∈ parameters ∧
          validator s (_detect_input_type k) = Raised reason).

Lemma validate_rejects validator parameters :
  (∃ k s r, (k, VStr s) ∈ parameters ∧
            validator s (_detect_input_type k) = Returned (false, r)) →
  ∃ reason cs,
    _validate_action validator parameters = ((false, reason), cs) ∧
    rejection_of validator parameters reason.
Proof.
  induction parameters as [|[k v] ps IH]; intros (k0 & s0 & r0 & Hin & Hrej).
  { by apply elem_of_nil in Hin. }
  assert (∀ reason, rejection_of validator ps reason →
                    rejection_of validator ((k, v) :: ps) reason) as Hmono.
  { intros reason [(k' & s' & r' & Hin' & Hv' & ->)|(k' & s' & Hin' & Hv')].
    - left. exists k', s', r'. split; [by right|done].
    - right. exists k', s'. split; [by right|done]. }
  apply elem_of_cons in Hin as [Heq|Hin].
  - injection Heq as <- <-. cbn [_validate_action]. rewrite Hrej.
    eexists _, _. split; [reflexivity|]. left.
    exists k0, s0, r0. split; [left|done].
  - destruct IH as (reason & cs & Hv & Hr); [by eauto|].
    destruct v; cbn [_validate_action]; try (rewrite Hv; by eauto).
    destruct (validator s (_detect_input_type k)) as [[[] r]|e] eqn:E.
    + rewrite Hv. eauto.
    + eexists _, _. split; [reflexivity|]. left.
      exists k, s, r. split; [left|done].
    + eexists _, _. split; [reflexivity|]. right.
      exists k, s. split; [left|done].
Qed.

(** C2: when the validator is loaded and rejects some string-valued
    parameter, [execute_secure_action] returns the blocked result
    ([success] false, [blocked] true, and [error] the text
    [Security validation failed: ] followed by the reason of the first
    rejection) and leaves the recorder, the recording flag and the
    memory as they were; the only calls made are calls of the validator:
    no [mark_action_start], no dispatch, no [capture_action], no memory
    write.  So it is for [("hands", "type", {command: "rm -rf /"})] with a
    validator that rejects that command. *)
Theorem blocked_call_has_no_side_effect validator action_type tool_name
    parameters (o : Orch M) :
  security = Some validator →
  (∃ k s r, (k, VStr s) ∈ parameters ∧
            validator s (_detect_input_type k) = Returned (false, r)) →
  (∃ reason cs,
     execute_secure_action action_type tool_name parameters o
     = ([ ("success", VBool false);
          ("error", VStr ("Security validation failed: " +:+ reason));
          ("blocked", VBool true) ],
        mkOrch (recorder o) (is_recording o) (current_session_id o)
               (memory_state o) (calls o ++ cs)) ∧
     dict_get "blocked"
       (execute_secure_action action_type tool_name parameters o).1
     = Some (VBool true) ∧
     dict_get "success"
       (execute_secure_action action_type tool_name parameters o).1
     = Some (VBool false) ∧
     dict_get "error"
       (execute_secure_action action_type tool_name parameters o).1
     = Some (VStr ("Security validation failed: " +:+ reason)) ∧
     forallb is_validate cs = true ∧
     rejection_of validator parameters reason) ∧
  (∀ r, validator "rm -rf /" "command" = Returned (false, r) →
     execute_secure_action "hands" "type" [("command", VStr "rm -rf /")] o
     = ([ ("success", VBool false);
          ("error",
           VStr ("Security validation failed: "
                 +:+ "Parameter 'command' validation failed: " +:+ r));
          ("blocked", VBool true) ],
        mkOrch (recorder o) (is_recording o) (current_session_id o)
               (memory_state o)
               (calls o ++ [CallValidate "rm -rf /" "command"]))).
Proof.
  intros Hsec Hrej. split.
  - destruct (validate_rejects validator parameters Hrej) as (reason & cs & Hv & Hr).
    exists reason, cs. unfold execute_secure_action. rewrite Hsec, Hv.
    split_and!; try done.
    pose proof (validate_calls validator parameters) as Hc. by rewrite Hv in Hc.
  - intros r Hr. unfold execute_secure_action. rewrite Hsec.
    cbn [_validate_action].
    change (_detect_input_type "command") with "command". by rewrite Hr.
Qed.

(** *** After the gate *)

Lemma execute_action_frame action_type tool_name parameters (o : Orch M) :
  let result := (_execute_action action_type tool_name parameters o).1 in
  let o' := (_execute_action action_type tool_name parameters o).2 in
  calls o' = calls o ++ [CallExecute action_type tool_name parameters] ∧
  recorder o' = recorder o ∧ is_recording o' = is_recording o ∧
  dict_get "blocked" result = None.
Proof.
  unfold _execute_action, _execute_vision_action, _execute_memory_action.
  destruct (String.eqb action_type "vision").
  { destruct vision as [v|]; [|done].
    destruct (String.eqb tool_name "analyze_screen"); [|done].
    by destruct (v _ _). }
  destruct (String.eqb action_type "memory").
  { destruct memory as [m|]; [|done].
    destruct (String.eqb tool_name "search").
    { by destruct (search_memories m _ _ _). }
    destruct (String.eqb tool_name "store_screen"); [|done].
    by destruct (store_screen_memory m _ _ _ _) as [[]]. }
  destruct (String.eqb action_type "browser"); [done|].
  by destruct (String.eqb action_type "hands").
Qed.

(** The calls of the steps after the gate: the dispatch always, the two
    recorder calls when recording, the memory write on success. *)
Lemma execute_validated_calls action_type tool_name parameters (o : Orch M) :
  let result := (execute_validated action_type tool_name parameters o).1 in
  let o' := (execute_validated action_type tool_name parameters o).2 in
  let recording :=
    match recorder o with Some _ => is_recording o | None => false end in
  let stored :=
    match memory with Some _ => succeeded result | None => false end in
  dict_get "blocked" result = None ∧
  calls o'
  = calls o
    ++ (if recording then [CallMarkStart action_type tool_name] else [])
    ++ [CallExecute action_type tool_name parameters]
    ++ (if recording then [CallCapture action_type tool_name parameters] else [])
    ++ (if stored then [CallStore action_type tool_name parameters] else []).
Proof.
  unfold execute_validated, _store_in_memory.
  destruct (recorder o) as [r|] eqn:Er; [destruct (is_recording o) eqn:Ei|];
    match goal with
    | |- context [_execute_action ?a ?b ?c ?o1] =>
        pose proof (execute_action_frame a b c o1) as HF;
        destruct (_execute_action a b c o1) as [result o2]
    end;
    cbn [fst snd] in *; destruct HF as (Hc2 & Hr2 & Hi2 & Hb);
    cbn [recorder is_recording calls set_recorder log] in Hc2, Hr2, Hi2;
    rewrite Hr2, Hi2, ?Er, ?Ei; (split; [done|]);
    destruct memory as [m|]; try destruct (succeeded result);
    try destruct (store_action_memory m _ _ _ _ _) as [? ms];
    cbn; rewrite Hc2, ?app_nil_r, <- ?app_assoc; reflexivity.
Qed.

(** C10: when no parameter value is a string (numbers, booleans, lists
    and dicts, whatever they contain), the validator is not called, the
    result is not the blocked one, and the action is dispatched. *)
Theorem non_string_parameters_skip_the_gate action_type tool_name parameters
    (o : Orch M) :
  Forall (λ kv : string * value, ∀ s, kv.2 ≠ VStr s) parameters →
  let result := (execute_secure_action action_type tool_name parameters o).1 in
  let o' := (execute_secure_action action_type tool_name parameters o).2 in
  dict_get "blocked" result = None ∧
  ∃ cs, calls o' = calls o ++ cs ∧
        forallb (λ c, negb (is_validate c)) cs = true ∧
        CallExecute action_type tool_name parameters ∈ cs.
Proof.
  intros Hns.
  assert (execute_secure_action action_type tool_name parameters o
          = execute_validated action_type tool_name parameters o) as ->.
  { unfold execute_secure_action. destruct security as [validator|]; [|done].
    rewrite (validate_non_strings validator parameters Hns).
    rewrite app_nil_r. by destruct o. }
  destruct (execute_validated_calls action_type tool_name parameters o)
    as (Hb & Hc).
  split; [done|]. eexists. split; [exact Hc|].
  destruct (match recorder o with Some _ => is_recording o | None => false end);
    destruct (match memory with Some _ => _ | None => false end); cbn;
    (split; [done|]); set_solver.
Qed.

(** A call that passes the gate makes, in this order, [mark_action_start]
    when recording, the dispatch, [capture_action] when recording (whether
    the action succeeded or not), and the memory write when the memory is
    loaded and the result is a success. *)
Theorem unblocked_call_order action_type tool_name parameters (o : Orch M) :
  let result := (execute_validated action_type tool_name parameters o).1 in
  let recording :=
    match recorder o with Some _ => is_recording o | None => false end in
  let stored :=
    match memory with Some _ => succeeded result | None => false end in
  calls (execute_validated action_type tool_name parameters o).2
  = calls o
    ++ (if recording then [CallMarkStart action_type tool_name] else [])
    ++ [CallExecute action_type tool_name parameters]
    ++ (if recording then [CallCapture action_type tool_name parameters] else [])
    ++ (if stored then [CallStore action_type tool_name parameters] else []).
Proof. apply execute_validated_calls. Qed.

End Dispatcher.

(** *** A concrete orchestrator *)

(** A validator that rejects commands containing [rm]. *)
Definition demo_validator : Validator :=
  λ input_text input_type,
    if String.eqb input_type "command" && contains "rm" input_text
    then Returned (false, "Dangerous command pattern detected")
    else Returned (true, "Input validated").

(** A memory manager that keeps the contents stored and finds nothing. *)
Definition demo_memory : MemoryManager (list string) :=
  mkMemory
    (λ query limit ms,
       Returned (VDict [("total_count", VInt 0); ("results", VList [])]))
    (λ content provider analysis ms, (Returned (VStr "mem_1"), ms))
    (λ content action_type ok server ms, (Returned tt, ms ++ [content])).

Definition demo_repr (d : dict) : string :=
  "{" +:+ String.concat ", " (map fst d) +:+ "}".

(** An orchestrator that is recording the session [demo_started]. *)
Definition demo_orch : Orch (list string) :=
  mkOrch (Some Capture.demo_started.2) true
         (Some "session_1700000000_my_flow") [] [].

Lemma blocked_call_witness :
  execute_secure_action (Some demo_validator) None (Some demo_memory)
    Capture.demo_clock demo_repr
    "hands" "type" [("command", VStr "rm -rf /")] demo_orch
  = ([ ("success", VBool false);
       ("error",
        VStr ("Security validation failed: "
              +:+ "Parameter 'command' validation failed: "
              +:+ "Dangerous command pattern detected"));
       ("blocked", VBool true) ],
     mkOrch (Some Capture.demo_started.2) true
            (Some "session_1700000000_my_flow") []
            [CallValidate "rm -rf /" "command"]).
Proof.
  refine (proj2 (blocked_call_has_no_side_effect (Some demo_validator) None
            (Some demo_memory) Capture.demo_clock demo_repr demo_validator
            "hands" "type" [("command", VStr "rm -rf /")] demo_orch eq_refl _)
          "Dangerous command pattern detected" eq_refl).
  exists "command", "rm -rf /", "Dangerous command pattern detected".
  split; [left|reflexivity].
Defined.

Lemma non_string_parameters_witness :
  let run :=
    execute_secure_action (Some demo_validator) None (Some demo_memory)
      Capture.demo_clock demo_repr
      "memory" "search"
      [("limit", VInt 5); ("tags", VList [VStr "rm -rf /"])] demo_orch in
  dict_get "blocked" run.1 = None ∧
  ∃ cs, calls run.2 = [] ++ cs ∧
        forallb (λ c, negb (is_validate c)) cs = true ∧
        CallExecute "memory" "search"
          [("limit", VInt 5); ("tags", VList [VStr "rm -rf /"])] ∈ cs.
Proof.
  apply (non_string_parameters_skip_the_gate (Some demo_validator) None
           (Some demo_memory) Capture.demo_clock demo_repr
           "memory" "search"
           [("limit", VInt 5); ("tags", VList [VStr "rm -rf /"])] demo_orch).
  repeat constructor; cbn; discriminate.
Defined.

End Orchestrator.

(** ** [integration/autonomous_agent.py]: the decision loop *)
Module Agent.

(** An entry of [actions] or [fallback_actions]. *)
Record Action : Type := mkAction {
  action_type : string;
  tool_name : string;
  parameters : dict
}.

(** The analysis returned by the vision collaborator,
    [{confidence, recommended_actions, ...}]; a field may be missing. *)
Record RecommendedAction : Type := mkRecommended {
  ra_type : option string;
  ra_tool : option string;
  ra_parameters : option dict
}.

Record Analysis : Type := mkAnalysis {
  an_confidence : option Q;
  an_recommended_actions : option (list RecommendedAction)
}.

(** The [action_plan] dict. *)
Record ActionPlan : Type := mkPlan {
  goal : string;
  confidence : Q;
  strategy : option string;
  actions : list Action;
  fallback_actions : list Action
}.

(** What [_execute_action_plan] returns. *)
Record PlanResult : Type := mkPlanResult {
  pr_success : bool;
  pr_strategy : option string;
  pr_results : list dict
}.

(** What [execute_goal_autonomously] returns. *)
Record GoalResult : Type := mkGoalResult {
  gr_success : bool;
  gr_goal : string;
  gr_iterations : nat;
  gr_history : list dict
}.

(** [exp.get('success', False)] as a condition. *)
Definition exp_success (exp : dict) : bool :=
  truthy (dict_get_default "success" (VBool false) exp).

Definition _extract_actions_from_memory (memory : dict) : list Action :=
  [ mkAction "memory" "replay_workflow"
             [("memory_id", dict_get_none "id" memory)] ].

Definition _generate_actions_from_analysis (analysis : Analysis)
    : list Action :=
  map (λ action,
         mkAction (default "browser" (ra_type action))
                  (default "click" (ra_tool action))
                  (default [] (ra_parameters action)))
      (default [] (an_recommended_actions analysis)).

Definition _generate_cautious_actions (analysis : Analysis) : list Action :=
  [ mkAction "vision" "analyze_screen"
      [("prompt",
        VStr "Provide detailed analysis of all interactive elements")] ].

Definition _generate_fallback_actions (goal : string) : list Action :=
  [ mkAction "memory" "search"
      [ ("query", VStr ("alternative approaches for " +:+ goal));
        ("limit", VInt 3) ] ].

Definition analysis_prompt (goal : string) : string :=
  "
        Analyze this screen in the context of the following goal: " +:+ goal +:+ "

        Please identify:
        1. What is currently visible on the screen
        2. What UI elements are available for interaction
        3. What actions would help achieve the goal
        4. Any obstacles or issues present
        5. Confidence level (0.0-1.0) for recommended actions
        ".

Definition action_value (a : Action) : value :=
  VDict [ ("action_type", VStr (action_type a));
          ("tool_name", VStr (tool_name a));
          ("parameters", VDict (parameters a)) ].

Definition plan_value (p : ActionPlan) : value :=
  VDict [ ("goal", VStr (goal p));
          ("confidence", VFloat (confidence p));
          ("strategy", opt_value VStr (strategy p));
          ("actions", VList (map action_value (actions p)));
          ("fallback_actions", VList (map action_value (fallback_actions p))) ].

Definition plan_result_value (r : PlanResult) : value :=
  VDict [ ("success", VBool (pr_success r));
          ("strategy", opt_value VStr (pr_strategy r));
          ("results", VList (map VDict (pr_results r))) ].

(** Reading the analysis the vision collaborator returned.  One that does
    not have the shape of its contract (a dict whose [confidence], when
    there, is a number and whose [recommended_actions], when there, is a
    list of dicts with string [type] and [tool] and dict [parameters])
    makes the cycle raise, or is outside this model. *)
Definition recommended_of_value (v : value) : option RecommendedAction :=
  d ← Capture.as_dict v;
  ty ← Capture.as_optional Capture.as_str (dict_get "type" d);
  tool ← Capture.as_optional Capture.as_str (dict_get "tool" d);
  params ← Capture.as_optional Capture.as_dict (dict_get "parameters" d);
  Some (mkRecommended ty tool params).

Definition analysis_of_value (v : value) : option Analysis :=
  d ← Capture.as_dict v;
  c ← match dict_get "confidence" d with
      | None => Some None
      | Some x => match num_of x with Some q => Some (Some q) | None => None end
      end;
  recs ← match dict_get "recommended_actions" d with
         | None => Some None
         | Some (VList l) =>
             match mapM recommended_of_value l with
             | Some rs => Some (Some rs)
             | None => None
             end
         | Some _ => None
         end;
  Some (mkAnalysis c recs).

(** The recalled experiences: a list of dicts. *)
Definition experiences_of_value (v : value) : option (list dict) :=
  match v with
  | VList l => mapM Capture.as_dict l
  | _ => None
  end.

(** [result.get('success')] as a condition. *)
Definition succeeded (result : dict) : bool :=
  truthy (dict_get_none "success" result).

Section DecisionLoop.

(** The settings of the agent, and the orchestrator it drives:
    [execute_secure_action] on the orchestrator's state [St]. *)
Variable confidence_threshold : Q.
Variable learning_enabled : bool.
Context {St : Type}.
Variable execute_secure_action : string → string → dict → St → dict * St.

Definition run (a : Action) (st : St) : dict * St :=
  execute_secure_action (action_type a) (tool_name a) (parameters a) st.

Definition _decide_action (goal : string) (analysis : Analysis)
    (similar_experiences : list dict) (context : option dict) : ActionPlan :=
  let confidence := default (1 # 2)%Q (an_confidence analysis) in
  let successful_experiences := List.filter exp_success similar_experiences in
  match Qle_bool confidence_threshold confidence, successful_experiences with
  | true, exp :: _ =>
      mkPlan goal confidence (Some "proven")
             (_extract_actions_from_memory exp) []
  | true, [] =>
      mkPlan goal confidence (Some "exploratory")
             (_generate_actions_from_analysis analysis) []
  | false, _ =>
      mkPlan goal confidence (Some "cautious")
             (_generate_cautious_actions analysis)
             (_generate_fallback_actions goal)
  end.

Definition all_fallbacks_failed : dict :=
  [("success", VBool false); ("error", VStr "All fallback actions failed")].

Fixpoint _execute_fallback (fallback_actions : list Action) (st : St)
    : dict * St :=
  match fallback_actions with
  | [] => (all_fallbacks_failed, st)
  | action :: rest =>
      let '(result, st) := run action st in
      if succeeded result then (result, st) else _execute_fallback rest st
  end.

(** The loop of [_execute_action_plan] over the primary actions; it
    returns [success], [results] and the state. *)
Fixpoint execute_actions (fallback_actions : list Action)
    (actions : list Action) (results : list dict) (st : St)
    : bool * list dict * St :=
  match actions with
  | [] => (true, results, st)
  | action :: rest =>
      let '(result, st) := run action st in
      let results := results ++ [result] in
      if truthy (dict_get_default "success" (VBool false) result)
      then execute_actions fallback_actions rest results st
      else
        match fallback_actions with
        | [] => (false, results, st)
        | _ :: _ =>
            let '(fallback_result, st) := _execute_fallback fallback_actions st in
            (false, results ++ [fallback_result], st)
        end
  end.

Definition _execute_action_plan (action_plan : ActionPlan) (st : St)
    : PlanResult * St :=
  let '(success, results, st) :=
    execute_actions (fallback_actions action_plan) (actions action_plan) [] st in
  (mkPlanResult success (strategy action_plan) results, st).

(** It returns [result.get('result', {})] or raises [RuntimeError]. *)
Definition _analyze_situation (screenshot_path goal : string) (st : St)
    : Exc value * St :=
  let '(result, st) :=
    execute_secure_action "vision" "analyze_screen"
      [ ("screenshot_path", VStr screenshot_path);
        ("prompt", VStr (analysis_prompt goal)) ] st in
  if succeeded result
  then (Returned (dict_get_default "result" (VDict []) result), st)
  else
    (Raised ("Vision analysis failed: "
             +:+ match dict_get_none "error" result with
                 | VStr e => e
                 | _ => "None"
                 end), st).

Definition _find_similar_experiences (goal : string) (st : St) : value * St :=
  let '(result, st) :=
    execute_secure_action "memory" "search"
      [("query", VStr goal); ("limit", VInt 5)] st in
  if succeeded result then
    match dict_get_default "results" (VDict []) result with
    | VDict memories => (dict_get_default "results" (VList []) memories, st)
    | _ => (VList [], st)
    end
  else (VList [], st).

Definition _learn_from_result (goal : string) (action_plan : ActionPlan)
    (result : PlanResult) (st : St) : St :=
  (execute_secure_action "memory" "store_workflow"
     [ ("content",
        VStr ("Goal: " +:+ goal +:+ ", Strategy: "
              +:+ default "None" (strategy action_plan)));
       ("workflow_name", VStr ("auto_" +:+ replace_char " " "_" goal));
       ("steps", VList (map action_value (actions action_plan)));
       ("success", VBool (pr_success result));
       ("metadata",
        VDict [ ("confidence", VFloat (confidence action_plan));
                ("strategy", opt_value VStr (strategy action_plan)) ]) ]
     st).2.

Definition cycle_failed (e : string) : dict :=
  [("success", VBool false); ("error", VStr e)].

(** One cycle; every exception is caught and reported in the result. *)
Definition analyze_and_act (screenshot_path goal : string)
    (context : option dict) (st : St) : dict * St :=
  match _analyze_situation screenshot_path goal st with
  | (Raised e, st) => (cycle_failed e, st)
  | (Returned raw, st) =>
      let '(found, st) := _find_similar_experiences goal st in
      match analysis_of_value raw, experiences_of_value found with
      | Some analysis, Some similar_experiences =>
          let action_plan :=
            _decide_action goal analysis similar_experiences context in
          let '(result, st) := _execute_action_plan action_plan st in
          let st :=
            if learning_enabled
            then _learn_from_result goal action_plan result st
            else st in
          ([ ("success", VBool true);
             ("goal", VStr goal);
             ("analysis", raw);
             ("action_plan", plan_value action_plan);
             ("result", plan_result_value result);
             ("learned", VBool learning_enabled) ], st)
      | _, _ => (cycle_failed "malformed analysis or memories", st)
      end
  end.

(** [result.get('success', False) and result.get('confidence', 0) > 0.8];
    comparing a [confidence] that is not a number would raise, but no
    cycle result has that key. *)
Definition _check_goal_achievement (goal : string) (result : dict) : bool :=
  truthy (dict_get_default "success" (VBool false) result)
  && match num_of (dict_get_default "confidence" (VInt 0) result) with
     | Some c => negb (Qle_bool c (8 # 10))
     | None => false
     end.

(** The [while] loop of [execute_goal_autonomously]: [fuel] is
    [max_iterations - iteration], the turns left. *)
Fixpoint goal_loop (goal : string) (fuel iteration : nat)
    (current_screenshot : option string) (history : list dict) (st : St)
    : bool * nat * list dict * St :=
  match fuel with
  | O => (false, iteration, history, st)
  | S fuel' =>
      let iteration := S iteration in
      let screenshot :=
        match current_screenshot with
        | Some s => if String.eqb s "" then "/tmp/current_screen.png" else s
        | None => "/tmp/current_screen.png"
        end in
      let '(result, st) :=
        analyze_and_act screenshot goal
          (Some [("iteration", VInt (Z.of_nat iteration))]) st in
      let history := history ++ [result] in
      if _check_goal_achievement goal result
      then (true, iteration, history, st)
      else goal_loop goal fuel' iteration None history st
  end.

Definition execute_goal_autonomously (goal : string)
    (initial_screenshot : option string) (max_iterations : Z) (st : St)
    : GoalResult * St :=
  let '(goal_achieved, iteration, history, st) :=
    goal_loop goal (Z.to_nat max_iterations) 0 initial_screenshot [] st in
  (mkGoalResult goal_achieved goal iteration history, st).

(** [not result.get('success', False)] is false: the action succeeded. *)
Definition ok (result : dict) : bool :=
  truthy (dict_get_default "success" (VBool false) result).

(** The actions run one after the other, whatever their results. *)
Fixpoint run_all (actions : list Action) (st : St) : list dict * St :=
  match actions with
  | [] => ([], st)
  | a :: rest =>
      let '(r, st) := run a st in
      let '(rs, st) := run_all rest st in
      (r :: rs, st)
  end.

(** *** DECIDE *)

Lemma filter_head_find {A} (f : A → bool) (l : list A) :
  head (List.filter f l) = List.find f l.
Proof.
  induction l as [|x l IH]; [done|]. cbn. by destruct (f x).
Qed.

(** C1: [_decide_action] is a function of the confidence (0.5 when the
    analysis gives none), the threshold and the recalled experiences, with
    three exhaustive cases: at or above the threshold with a successful
    experience the strategy is [proven] and the actions are those
    extracted from the first successful experience; at or above the
    threshold with no successful experience it is [exploratory] with one
    action per entry of the recommended-action list of the analysis, in
    order, each with the type, tool and parameters of its entry
    ([browser], [click] and no parameters where the entry gives none), and
    no action when the analysis has no such list; below the
    threshold it is [cautious] with the one re-analysis action and the
    fallback memory search for [alternative approaches for {goal}]; no
    other strategy is produced. *)
Theorem decide_is_three_way g analysis similar_experiences context :
  let c := default (1 # 2)%Q (an_confidence analysis) in
  let plan := _decide_action g analysis similar_experiences context in
  goal plan = g ∧ confidence plan = c ∧
  (∀ exp, (confidence_threshold <= c)%Q →
          List.find exp_success similar_experiences = Some exp →
     strategy plan = Some "proven" ∧
     actions plan
     = [mkAction "memory" "replay_workflow"
                 [("memory_id", dict_get_none "id" exp)]] ∧
     fallback_actions plan = []) ∧
  ((confidence_threshold <= c)%Q →
   Forall (λ exp, exp_success exp = false) similar_experiences →
     strategy plan = Some "exploratory" ∧
     actions plan
     = map (λ recommended,
              mkAction (default "browser" (ra_type recommended))
                       (default "click" (ra_tool recommended))
                       (default [] (ra_parameters recommended)))
           (default [] (an_recommended_actions analysis)) ∧
     fallback_actions plan = []) ∧
  ((c < confidence_threshold)%Q →
     strategy plan = Some "cautious" ∧
     actions plan
     = [mkAction "vision" "analyze_screen"
          [("prompt",
            VStr "Provide detailed analysis of all interactive elements")]] ∧
     fallback_actions plan
     = [mkAction "memory" "search"
          [("query", VStr ("alternative approaches for " +:+ g));
           ("limit", VInt 3)]]) ∧
  (strategy plan = Some "proven" ∨ strategy plan = Some "exploratory" ∨
   strategy plan = Some "cautious").
Proof.
  intros c plan. unfold plan, _decide_action. fold c.
  pose proof (filter_head_find exp_success similar_experiences) as Hhead.
  destruct (Qle_bool confidence_threshold c) eqn:Hc.
  - apply Qle_bool_iff in Hc.
    destruct (List.filter exp_success similar_experiences) as [|exp l] eqn:Hf.
    + split_and!; try done; [| |auto].
      * intros exp _ Hfind. rewrite Hfind in Hhead. discriminate.
      * intros Hlt. exfalso. by apply (Qlt_not_le _ _ Hlt).
    + split_and!; try done; [| | |auto].
      * intros exp' _ Hfind. rewrite Hfind in Hhead. by injection Hhead as ->.
      * intros _ Hall. exfalso.
        assert (In exp (List.filter exp_success similar_experiences)) as Hin
          by (rewrite Hf; left; done).
        apply filter_In in Hin as [Hin Hs].
        apply list_elem_of_In in Hin. rewrite Forall_forall in Hall.
        rewrite (Hall _ Hin) in Hs. discriminate.
      * intros Hlt. exfalso. by apply (Qlt_not_le _ _ Hlt).
  - assert (¬ (confidence_threshold <= c)%Q) as Hn.
    { intros H. apply Qle_bool_iff in H. congruence. }
    destruct (List.filter exp_success similar_experiences);
      split_and!; try done; auto; intros; by exfalso.
Qed.

(** *** EXECUTE *)

Lemma fallback_first_success pre : ∀ a post st rs st1 r st2,
  run_all pre st = (rs, st1) → forallb (λ x, negb (succeeded x)) rs = true →
  run a st1 = (r, st2) → succeeded r = true →
  _execute_fallback (pre ++ a :: post) st = (r, st2).
Proof.
  induction pre as [|b pre IH]; intros a post st rs st1 r st2; cbn.
  - intros [= <- <-] _ -> ->. done.
  - destruct (run b st) as [rb stb].
    destruct (run_all pre stb) as [rs' st'] eqn:Hall.
    intros [= <- <-]. cbn. intros [Hb Hrs]%andb_prop Hr Hok.
    apply negb_true_iff in Hb. rewrite Hb. by eapply IH.
Qed.

Lemma fallback_all_failed fb : ∀ st rs st',
  run_all fb st = (rs, st') → forallb (λ x, negb (succeeded x)) rs = true →
  _execute_fallback fb st = (all_fallbacks_failed, st').
Proof.
  induction fb as [|b fb IH]; intros st rs st'; cbn.
  - by intros [= <- <-].
  - destruct (run b st) as [rb stb].
    destruct (run_all fb stb) as [rs' st''] eqn:Hall.
    intros [= <- <-]. cbn. intros [Hb Hrs]%andb_prop.
    apply negb_true_iff in Hb. rewrite Hb. by eapply IH.
Qed.

Lemma execute_actions_all_ok fb acts : ∀ acc st rs st',
  run_all acts st = (rs, st') → forallb ok rs = true →
  execute_actions fb acts acc st = (true, acc ++ rs, st').
Proof.
  induction acts as [|a acts IH]; intros acc st rs st'; cbn.
  - intros [= <- <-] _. by rewrite app_nil_r.
  - destruct (run a st) as [r st1].
    destruct (run_all acts st1) as [rs' st''] eqn:Hall.
    intros [= <- <-]. cbn. intros [Hr Hrs]%andb_prop.
    fold (ok r). rewrite Hr. rewrite (IH _ _ _ _ Hall Hrs).
    by rewrite <- app_assoc.
Qed.

Lemma execute_actions_first_failure fb pre : ∀ a post acc st rs st1 r st2,
  run_all pre st = (rs, st1) → forallb ok rs = true →
  run a st1 = (r, st2) → ok r = false →
  execute_actions fb (pre ++ a :: post) acc st
  = match fb with
    | [] => (false, acc ++ rs ++ [r], st2)
    | _ :: _ =>
        (false, acc ++ rs ++ [r; (_execute_fallback fb st2).1],
         (_execute_fallback fb st2).2)
    end.
Proof.
  induction pre as [|b pre IH]; intros a post acc st rs st1 r st2; cbn.
  - intros [= <- <-] _ -> Hr. fold (ok r). rewrite Hr.
    destruct fb; [done|]. destruct (_execute_fallback _ st2).
    cbn. by rewrite <- app_assoc.
  - destruct (run b st) as [rb stb].
    destruct (run_all pre stb) as [rs' st'] eqn:Hall.
    intros [= <- <-]. cbn. intros [Hb Hrs]%andb_prop Hr Hok.
    fold (ok rb). rewrite Hb.
    rewrite (IH _ post _ _ _ _ _ _ Hall Hrs Hr Hok).
    destruct fb; by rewrite <- !app_assoc.
Qed.

(** C3, as the code has it: the primary actions run in order and stop at
    the first that fails; the plan reports [success = true] exactly when
    every primary action succeeded, with their results in order; after a
    failure the fallback actions, if any, run in order up to the first that
    succeeds, whose result (or the [All fallback actions failed] result)
    is appended to the results collected so far, and the plan still
    reports [success = false]. *)
Theorem plan_succeeds_only_by_primary_actions plan st :
  (∀ rs st',
     run_all (actions plan) st = (rs, st') → forallb ok rs = true →
     _execute_action_plan plan st
     = (mkPlanResult true (strategy plan) rs, st')) ∧
  (∀ pre a post rs st1 r st2,
     actions plan = pre ++ a :: post →
     run_all pre st = (rs, st1) → forallb ok rs = true →
     run a st1 = (r, st2) → ok r = false →
     _execute_action_plan plan st
     = match fallback_actions plan with
       | [] => (mkPlanResult false (strategy plan) (rs ++ [r]), st2)
       | fb =>
           (mkPlanResult false (strategy plan)
              (rs ++ [r; (_execute_fallback fb st2).1]),
            (_execute_fallback fb st2).2)
       end) ∧
  (∀ pre a post st0 rs st1 r st2,
     run_all pre st0 = (rs, st1) →
     forallb (λ x, negb (succeeded x)) rs = true →
     run a st1 = (r, st2) → succeeded r = true →
     _execute_fallback (pre ++ a :: post) st0 = (r, st2)) ∧
  (∀ fb st0 rs st',
     run_all fb st0 = (rs, st') →
     forallb (λ x, negb (succeeded x)) rs = true →
     _execute_fallback fb st0 = (all_fallbacks_failed, st')).
Proof.
  split_and!.
  - intros rs st' Hall Hok. unfold _execute_action_plan.
    by rewrite (execute_actions_all_ok _ _ [] _ _ _ Hall Hok).
  - intros pre a post rs st1 r st2 Hacts Hall Hok Hr Hfail.
    unfold _execute_action_plan. rewrite Hacts.
    rewrite (execute_actions_first_failure _ _ a post [] _ _ _ _ _ Hall Hok Hr Hfail).
    by destruct (fallback_actions plan).
  - intros. by eapply fallback_first_success.
  - intros. by eapply fallback_all_failed.
Qed.

(** *** The autonomous loop *)

(** A cycle result never has a [confidence] key, so the check is never
    met. *)
Lemma check_goal_never_achieved screenshot g context st :
  _check_goal_achievement g (analyze_and_act screenshot g context st).1 = false.
Proof.
  unfold analyze_and_act.
  destruct (_analyze_situation screenshot g st) as [[raw|e] st1]; [|done].
  destruct (_find_similar_experiences g st1) as [found st2].
  destruct (analysis_of_value raw); [|done].
  destruct (experiences_of_value found); [|done].
  by destruct (_execute_action_plan _ st2).
Qed.

Lemma goal_loop_runs_out g fuel : ∀ iteration shot history st,
  let out := goal_loop g fuel iteration shot history st in
  out.1.1.1 = false ∧ out.1.1.2 = iteration + fuel ∧
  length out.1.2 = length history + fuel.
Proof.
  induction fuel as [|fuel IH]; intros iteration shot history st; cbn.
  - split_and!; [done|lia|lia].
  - match goal with
    | |- context [analyze_and_act ?s g ?c st] =>
        pose proof (check_goal_never_achieved s g c st) as Hcheck;
        destruct (analyze_and_act s g c st) as [result st1]
    end.
    cbn in Hcheck. rewrite Hcheck.
    destruct (IH (S iteration) None (history ++ [result]) st1) as (H1 & H2 & H3).
    split_and!; [done|lia|]. rewrite H3, length_app. cbn. lia.
Qed.

(** The run always uses up its iterations and reports the goal as not
    achieved, with one history entry per iteration. *)
Lemma autonomous_run_uses_all_iterations g shot max_iterations st :
  let out := (execute_goal_autonomously g shot max_iterations st).1 in
  gr_success out = false ∧ gr_goal out = g ∧
  gr_iterations out = Z.to_nat max_iterations ∧
  length (gr_history out) = Z.to_nat max_iterations.
Proof.
  unfold execute_goal_autonomously.
  pose proof (goal_loop_runs_out g (Z.to_nat max_iterations) 0 shot [] st) as H.
  destruct (goal_loop _ _ _ _ _ _) as [[[achieved iteration] history] st'].
  cbn in *. destruct H as (-> & -> & ->). done.
Qed.

End DecisionLoop.

(** *** A concrete agent on the orchestrator *)

(** A vision collaborator that is not confident, and that raises when it
    is given no screenshot. *)
Definition unsure_vision : Orchestrator.Vision :=
  λ screenshot_path prompt,
    match screenshot_path with
    | VNone => Raised "no screenshot to analyze"
    | _ => Returned (VDict [("confidence", VFloat (3 # 10))])
    end.

(** A vision collaborator that is confident and recommends nothing. *)
Definition demo_vision : Orchestrator.Vision :=
  λ screenshot_path prompt,
    Returned (VDict [ ("confidence", VFloat (9 # 10));
                      ("recommended_actions", VList []) ]).

(** The orchestrator without validator, with the memory manager
    [demo_memory] and the given vision collaborator. *)
Definition demo_exec (vision : option Orchestrator.Vision)
    : string → string → dict → Orchestrator.Orch (list string)
      → dict * Orchestrator.Orch (list string) :=
  Orchestrator.execute_secure_action None vision
    (Some Orchestrator.demo_memory) Capture.demo_clock Orchestrator.demo_repr.

Definition idle_orch : Orchestrator.Orch (list string) :=
  Orchestrator.mkOrch None false None [] [].

(** The plan decided at confidence 0.3 under the threshold 0.7. *)
Definition cautious_plan : ActionPlan :=
  _decide_action (7 # 10) "open settings" (mkAnalysis (Some (3 # 10)%Q) None)
                 [] None.

Definition remembered : dict :=
  [("id", VStr "m1"); ("success", VBool true); ("score", VFloat (8 # 10))].

(** An analysis that is confident and recommends two actions, the second
    without a tool and without parameters. *)
Definition two_recommendations : Analysis :=
  mkAnalysis (Some (9 # 10)%Q)
    (Some [ mkRecommended (Some "browser") (Some "type")
                          (Some [("text", VStr "hello")]);
            mkRecommended (Some "hands") None None ]).

Lemma decide_is_three_way_witness :
  (strategy (_decide_action (7 # 10) "open settings"
               (mkAnalysis (Some (9 # 10)%Q) None)
               [[("success", VBool false)]; remembered] None)
   = Some "proven" ∧
   actions (_decide_action (7 # 10) "open settings"
              (mkAnalysis (Some (9 # 10)%Q) None)
              [[("success", VBool false)]; remembered] None)
   = [mkAction "memory" "replay_workflow" [("memory_id", VStr "m1")]] ∧
   fallback_actions (_decide_action (7 # 10) "open settings"
                       (mkAnalysis (Some (9 # 10)%Q) None)
                       [[("success", VBool false)]; remembered] None)
   = []) ∧
  (strategy (_decide_action (7 # 10) "open settings" two_recommendations
               [[("success", VBool false)]] None)
   = Some "exploratory" ∧
   actions (_decide_action (7 # 10) "open settings" two_recommendations
              [[("success", VBool false)]] None)
   = [ mkAction "browser" "type" [("text", VStr "hello")];
       mkAction "hands" "click" [] ] ∧
   fallback_actions (_decide_action (7 # 10) "open settings"
                       two_recommendations [[("success", VBool false)]] None)
   = []) ∧
  (strategy cautious_plan = Some "cautious" ∧
   actions cautious_plan
   = [mkAction "vision" "analyze_screen"
        [("prompt",
          VStr "Provide detailed analysis of all interactive elements")]] ∧
   fallback_actions cautious_plan
   = [mkAction "memory" "search"
        [("query", VStr "alternative approaches for open settings");
         ("limit", VInt 3)]]).
Proof.
  split; [|split].
  - refine (proj1 (proj2 (proj2
      (decide_is_three_way (7 # 10) "open settings"
         (mkAnalysis (Some (9 # 10)%Q) None)
         [[("success", VBool false)]; remembered] None))) remembered _ eq_refl).
    vm_compute. discriminate.
  - refine (proj1 (proj2 (proj2 (proj2
      (decide_is_three_way (7 # 10) "open settings" two_recommendations
         [[("success", VBool false)]] None)))) _ _).
    + vm_compute. discriminate.
    + repeat constructor.
  - refine (proj1 (proj2 (proj2 (proj2 (proj2
      (decide_is_three_way (7 # 10) "open settings"
         (mkAnalysis (Some (3 # 10)%Q) None) [] None))))) _).
    vm_compute. reflexivity.
Defined.

Example cautious_plan_run :
  (_execute_action_plan (demo_exec None) cautious_plan idle_orch).1
  = mkPlanResult false (Some "cautious")
      [ [("success", VBool false); ("error", VStr "Vision AI not available")];
        [("success", VBool true);
         ("results", VDict [("total_count", VInt 0); ("results", VList [])])] ].
Proof. vm_compute. reflexivity. Qed.

Lemma plan_succeeds_only_by_primary_actions_witness :
  _execute_action_plan (demo_exec None) cautious_plan idle_orch
  = (mkPlanResult false (Some "cautious")
       [ [("success", VBool false); ("error", VStr "Vision AI not available")];
         (_execute_fallback (demo_exec None) (fallback_actions cautious_plan)
            (run (demo_exec None)
                 (mkAction "vision" "analyze_screen"
                    [("prompt",
                      VStr "Provide detailed analysis of all interactive elements")])
                 idle_orch).2).1 ],
     (_execute_fallback (demo_exec None) (fallback_actions cautious_plan)
        (run (demo_exec None)
             (mkAction "vision" "analyze_screen"
                [("prompt",
                  VStr "Provide detailed analysis of all interactive elements")])
             idle_orch).2).2).
Proof.
  refine (proj1 (proj2
    (plan_succeeds_only_by_primary_actions (demo_exec None) cautious_plan idle_orch))
    [] (mkAction "vision" "analyze_screen"
          [("prompt",
            VStr "Provide detailed analysis of all interactive elements")])
    [] [] idle_orch
    [("success", VBool false); ("error", VStr "Vision AI not available")]
    _ eq_refl eq_refl eq_refl eq_refl eq_refl).
Defined.

(** A whole cycle: the analysis has confidence 0.3, the plan is cautious,
    its re-analysis (which passes no screenshot) fails, the fallback search
    succeeds, and the plan result reports failure. *)
Example cautious_cycle_with_fallback :
  dict_get "result"
    (analyze_and_act (7 # 10) false (demo_exec (Some unsure_vision))
       "/tmp/screen.png" "open settings" None idle_orch).1
  = Some (VDict
      [ ("success", VBool false); ("strategy", VStr "cautious");
        ("results",
         VList [ VDict [("success", VBool false);
                        ("error", VStr "no screenshot to analyze")];
                 VDict [("success", VBool true);
                        ("results", VDict [("total_count", VInt 0);
                                           ("results", VList [])])] ]) ]).
Proof. vm_compute. reflexivity. Qed.

(** C3 as stated fails: the re-analysis fails, the fallback memory search
    succeeds, and the plan still reports [success = false]. *)
Lemma fallback_success_leaves_plan_failed :
  let res := (_execute_action_plan (demo_exec None) cautious_plan idle_orch).1 in
  ¬ ((∃ r, last (pr_results res) = Some r ∧ succeeded r = true) →
     pr_success res = true).
Proof.
  intros res H. assert (pr_success res = true) as Hs; [|discriminate Hs].
  apply H. eexists. split; reflexivity.
Qed.

(** C9 on the code: the vision collaborator reports confidence 0.9 and
    every cycle succeeds, yet the run does not stop after the first cycle:
    it makes all three and reports the goal as not achieved.
    [_check_goal_achievement] reads [confidence] at the top of the cycle
    result, where [analyze_and_act] never puts it. *)
Theorem confident_successful_cycles_do_not_stop_the_run :
  let out :=
    (execute_goal_autonomously (7 # 10) true (demo_exec (Some demo_vision))
       "open settings" None 3 idle_orch).1 in
  gr_success out = false ∧ gr_iterations out = 3 ∧
  length (gr_history out) = 3 ∧
  Forall (λ cycle,
            dict_get "success" cycle = Some (VBool true) ∧
            dict_get "analysis" cycle
            = Some (VDict [ ("confidence", VFloat (9 # 10));
                            ("recommended_actions", VList []) ]) ∧
            dict_get "confidence" cycle = None)
         (gr_history out).
Proof. vm_compute. split_and!; try reflexivity. repeat constructor. Qed.

End Agent.

(** ** [recorder/capture.py], continued: timing, statistics, storage *)
Module CaptureOps.
Import Capture.

(** What [get_session_stats] returns. *)
Record SessionStats : Type := mkStats {
  stats_session_id : string;
  stats_name : string;
  total_actions : nat;
  action_types : list (string * nat);
  tools_used : list (string * nat);
  total_duration_ms : Q;
  average_duration_ms : Q;
  success_count : nat;
  error_count : nat;
  success_rate : Q
}.

(** [d[k] = d.get(k, 0) + 1] *)
Fixpoint count_incr (k : string) (d : list (string * nat))
    : list (string * nat) :=
  match d with
  | [] => [(k, 1)]
  | (k', n) :: d' =>
      if String.eqb k k' then (k', S n) :: d' else (k', n) :: count_incr k d'
  end.

(** The five accumulators of the loop of [get_session_stats]. *)
Record Tally : Type := mkTally {
  t_types : list (string * nat);
  t_tools : list (string * nat);
  t_duration : Q;
  t_success : nat;
  t_error : nat
}.

Definition tally_action (t : Tally) (a : CapturedAction) : Tally :=
  mkTally (count_incr (action_type a) (t_types t))
          (count_incr (tool_name a) (t_tools t))
          (match duration_ms a with
           | Some d => if Qeq_bool d 0 then t_duration t
                       else (t_duration t + d)%Q
           | None => t_duration t
           end)
          (if success a then S (t_success t) else t_success t)
          (if success a then t_error t else S (t_error t)).

Definition tally (acts : list CapturedAction) : Tally :=
  fold_left tally_action acts (mkTally [] [] 0%Q 0 0).

Definition get_session_stats (sid : string) (w : WorkflowCapture)
    : option SessionStats :=
  match load_session sid w with
  | None => None
  | Some session =>
      let acts := actions session in
      let t := tally acts in
      let n := inject_Z (Z.of_nat (length acts)) in
      Some (mkStats (session_id session) (name session) (length acts)
              (t_types t) (t_tools t) (t_duration t)
              (match acts with [] => 0%Q | _ => (t_duration t / n)%Q end)
              (t_success t) (t_error t)
              (match acts with
               | [] => 0%Q
               | _ => (inject_Z (Z.of_nat (t_success t)) / n)%Q
               end))
  end.

Definition sum_counts (d : list (string * nat)) : nat :=
  foldr (λ kn acc, kn.2 + acc) 0 d.

(** [d.get(k, 0)] *)
Fixpoint count_of (k : string) (d : list (string * nat)) : nat :=
  match d with
  | [] => 0
  | (k', n) :: d' => if String.eqb k k' then n else count_of k d'
  end.

Lemma sum_count_incr k d : sum_counts (count_incr k d) = S (sum_counts d).
Proof.
  induction d as [|[k' n] d IH]; [done|]. cbn [count_incr].
  destruct (String.eqb k k'); unfold sum_counts in *; cbn in *; lia.
Qed.

Lemma count_of_incr k k' d :
  count_of k' (count_incr k d)
  = if String.eqb k' k then S (count_of k' d) else count_of k' d.
Proof.
  induction d as [|[k0 n] d IH]; cbn.
  - destruct (String.eqb k' k); done.
  - destruct (String.eqb k k0) eqn:E.
    + apply String.eqb_eq in E as ->. cbn. by destruct (String.eqb k' k0).
    + cbn. destruct (String.eqb k' k0) eqn:E'; [|done].
      apply String.eqb_eq in E' as ->. by rewrite String.eqb_sym, E.
Qed.

Lemma tally_fold acts : ∀ t,
  let t' := fold_left tally_action acts t in
  sum_counts (t_types t') = sum_counts (t_types t) + length acts ∧
  sum_counts (t_tools t') = sum_counts (t_tools t) + length acts ∧
  t_success t' = t_success t + length (List.filter success acts) ∧
  t_error t' = t_error t + length (List.filter (λ a, negb (success a)) acts) ∧
  (∀ k, count_of k (t_types t')
        = count_of k (t_types t)
          + length (List.filter (λ a, String.eqb k (action_type a)) acts)) ∧
  (∀ k, count_of k (t_tools t')
        = count_of k (t_tools t)
          + length (List.filter (λ a, String.eqb k (tool_name a)) acts)).
Proof.
  induction acts as [|a acts IH]; intros t; cbn.
  - split_and!; intros; lia.
  - destruct (IH (tally_action t a)) as (H1 & H2 & H3 & H4 & H5 & H6).
    cbn zeta in *. rewrite H1, H2, H3, H4. cbn [tally_action t_types t_tools
      t_success t_error]. rewrite !sum_count_incr.
    split_and!; try lia.
    + destruct (success a); cbn; lia.
    + destruct (success a); cbn; lia.
    + intros k. rewrite H5. cbn [tally_action t_types]. rewrite count_of_incr.
      destruct (String.eqb k (action_type a)); cbn; lia.
    + intros k. rewrite H6. cbn [tally_action t_tools]. rewrite count_of_incr.
      destruct (String.eqb k (tool_name a)); cbn; lia.
Qed.

Lemma filter_success_split (acts : list CapturedAction) :
  length (List.filter success acts)
  + length (List.filter (λ a, negb (success a)) acts) = length acts.
Proof.
  induction acts as [|a acts IH]; [done|]. cbn.
  destruct (success a); cbn; lia.
Qed.

Lemma ratio_in_unit_interval (k n : nat) :
  (k ≤ n)%nat → (0 < n)%nat →
  (0 <= inject_Z (Z.of_nat k) / inject_Z (Z.of_nat n))%Q ∧
  (inject_Z (Z.of_nat k) / inject_Z (Z.of_nat n) <= 1)%Q.
Proof.
  intros Hk Hn.
  assert (0 < inject_Z (Z.of_nat n))%Q as Hpos.
  { change 0%Q with (inject_Z 0). rewrite <- Zlt_Qlt. lia. }
  split.
  - apply Qle_shift_div_l; [done|]. rewrite Qmult_0_l.
    change 0%Q with (inject_Z 0). rewrite <- Zle_Qle. lia.
  - apply Qle_shift_div_r; [done|]. rewrite Qmult_1_l.
    rewrite <- Zle_Qle. lia.
Qed.

Lemma stats_of_loaded sid w session :
  load_session sid w = Some session →
  ∃ s, get_session_stats sid w = Some s ∧
    stats_session_id s = session_id session ∧ stats_name s = name session ∧
    total_actions s = length (actions session) ∧
    success_count s = length (List.filter success (actions session)) ∧
    error_count s
    = length (List.filter (λ a, negb (success a)) (actions session)) ∧
    sum_counts (action_types s) = total_actions s ∧
    sum_counts (tools_used s) = total_actions s ∧
    (∀ k, count_of k (action_types s)
          = length (List.filter (λ a, String.eqb k (action_type a))
                                (actions session))) ∧
    (∀ k, count_of k (tools_used s)
          = length (List.filter (λ a, String.eqb k (tool_name a))
                                (actions session))) ∧
    (0 <= success_rate s)%Q ∧ (success_rate s <= 1)%Q ∧
    (actions session = [] →
       success_rate s = 0%Q ∧ average_duration_ms s = 0%Q).
Proof.
  intros Hload. unfold get_session_stats. rewrite Hload.
  eexists. split; [reflexivity|]. cbv zeta.
  cbn [total_actions success_count error_count action_types tools_used
       success_rate average_duration_ms stats_session_id stats_name].
  destruct (tally_fold (actions session) (mkTally [] [] 0%Q 0 0))
    as (H1 & H2 & H3 & H4 & H5 & H6).
  cbn zeta in *. fold (tally (actions session)) in *.
  cbn [t_types t_tools t_success t_error sum_counts foldr count_of] in *.
  pose proof (filter_success_split (actions session)) as Hsplit.
  assert (Hrate : ∀ l : list CapturedAction, l = actions session →
    (0 <= match l with
          | [] => 0
          | _ :: _ => inject_Z (Z.of_nat (t_success (tally (actions session))))
                      / inject_Z (Z.of_nat (length (actions session)))
          end)%Q ∧
    (match l with
     | [] => 0
     | _ :: _ => inject_Z (Z.of_nat (t_success (tally (actions session))))
                 / inject_Z (Z.of_nat (length (actions session)))
     end <= 1)%Q).
  { intros [|a l] Hl; [done|].
    apply ratio_in_unit_interval; [lia|rewrite <- Hl; cbn; lia]. }
  split_and!.
  - reflexivity.
  - reflexivity.
  - reflexivity.
  - exact H3.
  - exact H4.
  - exact H1.
  - exact H2.
  - exact H5.
  - exact H6.
  - by apply Hrate.
  - by apply Hrate.
  - by intros ->.
Qed.

(** The statistics of a stored session are consistent: successes and
    errors add up to the number of actions, so do the counts per type and
    the counts per tool, each count is the number of actions of that type
    or tool, and the success rate lies between 0 and 1 (it is 0 for a
    session without actions, like the average duration); an id that
    [load_session] does not find has no statistics. *)
Theorem session_stats_are_consistent sid w :
  match get_session_stats sid w with
  | None => load_session sid w = None
  | Some s =>
      ∃ session,
        load_session sid w = Some session ∧
        total_actions s = length (actions session) ∧
        success_count s + error_count s = total_actions s ∧
        success_count s = length (List.filter success (actions session)) ∧
        sum_counts (action_types s) = total_actions s ∧
        sum_counts (tools_used s) = total_actions s ∧
        (∀ k, count_of k (action_types s)
              = length (List.filter (λ a, String.eqb k (action_type a))
                                    (actions session))) ∧
        (∀ k, count_of k (tools_used s)
              = length (List.filter (λ a, String.eqb k (tool_name a))
                                    (actions session))) ∧
        (0 <= success_rate s)%Q ∧ (success_rate s <= 1)%Q ∧
        (actions session = [] →
           success_rate s = 0%Q ∧ average_duration_ms s = 0%Q)
  end.
Proof.
  destruct (load_session sid w) as [session|] eqn:Hload.
  - destruct (stats_of_loaded sid w session Hload)
      as (s & -> & _ & _ & Hn & Hok & Herr & Hty & Htool & Hcty & Hctool
          & Hr0 & Hr1 & Hempty).
    exists session. pose proof (filter_success_split (actions session)).
    split_and!; try assumption; [reflexivity|lia].
  - unfold get_session_stats. by rewrite Hload.
Qed.

Lemma filter_records (f : CapturedAction → bool) (g : CaptureRequest → bool)
    acts reqs :
  (∀ a r, records_request a r → f a = g r) →
  Forall2 records_request acts reqs →
  length (List.filter f acts) = length (List.filter g reqs).
Proof.
  intros Hfg. induction 1 as [|a r acts reqs Har _ IH]; [done|].
  cbn. rewrite (Hfg a r Har). destruct (g r); cbn; by rewrite IH.
Qed.

Lemma append_cons c (s t : string) : String c s +:+ t = String c (s +:+ t).
Proof. reflexivity. Qed.

Lemma append_length (s t : string) :
  String.length (s +:+ t) = String.length s + String.length t.
Proof.
  induction s as [|c s IH]; [reflexivity|].
  rewrite append_cons. cbn. by rewrite IH.
Qed.

Lemma append_inj_l (t s1 s2 : string) : s1 +:+ t = s2 +:+ t → s1 = s2.
Proof.
  revert s2. induction s1 as [|c s1 IH]; intros [|c2 s2] H.
  - done.
  - apply (f_equal String.length) in H.
    rewrite !append_length in H. cbn in H. lia.
  - apply (f_equal String.length) in H.
    rewrite !append_length in H. cbn in H. lia.
  - rewrite !append_cons in H. injection H as -> H. by rewrite (IH _ H).
Qed.

Lemma session_file_inj sid1 sid2 :
  session_file sid1 = session_file sid2 → sid1 = sid2.
Proof. apply append_inj_l. Qed.

Section Operations.

Variable time_at : nat → Q.
Variable fs_writable : string → bool.

(** *** What one [capture_action] does *)

Lemma capture_action_effect ty tool params res ok err w cur :
  is_recording w = true → current_session w = Some cur →
  let out := capture_action time_at ty tool params res ok err w in
  let key := action_key ty tool in
  let timed := action_start_times w !! key in
  let shot :=
    capture_screenshots w && bool_decide (ty ∈ ["vision"; "browser"; "hands"]) in
  out.1 = Some ("action_" +:+ pretty (S (length (actions cur)))) ∧
  is_recording out.2 = true ∧
  capture_screenshots out.2 = capture_screenshots w ∧
  action_start_times out.2 = delete key (action_start_times w) ∧
  ∃ a, current_session out.2 = Some (append_action a cur) ∧
       action_type a = ty ∧ tool_name a = tool ∧ parameters a = params ∧
       success a = ok ∧ error a = err ∧
       duration_ms a
       = (λ t0, ((time_at (ticks w) - t0) * 1000)%Q) <$> timed ∧
       (is_Some (screenshot_path a) ↔ shot = true) ∧
       result a = match res with Some ((_ :: _) as r) => Some r | _ => None end.
Proof.
  intros Hrec Hcur. unfold capture_action. rewrite Hrec, Hcur.
  destruct (action_start_times w !! action_key ty tool) as [t0|] eqn:Ht;
    cbn [now set_ticks set_action_start_times ticks capture_screenshots];
    destruct (capture_screenshots w && bool_decide (ty ∈ ["vision"; "browser"; "hands"]));
    cbn; rewrite ?Hrec, ?length_app, ?Nat.add_1_r;
    (split_and!; try done; try (by rewrite delete_id));
    eexists; (split; [reflexivity|]); cbn;
    split_and!; try done; split; try done; intros [? ?]; done.
Qed.

(** While a session is recorded, [capture_action] returns the id
    [action_N] of the [N]-th action of the session and appends the action
    with the duration measured from the [mark_action_start] of the same
    type and tool, if there was one; it consumes that timing entry, so a
    second capture of the same type and tool without a new mark has no
    duration.  A screenshot path is reserved exactly when screenshots are
    enabled and the type is [vision], [browser] or [hands]. *)
Theorem timing_entry_is_used_once ty tool p1 r1 ok1 e1 p2 r2 ok2 e2 w cur :
  is_recording w = true → current_session w = Some cur →
  let w1 := mark_action_start time_at ty tool w in
  let out1 := capture_action time_at ty tool p1 r1 ok1 e1 w1 in
  let out2 := capture_action time_at ty tool p2 r2 ok2 e2 out1.2 in
  out1.1 = Some ("action_" +:+ pretty (S (length (actions cur)))) ∧
  out2.1 = Some ("action_" +:+ pretty (S (S (length (actions cur))))) ∧
  action_start_times out1.2 !! action_key ty tool = None ∧
  ∃ a1 a2,
    current_session out2.2
    = Some (append_action a2 (append_action a1 cur)) ∧
    duration_ms a1
    = Some ((time_at (S (ticks w)) - time_at (ticks w)) * 1000)%Q ∧
    duration_ms a2 = None ∧
    (is_Some (screenshot_path a1) ↔
     capture_screenshots w && bool_decide (ty ∈ ["vision"; "browser"; "hands"])
     = true).
Proof.
  intros Hrec Hcur w1 out1 out2.
  destruct (capture_action_effect ty tool p1 r1 ok1 e1 w1 cur Hrec Hcur)
    as (Hid1 & Hrec1 & Hshot1 & Htimes1 & a1 & Hcur1 & _ & _ & _ & _ & _ & Hd1 & Hs1 & _).
  cbn zeta in *. fold out1 in Hid1, Hrec1, Hshot1, Htimes1, Hcur1.
  destruct (capture_action_effect ty tool p2 r2 ok2 e2 out1.2 _ Hrec1 Hcur1)
    as (Hid2 & _ & _ & _ & a2 & Hcur2 & _ & _ & _ & _ & _ & Hd2 & _).
  cbn zeta in *. fold out2 in Hid2, Hcur2.
  assert (action_start_times out1.2 !! action_key ty tool = None) as Hgone.
  { rewrite Htimes1. apply lookup_delete_eq. }
  split_and!; [done| |done|].
  - rewrite Hid2. cbn. by rewrite length_app, Nat.add_1_r.
  - exists a1, a2. split_and!; [done| | |done].
    + rewrite Hd1. unfold w1, mark_action_start. cbn. by rewrite lookup_insert_eq.
    + by rewrite Hd2, Hgone.
Qed.


(** *** Nothing active *)

(** While no session is active, [capture_action] and [stop_recording]
    return [None] and leave the recorder as it is, whatever the number of
    calls: nothing is recorded, no clock is read, no file is written. *)
Theorem inactive_recorder_ignores_captures w :
  active w = None →
  (∀ ty tool params res ok err,
     capture_action time_at ty tool params res ok err w = (None, w)) ∧
  stop_recording time_at fs_writable w = (Returned None, w) ∧
  (∀ rs, run_calls time_at (map Capture rs) w = w).
Proof.
  intros Hact. split_and!.
  - intros. by apply capture_action_inactive.
  - by apply stop_recording_inactive.
  - induction rs as [|r rs IH]; [done|].
    cbn [map]. rewrite run_calls_cons. cbn [run_call].
    by rewrite capture_action_inactive.
Qed.


(** *** A recording, from start to stop *)

Lemma recorded_session_stored nm md cs w0 sid w1 r w2 :
  start_recording time_at fs_writable nm md w0 = (Returned sid, w1) →
  stop_recording time_at fs_writable (run_calls time_at cs w1)
  = (Returned r, w2) →
  r = Some sid ∧ is_recording w2 = false ∧
  ∃ t t' md' acts,
    storage w2
    = <[session_file sid
        := session_data (mkSession sid nm t (Some t') acts md')]> (storage w1) ∧
    Forall2 records_request acts (captured cs).
Proof.
  intros Hstart Hstop.
  destruct (start_recording_returned _ _ _ _ _ _ _ Hstart)
    as (Hrec & t & md' & Hcur).
  destruct (run_calls_active time_at cs w1 _ Hrec Hcur)
    as (new & Hcur' & Hrec' & Hst' & Hnew).
  cbn [session_id name started_at ended_at actions metadata app] in Hcur'.
  pose proof (stop_recording_active time_at fs_writable _ _ Hrec' Hcur') as Hact.
  cbn zeta in Hact. cbn [session_id] in Hact.
  destruct (fs_writable (session_file sid)); destruct Hact as (w' & Hw' & Hact).
  - rewrite Hw' in Hstop. injection Hstop as <- <-.
    destruct Hact as (Hoff & _ & Hst & _).
    split_and!; [done|done|].
    eexists t, _, md', new. rewrite Hst, Hst'. by split.
  - rewrite Hw' in Hstop. discriminate.
Qed.

(** The statistics of a recording count its [capture_action] calls: after
    [start_recording], any calls and a [stop_recording] that returns,
    [get_session_stats] of the session reports as many actions as there
    were captures, as many successes as captures with [success=True], and
    per type and per tool the number of captures of that type and tool. *)
Theorem stats_count_the_captured_calls nm md cs w0 sid w1 r w2 :
  start_recording time_at fs_writable nm md w0 = (Returned sid, w1) →
  stop_recording time_at fs_writable (run_calls time_at cs w1)
  = (Returned r, w2) →
  ∃ s, get_session_stats sid w2 = Some s ∧
    stats_session_id s = sid ∧ stats_name s = nm ∧
    total_actions s = length (captured cs) ∧
    success_count s = length (List.filter req_success (captured cs)) ∧
    error_count s
    = length (List.filter (λ q, negb (req_success q)) (captured cs)) ∧
    (∀ k, count_of k (action_types s)
          = length (List.filter (λ q, String.eqb k (req_type q)) (captured cs))) ∧
    (∀ k, count_of k (tools_used s)
          = length (List.filter (λ q, String.eqb k (req_tool q)) (captured cs))).
Proof.
  intros Hstart Hstop.
  destruct (recorded_session_stored _ _ _ _ _ _ _ _ Hstart Hstop)
    as (_ & _ & t & t' & md' & acts & Hst & Hacts).
  assert (load_session sid w2
          = Some (mkSession sid nm t (Some t') acts md')) as Hload.
  { apply load_session_saved. rewrite Hst. apply lookup_insert_eq. }
  destruct (stats_of_loaded _ _ _ Hload)
    as (s & Hs & Hid & Hnm & Hn & Hok & Herr & _ & _ & Hcty & Hctool & _).
  cbn [session_id name actions] in *.
  exists s. split_and!; try done.
  - rewrite Hn. by eapply Forall2_length.
  - rewrite Hok. apply filter_records; [|done]. by intros a q (_ & _ & _ & -> & _).
  - rewrite Herr. apply filter_records; [|done]. by intros a q (_ & _ & _ & -> & _).
  - intros k. rewrite Hcty. apply filter_records; [|done].
    by intros a q (-> & _).
  - intros k. rewrite Hctool. apply filter_records; [|done].
    by intros a q (_ & -> & _).
Qed.

(** Session ids are not unique: two recordings started within the same
    second under names that agree up to spaces and underscores get the
    same id, and the second [stop_recording] overwrites the file of the
    first, so that [load_session] of the shared id yields the second
    recording, under its name and with its actions only. *)
Theorem sessions_of_one_second_share_an_id
    nm1 md1 cs1 nm2 md2 cs2 w0 sid1 w1 r1 w2 sid2 w3 r2 w4 :
  is_recording w0 = false →
  start_recording time_at fs_writable nm1 md1 w0 = (Returned sid1, w1) →
  stop_recording time_at fs_writable (run_calls time_at cs1 w1)
  = (Returned r1, w2) →
  start_recording time_at fs_writable nm2 md2 w2 = (Returned sid2, w3) →
  stop_recording time_at fs_writable (run_calls time_at cs2 w3)
  = (Returned r2, w4) →
  py_int (time_at (ticks w0)) = py_int (time_at (ticks w2)) →
  replace_char " " "_" nm1 = replace_char " " "_" nm2 →
  sid2 = sid1 ∧ r1 = Some sid1 ∧ r2 = Some sid1 ∧
  ∃ session,
    load_session sid1 w4 = Some session ∧ name session = nm2 ∧
    Forall2 records_request (actions session) (captured cs2).
Proof.
  intros Hoff Hstart1 Hstop1 Hstart2 Hstop2 Htime Hname.
  destruct (recorded_session_stored _ _ _ _ _ _ _ _ Hstart1 Hstop1)
    as (-> & Hoff2 & _).
  destruct (recorded_session_stored _ _ _ _ _ _ _ _ Hstart2 Hstop2)
    as (-> & _ & t & t' & md' & acts & Hst & Hacts).
  destruct (start_recording_fresh time_at fs_writable nm1 md1 w0 (None, w0))
    as (? & H1 & _); [by rewrite Hoff|].
  destruct (start_recording_fresh time_at fs_writable nm2 md2 w2 (None, w2))
    as (? & H2 & _); [by rewrite Hoff2|].
  cbn [fst snd] in H1, H2.
  rewrite H1 in Hstart1. rewrite H2 in Hstart2.
  injection Hstart1 as <- _. injection Hstart2 as <- _.
  assert (new_session_id (time_at (ticks w2)) nm2
          = new_session_id (time_at (ticks w0)) nm1) as Hid.
  { unfold new_session_id. by rewrite Htime, Hname. }
  split_and!; [done|done|by rewrite Hid|].
  rewrite <- Hid. eexists. split_and!.
  - apply load_session_saved. rewrite Hst. apply lookup_insert_eq.
  - done.
  - done.
Qed.

(** Only the file of the active session is ever written: no operation of
    the recorder changes what [load_session] returns for the id of
    another session. *)
Theorem other_sessions_are_untouched other w :
  (∀ cur, active w = Some cur → session_id cur ≠ other) →
  (∀ ty tool,
     load_session other (mark_action_start time_at ty tool w)
     = load_session other w) ∧
  (∀ ty tool params res ok err,
     load_session other (capture_action time_at ty tool params res ok err w).2
     = load_session other w) ∧
  load_session other (stop_recording time_at fs_writable w).2
  = load_session other w ∧
  (∀ nm md,
     load_session other (start_recording time_at fs_writable nm md w).2
     = load_session other w).
Proof.
  intros Hother.
  assert (load_session other (stop_recording time_at fs_writable w).2
          = load_session other w) as Hstop.
  { destruct (active w) as [cur|] eqn:Hact.
    - unfold active in Hact. destruct (is_recording w) eqn:Hrec; [|done].
      pose proof (stop_recording_active time_at fs_writable w cur Hrec Hact) as H.
      cbn zeta in H.
      destruct (fs_writable (session_file (session_id cur)));
        destruct H as (w' & -> & H); cbn [snd]; unfold load_session.
      + destruct H as (_ & _ & -> & _).
        rewrite lookup_insert_ne; [done|].
        intros E. apply session_file_inj in E.
        by apply (Hother cur).
      + destruct H as (_ & _ & ->). done.
    - by rewrite stop_recording_inactive. }
  split_and!.
  - done.
  - intros. destruct (active w) as [cur|] eqn:Hact.
    + unfold active in Hact. destruct (is_recording w) eqn:Hrec; [|done].
      destruct (capture_action_active time_at ty tool params res ok err w cur
                  Hrec Hact) as (a & _ & _ & Hst & _).
      unfold load_session. by rewrite Hst.
    + by rewrite capture_action_inactive.
  - done.
  - intros nm md. unfold start_recording.
    destruct (is_recording w) eqn:Hrec.
    + destruct (stop_recording time_at fs_writable w) as [[r|e] w'] eqn:Hs;
        cbn [snd] in Hstop; cbn; done.
    + cbn. done.
Qed.

End Operations.

Lemma timing_entry_is_used_once_witness :
  ∃ a1 a2,
    current_session
      (capture_action demo_clock "browser" "click" [("selector", VStr "#b")]
         None true None
         (capture_action demo_clock "browser" "click" [("selector", VStr "#a")]
            None true None
            (mark_action_start demo_clock "browser" "click" demo_started.2)).2).2
    = Some (append_action a2 (append_action a1
              (mkSession "session_1700000000_my_flow" "my flow"
                         (demo_clock 1) None [] []))) ∧
    duration_ms a1 = Some ((demo_clock 3 - demo_clock 2) * 1000)%Q ∧
    duration_ms a2 = None ∧
    (is_Some (screenshot_path a1) ↔ true = true).
Proof.
  exact (proj2 (proj2 (proj2
    (timing_entry_is_used_once demo_clock "browser" "click"
       [("selector", VStr "#a")] None true None
       [("selector", VStr "#b")] None true None
       demo_started.2
       (mkSession "session_1700000000_my_flow" "my flow" (demo_clock 1) None [] [])
       eq_refl eq_refl)))).
Defined.

Lemma inactive_recorder_witness :
  stop_recording demo_clock (λ _, true) (init "rec" true)
  = (Returned None, init "rec" true).
Proof.
  exact (proj1 (proj2
    (inactive_recorder_ignores_captures demo_clock (λ _, true)
       (init "rec" true) eq_refl))).
Defined.

(** A clock that advances by a tenth of a second at each reading. *)
Definition tenth_clock (n : nat) : Q :=
  (1700000000 + inject_Z (Z.of_nat n) / 10)%Q.

Definition first_take : list RecorderCall :=
  [Capture (mkRequest "browser" "click" [("selector", VStr "#a")] None true None)].

Definition second_take : list RecorderCall :=
  [Capture (mkRequest "hands" "type" [("text", VStr "x")] None false
                      (Some "no window"))].

Definition first_started : Exc string * WorkflowCapture :=
  start_recording tenth_clock (λ _, true) "my flow" None (init "rec" false).

Definition first_stopped : Exc (option string) * WorkflowCapture :=
  stop_recording tenth_clock (λ _, true)
                 (run_calls tenth_clock first_take first_started.2).

Definition second_started : Exc string * WorkflowCapture :=
  start_recording tenth_clock (λ _, true) "my_flow" None first_stopped.2.

Definition second_stopped : Exc (option string) * WorkflowCapture :=
  stop_recording tenth_clock (λ _, true)
                 (run_calls tenth_clock second_take second_started.2).

Lemma stats_count_the_captured_calls_witness :
  ∃ s, get_session_stats "session_1700000000_my_flow" demo_stopped.2 = Some s ∧
    stats_session_id s = "session_1700000000_my_flow" ∧ stats_name s = "my flow" ∧
    total_actions s = length (captured demo_calls) ∧
    success_count s = length (List.filter req_success (captured demo_calls)) ∧
    error_count s
    = length (List.filter (λ q, negb (req_success q)) (captured demo_calls)) ∧
    (∀ k, count_of k (action_types s)
          = length (List.filter (λ q, String.eqb k (req_type q))
                                (captured demo_calls))) ∧
    (∀ k, count_of k (tools_used s)
          = length (List.filter (λ q, String.eqb k (req_tool q))
                                (captured demo_calls))).
Proof.
  apply (stats_count_the_captured_calls demo_clock (λ _, true) "my flow" None
           demo_calls (init "rec" true) "session_1700000000_my_flow"
           demo_started.2 (Some "session_1700000000_my_flow") demo_stopped.2);
    vm_compute; reflexivity.
Defined.

Lemma sessions_of_one_second_witness :
  "session_1700000000_my_flow" = "session_1700000000_my_flow" ∧
  Some "session_1700000000_my_flow" = Some "session_1700000000_my_flow" ∧
  Some "session_1700000000_my_flow" = Some "session_1700000000_my_flow" ∧
  ∃ session,
    load_session "session_1700000000_my_flow" second_stopped.2 = Some session ∧
    name session = "my_flow" ∧
    Forall2 records_request (actions session) (captured second_take).
Proof.
  apply (sessions_of_one_second_share_an_id tenth_clock (λ _, true)
           "my flow" None first_take "my_flow" None second_take
           (init "rec" false)
           "session_1700000000_my_flow" first_started.2
           (Some "session_1700000000_my_flow") first_stopped.2
           "session_1700000000_my_flow" second_started.2
           (Some "session_1700000000_my_flow") second_stopped.2);
    vm_compute; reflexivity.
Defined.

Lemma other_sessions_are_untouched_witness :
  load_session "session_1700000000_my_flow"
    (stop_recording demo_clock (λ _, true) demo_restarted.2).2
  = load_session "session_1700000000_my_flow" demo_restarted.2.
Proof.
  refine (proj1 (proj2 (proj2
    (other_sessions_are_untouched demo_clock (λ _, true)
       "session_1700000000_my_flow" demo_restarted.2 _)))).
  intros cur H. vm_compute in H. injection H as <-.
  intros E. vm_compute in E. discriminate E.
Defined.

End CaptureOps.

(** ** [recorder/workflow_generator.py], continued: the passes over the steps *)
Module GeneratorOps.
Import WorkflowGen.

(** *** [_optimize_steps] *)

(** No step repeats the action and the parameters of the step before it. *)
Fixpoint no_adjacent_redundant (steps : list Step) : Prop :=
  match steps with
  | s1 :: ((s2 :: _) as rest) =>
      _is_redundant s1 s2 = false ∧ no_adjacent_redundant rest
  | _ => True
  end.

Lemma optimize_from_app steps : ∀ prev optimized,
  optimize_from prev optimized steps
  = optimized ++ optimize_from prev [] steps.
Proof.
  induction steps as [|s steps IH]; intros prev optimized; cbn.
  - by rewrite app_nil_r.
  - destruct prev as [p|].
    + destruct (_is_redundant p s); [apply IH|].
      rewrite (IH (Some s) (optimized ++ [s])), (IH (Some s) [s]).
      by rewrite <- app_assoc.
    + rewrite (IH (Some s) (optimized ++ [s])), (IH (Some s) [s]).
      by rewrite <- app_assoc.
Qed.

Lemma optimize_from_cons prev s steps :
  optimize_from prev [] (s :: steps)
  = match prev with
    | Some p =>
        if _is_redundant p s then optimize_from prev [] steps
        else s :: optimize_from (Some s) [] steps
    | None => s :: optimize_from (Some s) [] steps
    end.
Proof.
  cbn. destruct prev as [p|]; [destruct (_is_redundant p s); [done|]|];
    by rewrite optimize_from_app.
Qed.

Lemma optimize_from_sublist steps : ∀ prev,
  sublist (optimize_from prev [] steps) steps.
Proof.
  induction steps as [|s steps IH]; intros prev; [done|].
  rewrite optimize_from_cons. destruct prev as [p|].
  - destruct (_is_redundant p s).
    + by apply sublist_cons.
    + by apply sublist_skip.
  - by apply sublist_skip.
Qed.

Lemma optimize_from_no_adjacent steps : ∀ p,
  no_adjacent_redundant (p :: optimize_from (Some p) [] steps).
Proof.
  induction steps as [|s steps IH]; intros p; [done|].
  rewrite optimize_from_cons. destruct (_is_redundant p s) eqn:E; [apply IH|].
  split; [done|apply IH].
Qed.

Lemma optimize_from_fixed steps : ∀ p,
  no_adjacent_redundant (p :: steps) →
  optimize_from (Some p) [] steps = steps.
Proof.
  induction steps as [|s steps IH]; intros p H; [done|].
  rewrite optimize_from_cons. destruct H as [-> H]. by rewrite IH.
Qed.

Lemma optimize_from_covers steps : ∀ p s,
  s ∈ steps →
  s ∈ optimize_from (Some p) [] steps ∨
  ∃ kept, kept ∈ p :: optimize_from (Some p) [] steps ∧
          _is_redundant kept s = true.
Proof.
  induction steps as [|x steps IH]; intros p s Hs; [by apply elem_of_nil in Hs|].
  rewrite optimize_from_cons. apply elem_of_cons in Hs as [->|Hs].
  - destruct (_is_redundant p x) eqn:E.
    + right. exists p. split; [left|done].
    + left. left.
  - destruct (_is_redundant p x) eqn:E.
    + by apply IH.
    + destruct (IH x s Hs) as [H|(kept & Hk & Hr)].
      * left. by right.
      * right. exists kept. split; [by right|done].
Qed.

(** [_optimize_steps] only removes steps, and only repeats: its output is
    a subsequence of its input that starts with the same step, no step of
    the output repeats its predecessor, every step of the input is in the
    output or repeats (in action and parameters) a step of the output,
    and a second pass changes nothing. *)
Theorem optimize_steps_removes_adjacent_repeats steps :
  sublist (_optimize_steps steps) steps ∧
  head (_optimize_steps steps) = head steps ∧
  no_adjacent_redundant (_optimize_steps steps) ∧
  (∀ s, s ∈ steps →
        s ∈ _optimize_steps steps ∨
        ∃ kept, kept ∈ _optimize_steps steps ∧ _is_redundant kept s = true) ∧
  _optimize_steps (_optimize_steps steps) = _optimize_steps steps.
Proof.
  unfold _optimize_steps. split; [apply optimize_from_sublist|].
  destruct steps as [|s steps]; [by split_and!; [| |intros ? ?%elem_of_nil|]|].
  rewrite optimize_from_cons.
  pose proof (optimize_from_no_adjacent steps s) as Hno.
  split_and!.
  - done.
  - done.
  - intros x [->|Hx]%elem_of_cons; [left; left|].
    destruct (optimize_from_covers steps s x Hx) as [H|H]; [left; by right|by right].
  - rewrite optimize_from_cons. f_equal. by apply optimize_from_fixed.
Qed.

Lemma redundant_with_a_loop p n1 k1 b1 n2 k2 b2 :
  _is_redundant p (LoopStep n1 k1 b1) = _is_redundant p (LoopStep n2 k2 b2).
Proof. reflexivity. Qed.

Lemma optimize_from_adjacent_loops pre n1 k1 b1 n2 k2 b2 post : ∀ prev,
  optimize_from prev [] (pre ++ LoopStep n1 k1 b1 :: LoopStep n2 k2 b2 :: post)
  = optimize_from prev [] (pre ++ LoopStep n1 k1 b1 :: post).
Proof.
  induction pre as [|s pre IH]; intros prev.
  - cbn [app]. rewrite !(optimize_from_cons prev).
    destruct prev as [p|].
    + rewrite (redundant_with_a_loop p n1 k1 b1 n2 k2 b2).
      destruct (_is_redundant p (LoopStep n2 k2 b2)) eqn:E.
      * reflexivity.
      * by rewrite optimize_from_cons.
    + by rewrite optimize_from_cons.
  - cbn [app]. rewrite !(optimize_from_cons prev).
    destruct prev as [p|]; [destruct (_is_redundant p s)|]; by rewrite ?IH.
Qed.

(** Two loop steps never differ for [_is_redundant], which compares the
    action ([loop]) and the parameters (a loop has none): of two adjacent
    loops [_optimize_steps] keeps the first only, whatever their bodies
    and iteration counts. *)
Theorem second_of_adjacent_loops_is_dropped pre n1 k1 b1 n2 k2 b2 post :
  _optimize_steps (pre ++ LoopStep n1 k1 b1 :: LoopStep n2 k2 b2 :: post)
  = _optimize_steps (pre ++ LoopStep n1 k1 b1 :: post).
Proof. apply optimize_from_adjacent_loops. Qed.

(** A recording whose tool calls go A B A B X A B X is folded into a loop
    over A B followed by a loop over A B X; the second loop is dropped,
    and the workflow has 5 of the 8 recorded calls. *)
Example adjacent_loops_in_a_generated_workflow :
  let acts :=
    [ recorded "browser" "click" [("selector", VStr "#1")] true;
      recorded "browser" "type" [("text", VStr "a")] true;
      recorded "browser" "click" [("selector", VStr "#2")] true;
      recorded "browser" "type" [("text", VStr "b")] true;
      recorded "browser" "submit" [] true;
      recorded "browser" "click" [("selector", VStr "#3")] true;
      recorded "browser" "type" [("text", VStr "c")] true;
      recorded "browser" "submit" [] true ] in
  map step_action (_detect_and_optimize_loops (_convert_actions_to_steps acts []))
  = ["loop"; "loop"; "browser.click"; "browser.type"; "browser.submit"] ∧
  map step_action
      (wf_steps (generate_workflow first_seen_order (mkConfig true false true)
                                   (session_of acts) None))
  = ["loop"; "browser.click"; "browser.type"; "browser.submit"].
Proof. vm_compute. done. Qed.

(** *** [_detect_and_optimize_loops] *)

Definition ids (steps : list Step) : list string := map step_action steps.

Lemma forallb_zip_ids (l1 l2 : list Step) :
  length l1 = length l2 →
  forallb (λ pn, String.eqb (step_action pn.1) (step_action pn.2)) (zip l1 l2)
  = true →
  ids l1 = ids l2.
Proof.
  revert l2. induction l1 as [|x l1 IH]; intros [|y l2] Hlen H; try done.
  cbn in H. apply andb_prop in H as [Hxy H]. apply String.eqb_eq in Hxy.
  cbn. rewrite Hxy. f_equal. apply IH; [by injection Hlen|done].
Qed.

Lemma slice_length steps (i n : nat) :
  (i + n ≤ length steps)%nat → length (slice steps i n) = n.
Proof. intros H. unfold slice. rewrite length_take, length_drop. lia. Qed.

(** What a successful [_is_pattern_repeating] says. *)
Lemma is_pattern_repeating_true steps (i p : nat) :
  _is_pattern_repeating steps i p = true →
  (i + p * 2 ≤ length steps)%nat ∧
  ids (slice steps i p) = ids (slice steps (i + p) p).
Proof.
  unfold _is_pattern_repeating.
  destruct (length steps <? i + p * 2)%nat eqn:E; [done|].
  apply Nat.ltb_ge in E. intros H. split; [done|].
  apply forallb_zip_ids; [|done]. rewrite !slice_length; lia.
Qed.

Lemma find_pattern_length_found steps (i : nat) :
  (1 < _find_pattern_length steps i)%nat →
  _is_pattern_repeating steps i (_find_pattern_length steps i) = true ∧
  (_find_pattern_length steps i ≤ 10)%nat.
Proof.
  unfold _find_pattern_length.
  destruct (find _ _) as [p|] eqn:E; [|lia].
  apply find_some in E as [Hin Hp]. apply in_seq in Hin. intros _.
  split; [done|lia].
Qed.

(** The turns of the loop of [_count_pattern_repeats]: the count grows by
    the number of consecutive positions at which the pattern repeats. *)
Lemma count_repeats_from_spec steps p : ∀ fuel count idx,
  ∃ k, count_repeats_from fuel steps p count idx = count + k ∧
       ∀ j, (j < k)%nat → _is_pattern_repeating steps (idx + j * p) p = true.
Proof.
  induction fuel as [|fuel IH]; intros count idx; cbn [count_repeats_from].
  - exists 0. split; [lia|]. intros j Hj. lia.
  - destruct (idx + p <=? length steps)%nat; [|exists 0; split; [lia|intros; lia]].
    destruct (_is_pattern_repeating steps idx p) eqn:E;
      [|exists 0; split; [lia|intros; lia]].
    destruct (IH (S count) (idx + p)) as (k & Hk & Hrep).
    exists (S k). split; [lia|].
    intros [|j] Hj.
    + by rewrite Nat.add_0_r.
    + replace (idx + S j * p) with (idx + p + j * p) by lia. apply Hrep. lia.
Qed.

Lemma count_pattern_repeats_spec steps (i p : nat) :
  _is_pattern_repeating steps i p = true →
  ∀ j, (j < _count_pattern_repeats steps i p)%nat →
       _is_pattern_repeating steps (i + j * p) p = true.
Proof.
  intros Hfirst j Hj. unfold _count_pattern_repeats in Hj.
  destruct (count_repeats_from_spec steps p (S (length steps)) 0 i)
    as (k & Hk & Hrep).
  rewrite Hk in Hj. destruct j as [|j].
  - by rewrite Nat.add_0_r.
  - apply Hrep. lia.
Qed.

(** [iterations] passes over the body of a loop. *)
Fixpoint repeat_body (k : nat) (body : list Step) : list Step :=
  match k with
  | O => []
  | S k' => body ++ repeat_body k' body
  end.

(** The steps a workflow stands for, its loops unrolled. *)
Definition unroll_step (s : Step) : list Step :=
  match s with
  | LoopStep _ k body => repeat_body k body
  | ActionStep _ _ _ _ _ _ => [s]
  end.

Definition unroll (steps : list Step) : list Step := flat_map unroll_step steps.

Definition is_action_step (s : Step) : Prop :=
  match s with ActionStep _ _ _ _ _ _ => True | LoopStep _ _ _ => False end.

Lemma ids_app l1 l2 : ids (l1 ++ l2) = ids l1 ++ ids l2.
Proof. apply map_app. Qed.

Lemma ids_repeat_body k body body' :
  ids body = ids body' → ids (repeat_body k body) = ids (repeat_body k body').
Proof.
  intros H. induction k as [|k IH]; [done|].
  cbn. by rewrite !ids_app, H, IH.
Qed.

Lemma take_add_app {A} (l : list A) (a b : nat) :
  take (a + b) l = take a l ++ take b (drop a l).
Proof.
  revert l. induction a as [|a IH]; intros [|x l]; cbn; try done.
  - by rewrite take_nil.
  - by rewrite IH.
Qed.

(** A stretch of [k] blocks that each repeat in the next one has the
    actions of [k] passes over the first block. *)
Lemma repeated_blocks_ids steps p : ∀ k i,
  (∀ j, (j < k)%nat → _is_pattern_repeating steps (i + j * p) p = true) →
  ids (slice steps i (p * k)) = ids (repeat_body k (slice steps i p)).
Proof.
  induction k as [|k IH]; intros i Hrep.
  - unfold slice. by rewrite Nat.mul_0_r, take_0.
  - unfold slice in *. replace (p * S k) with (p + p * k) by lia.
    rewrite take_add_app, drop_drop, ids_app. cbn [repeat_body].
    rewrite ids_app. f_equal.
    rewrite (IH (i + p)).
    + apply ids_repeat_body. symmetry.
      destruct (is_pattern_repeating_true steps i p) as [_ H]; [|done].
      specialize (Hrep 0). rewrite Nat.add_0_r in Hrep. apply Hrep. lia.
    + intros j Hj. replace (i + p + j * p) with (i + S j * p) by lia.
      apply Hrep. lia.
Qed.

Lemma unroll_app l1 l2 : unroll (l1 ++ l2) = unroll l1 ++ unroll l2.
Proof. apply flat_map_app. Qed.

(** What a loop step of the output is made of. *)
Definition loop_of (steps : list Step) (s : Step) : Prop :=
  match s with
  | ActionStep _ _ _ _ _ _ => s ∈ steps
  | LoopStep _ k body =>
      (1 ≤ k)%nat ∧ (2 ≤ length body ≤ 10)%nat ∧
      ∃ i, body = slice steps i (length body) ∧
           (i + length body * (k + 1) ≤ length steps)%nat
  end.

Lemma detect_from_unrolled steps :
  Forall is_action_step steps →
  ∀ fuel i optimized,
    (length steps - i ≤ fuel)%nat →
    ids (unroll (detect_from fuel steps i optimized))
    = ids (unroll optimized) ++ ids (drop i steps).
Proof.
  intros Hact. induction fuel as [|fuel IH]; intros i optimized Hfuel.
  - cbn. rewrite drop_ge by lia. by rewrite app_nil_r.
  - rewrite detect_from_step.
    destruct (steps !! i) as [s|] eqn:Hi.
    + pose proof (lookup_lt_Some _ _ _ Hi) as Hlt. cbv zeta.
      destruct (1 <? _find_pattern_length steps i)%nat eqn:Hp.
      * apply Nat.ltb_lt in Hp.
        destruct (find_pattern_length_found steps i Hp) as [Hrep _].
        set (p := _find_pattern_length steps i) in *.
        set (k := _count_pattern_repeats steps i p).
        pose proof (count_pattern_repeats_positive steps i p) as Hk.
        fold k in Hk.
        rewrite IH by nia.
        rewrite unroll_app, ids_app. cbn [unroll flat_map unroll_step].
        rewrite app_nil_r, <- app_assoc. f_equal.
        rewrite <- (repeated_blocks_ids steps p k i)
          by (apply count_pattern_repeats_spec; done).
        unfold slice. rewrite <- ids_app.
        rewrite <- (drop_drop steps (p * k) i).
        by rewrite take_drop.
      * rewrite IH by lia.
        rewrite unroll_app, ids_app, <- app_assoc. f_equal.
        rewrite (drop_S _ _ _ Hi). rewrite Nat.add_1_r.
        assert (is_action_step s) as Hs.
        { eapply Forall_forall; [done|]. by eapply list_elem_of_lookup_2. }
        destruct s; [done|done].
    + rewrite drop_ge; [by rewrite app_nil_r|]. by apply lookup_ge_None.
Qed.

Lemma detect_from_loops steps :
  Forall is_action_step steps →
  ∀ fuel i optimized,
    Forall (loop_of steps) optimized →
    Forall (loop_of steps) (detect_from fuel steps i optimized).
Proof.
  intros Hact. induction fuel as [|fuel IH]; intros i optimized Hopt; [done|].
  rewrite detect_from_step.
  destruct (steps !! i) as [s|] eqn:Hi; [|done]. cbv zeta.
  destruct (1 <? _find_pattern_length steps i)%nat eqn:Hp.
  - apply Nat.ltb_lt in Hp.
    destruct (find_pattern_length_found steps i Hp) as [Hrep Hten].
    set (p := _find_pattern_length steps i) in *.
    set (k := _count_pattern_repeats steps i p).
    pose proof (count_pattern_repeats_positive steps i p) as Hk. fold k in Hk.
    apply IH. apply Forall_app. split; [done|]. apply Forall_singleton.
    pose proof (count_pattern_repeats_spec steps i p Hrep (k - 1)) as Hlast.
    destruct (is_pattern_repeating_true steps (i + (k - 1) * p) p) as [Hlen _];
      [apply Hlast; unfold k; lia|].
    assert (length (slice steps i p) = p) as Hbody.
    { apply slice_length. nia. }
    cbn. rewrite Hbody. split_and!; [done|lia|lia|].
    exists i. split; [done|nia].
  - apply IH. apply Forall_app. split; [done|]. apply Forall_singleton.
    assert (is_action_step s) as Hs.
    { eapply Forall_forall; [done|]. by eapply list_elem_of_lookup_2. }
    destruct s as [n a ps r e t|n k body]; [|done].
    cbn. by eapply list_elem_of_lookup_2.
Qed.

Definition action_id (a : Capture.CapturedAction) : string :=
  Capture.action_type a +:+ "." +:+ Capture.tool_name a.

Lemma converted_ids actions variables :
  ids (_convert_actions_to_steps actions variables) = map action_id actions.
Proof.
  unfold ids, _convert_actions_to_steps.
  change (map step_action (imap (λ i a, convert_action variables (S i) a) actions))
    with (step_action <$> imap (λ i a, convert_action variables (S i) a) actions).
  rewrite fmap_imap. apply imap_const.
Qed.

Lemma converted_are_actions actions variables :
  Forall is_action_step (_convert_actions_to_steps actions variables).
Proof.
  apply Forall_lookup. intros i s Hs. unfold _convert_actions_to_steps in Hs.
  rewrite list_lookup_imap in Hs.
  destruct (actions !! i); [|done]. by injection Hs as <-.
Qed.

(** Loop folding keeps the sequence of tool calls: with every loop of the
    output unrolled ([iterations] passes over its body), the actions of the
    steps are those of the recorded actions, in order.  A loop has at
    least one iteration, a body of 2 to 10 consecutive steps of the input,
    and is followed in the input by at least one more block of that
    length; a step outside a loop is a step of the input. *)
Theorem loop_folding_keeps_the_action_sequence actions variables :
  ids (unroll (_detect_and_optimize_loops
                 (_convert_actions_to_steps actions variables)))
  = map action_id actions ∧
  Forall (loop_of (_convert_actions_to_steps actions variables))
         (_detect_and_optimize_loops
            (_convert_actions_to_steps actions variables)).
Proof.
  pose proof (converted_are_actions actions variables) as Hact.
  split.
  - unfold _detect_and_optimize_loops.
    rewrite (detect_from_unrolled _ Hact) by lia.
    rewrite drop_0. apply converted_ids.
  - by apply detect_from_loops.
Qed.

(** *** Recordings without a repeated tool *)

Lemma slice_head steps (i p : nat) s :
  steps !! i = Some s → (0 < p)%nat →
  ids (slice steps i p) !! 0%nat = Some (step_action s).
Proof.
  intros Hi Hp. unfold ids, slice.
  rewrite list_lookup_fmap, lookup_take_lt by done.
  by rewrite lookup_drop, Nat.add_0_r, Hi.
Qed.

Lemma no_pattern_when_distinct steps (i p : nat) :
  NoDup (ids steps) → (1 ≤ p)%nat → _is_pattern_repeating steps i p = false.
Proof.
  intros Hnd Hp. destruct (_is_pattern_repeating steps i p) eqn:E; [|done].
  apply is_pattern_repeating_true in E as [Hlen Hids].
  destruct (lookup_lt_is_Some_2 steps i) as [x Hx]; [lia|].
  destruct (lookup_lt_is_Some_2 steps (i + p)) as [y Hy]; [lia|].
  pose proof (slice_head steps i p x Hx Hp) as H1.
  pose proof (slice_head steps (i + p) p y Hy Hp) as H2.
  rewrite Hids, H2 in H1. injection H1 as Hxy.
  assert (i = i + p)%nat; [|lia].
  eapply (NoDup_lookup _ _ _ _ Hnd).
  - unfold ids. by rewrite list_lookup_fmap, Hx.
  - unfold ids. rewrite list_lookup_fmap, Hy. cbn. by rewrite Hxy.
Qed.

Lemma find_pattern_length_distinct steps (i : nat) :
  NoDup (ids steps) → _find_pattern_length steps i = 1.
Proof.
  intros Hnd. unfold _find_pattern_length.
  destruct (find _ _) as [p|] eqn:E; [|done].
  apply find_some in E as [Hin Hp]. apply in_seq in Hin.
  rewrite no_pattern_when_distinct in Hp; [done|done|lia].
Qed.

Lemma detect_from_plain steps :
  (∀ i, _find_pattern_length steps i = 1) →
  ∀ fuel i optimized,
    (length steps - i ≤ fuel)%nat →
    detect_from fuel steps i optimized = optimized ++ drop i steps.
Proof.
  intros Hone. induction fuel as [|fuel IH]; intros i optimized Hfuel.
  - cbn. rewrite drop_ge by lia. by rewrite app_nil_r.
  - rewrite detect_from_step. destruct (steps !! i) as [s|] eqn:Hi.
    + pose proof (lookup_lt_Some _ _ _ Hi). cbv zeta. rewrite Hone. cbn.
      rewrite IH by lia. rewrite <- app_assoc, (drop_S _ _ _ Hi).
      by rewrite Nat.add_1_r.
    + rewrite drop_ge; [by rewrite app_nil_r|]. by apply lookup_ge_None.
Qed.

Lemma distinct_not_redundant steps :
  NoDup (ids steps) → no_adjacent_redundant steps.
Proof.
  induction steps as [|s1 [|s2 rest] IH]; [done|done|].
  intros Hnd. apply NoDup_cons in Hnd as [Hnotin Hnd]. split; [|by apply IH].
  unfold _is_redundant.
  destruct (String.eqb (step_action s1) (step_action s2)) eqn:E; [|done].
  apply String.eqb_eq in E. exfalso. apply Hnotin. rewrite E. cbn. left.
Qed.

(** When no tool is used twice in a recording (the identifiers
    [type.tool] of its actions are pairwise distinct), loop detection and
    optimisation change nothing, whatever the settings: the steps of the
    workflow are the converted actions, one per action, in order. *)
Theorem distinct_tools_give_one_step_each set_order cfg session nm :
  NoDup (map action_id (Capture.actions session)) →
  wf_steps (generate_workflow set_order cfg session nm)
  = _convert_actions_to_steps
      (Capture.actions session)
      (wf_variables (generate_workflow set_order cfg session nm)).
Proof.
  intros Hnd. cbn [generate_workflow wf_steps wf_variables].
  set (vars := if extract_variables cfg then _ else _).
  set (steps := _convert_actions_to_steps (Capture.actions session) vars).
  assert (NoDup (ids steps)) as Hids.
  { unfold steps. by rewrite converted_ids. }
  assert (_detect_and_optimize_loops steps = steps) as Hdetect.
  { unfold _detect_and_optimize_loops.
    rewrite detect_from_plain; [by rewrite drop_0|..|lia].
    intros i. by apply find_pattern_length_distinct. }
  assert (_optimize_steps steps = steps) as Hopt.
  { unfold _optimize_steps. pose proof (distinct_not_redundant steps Hids) as H.
    destruct steps as [|s rest]; [done|].
    rewrite optimize_from_cons. f_equal. by apply optimize_from_fixed. }
  destruct (detect_loops cfg), (optimize cfg); by rewrite ?Hdetect, ?Hopt.
Qed.

Definition click_type_submit : list Capture.CapturedAction :=
  [ recorded "browser" "click" [("selector", VStr "#a")] true;
    recorded "browser" "type" [("text", VStr "hi")] true;
    recorded "browser" "submit" [] false ].

Lemma distinct_tools_witness :
  wf_steps (generate_workflow first_seen_order default_config
                              (session_of click_type_submit) None)
  = _convert_actions_to_steps
      (Capture.actions (session_of click_type_submit))
      (wf_variables (generate_workflow first_seen_order default_config
                                       (session_of click_type_submit) None)).
Proof.
  apply (distinct_tools_give_one_step_each first_seen_order default_config
           (session_of click_type_submit) None).
  apply (bool_decide_unpack _). vm_compute. exact I.
Defined.

(** *** Conversion of one action *)

(** [s.get('timeout')] *)
Definition step_timeout (s : Step) : option Z :=
  match s with
  | ActionStep _ _ _ _ _ t => t
  | LoopStep _ _ _ => None
  end.

(** [s.get('expected_result')] *)
Definition step_expected_result (s : Step) : option dict :=
  match s with
  | ActionStep _ _ _ r _ _ => r
  | LoopStep _ _ _ => None
  end.

Lemma py_int_floor (x : Q) : (0 <= x)%Q → py_int x = Qfloor x.
Proof.
  intros H. unfold py_int. apply Qle_bool_iff in H. by rewrite H.
Qed.

Lemma pow2_pos (e : Z) : (0 < 2 ^ e)%Q.
Proof. by apply Qpower_0_lt. Qed.

Lemma pow2_nonneg_exp (e : Z) : (0 ≤ e)%Z → (2 ^ e == inject_Z (2 ^ e))%Q.
Proof. intros H. symmetry. by apply (Zpower_Qpower 2 e). Qed.

Lemma binade_le (x : Q) : (0 < x)%Q → (2 ^ binade x <= x)%Q.
Proof.
  intros Hx. unfold binade.
  destruct (Qle_bool _ x) eqn:E; [by apply Qle_bool_iff|].
  destruct x as [n d]. cbn [Qnum Qden] in *.
  assert (0 < n)%Z as Hn by (unfold Qlt in Hx; cbn in Hx; lia).
  pose proof (Z.log2_spec n Hn) as [Ha _].
  pose proof (Z.log2_spec (Z.pos d) ltac:(lia)) as [_ Hb].
  pose proof (Z.log2_nonneg n) as Ha0.
  pose proof (Z.log2_nonneg (Z.pos d)) as Hb0.
  replace (Z.log2 n - Z.log2 (Z.pos d) - 1)%Z
    with (Z.log2 n - Z.succ (Z.log2 (Z.pos d)))%Z by lia.
  rewrite Qpower_minus by done.
  rewrite !pow2_nonneg_exp by lia.
  apply Qle_shift_div_r.
  - rewrite <- pow2_nonneg_exp by lia. apply pow2_pos.
  - generalize dependent (2 ^ Z.log2 n)%Z. intros A HA.
    generalize dependent (2 ^ Z.succ (Z.log2 (Z.pos d)))%Z. intros B HB.
    unfold Qle, Qmult, inject_Z. cbn [Qnum Qden]. nia.
Qed.

Lemma round_half_even_floor (y : Q) : (Qfloor y ≤ round_half_even y)%Z.
Proof.
  unfold round_half_even. destruct (_ ?= _)%Q; [destruct (Z.even _)| |]; lia.
Qed.

Lemma round_half_even_ge (k : Z) (y : Q) :
  (inject_Z k <= y)%Q → (k ≤ round_half_even y)%Z.
Proof.
  intros H. etrans; [|apply round_half_even_floor].
  rewrite <- (Qfloor_Z k). by apply Qfloor_resp_le.
Qed.

Lemma round_half_even_near (y : Q) :
  (inject_Z (round_half_even y) - (1 # 2) <= y)%Q ∧
  (y <= inject_Z (round_half_even y) + (1 # 2))%Q.
Proof.
  pose proof (Qfloor_le y) as Hlo. pose proof (Qlt_floor y) as Hhi.
  unfold round_half_even.
  destruct (y - inject_Z (Qfloor y) ?= 1 # 2)%Q eqn:E.
  - apply Qeq_alt in E.
    assert (y == inject_Z (Qfloor y) + (1 # 2))%Q as Hy.
    { rewrite <- E. ring. }
    destruct (Z.even _).
    + split; [|by rewrite Hy at 1; apply Qle_refl].
      eapply Qle_trans; [|exact Hlo].
      apply Qle_minus_iff. ring_simplify. done.
    + rewrite inject_Z_plus. split.
      * rewrite Hy at 2. apply Qle_minus_iff. ring_simplify. done.
      * rewrite Hy at 1. apply Qle_minus_iff. ring_simplify. done.
  - apply Qlt_alt in E. split.
    + eapply Qle_trans; [|exact Hlo].
      apply Qle_minus_iff. ring_simplify. done.
    + apply Qlt_le_weak. apply Qlt_minus_iff in E. apply Qlt_minus_iff.
      setoid_replace (inject_Z (Qfloor y) + (1 # 2) + - y)%Q
        with ((1 # 2) + - (y - inject_Z (Qfloor y)))%Q using relation Qeq by ring.
      done.
  - apply Qgt_alt in E. rewrite inject_Z_plus. split.
    + apply Qlt_le_weak. apply Qlt_minus_iff in E. apply Qlt_minus_iff.
      setoid_replace (y + - (inject_Z (Qfloor y) + inject_Z 1 - (1 # 2)))%Q
        with (y - inject_Z (Qfloor y) + - (1 # 2))%Q using relation Qeq by ring.
      done.
    + apply Qlt_le_weak. eapply Qlt_le_trans; [exact Hhi|].
      rewrite inject_Z_plus. apply Qle_minus_iff. ring_simplify. done.
Qed.

Lemma binade_nonneg (x : Q) : (1 <= x)%Q → (0 ≤ binade x)%Z.
Proof.
  intros Hx. unfold binade.
  destruct x as [n d]. cbn [Qnum Qden].
  assert (Z.pos d ≤ n)%Z as Hdn by (unfold Qle in Hx; cbn in Hx; lia).
  pose proof (Z.log2_le_mono _ _ Hdn) as Hlog.
  destruct (Qle_bool _ _) eqn:E; [lia|].
  destruct (decide (Z.log2 n - Z.log2 (Z.pos d) = 0)%Z) as [E0|]; [|lia].
  rewrite E0 in E. apply (proj2 (Qle_bool_iff _ _)) in Hx.
  change (2 ^ 0)%Q with 1%Q in E. congruence.
Qed.

Lemma ulp_normal (x : Q) :
  (1 <= x)%Q → ulp x = (2 ^ (binade x - 52))%Q.
Proof.
  intros Hx. unfold ulp. pose proof (binade_nonneg x Hx).
  by rewrite Z.max_l by lia.
Qed.

Lemma half_ulp (x : Q) :
  (1 <= x)%Q → (ulp x * (1 # 2) <= x * 2 ^ (-53))%Q.
Proof.
  intros Hx. rewrite ulp_normal by done.
  assert (0 < x)%Q as Hpos by lra.
  pose proof (binade_le x Hpos) as Hb.
  replace (binade x - 52)%Z with (binade x + (-52))%Z by lia.
  rewrite Qpower_plus by done.
  assert (2 ^ (-52) * (1 # 2) == 2 ^ (-53))%Q as He by (by vm_compute).
  assert (0 < 2 ^ (-53))%Q as Hp by apply pow2_pos.
  rewrite <- Qmult_assoc, He.
  apply Qmult_le_compat_r; [done|lra].
Qed.

(** Relative error of rounding: at most [2^-53]. *)
Lemma round_positive_near (x : Q) :
  (1 <= x)%Q →
  (x * (1 - 2 ^ (-53)) <= round_positive x)%Q ∧
  (round_positive x <= x * (1 + 2 ^ (-53)))%Q.
Proof.
  intros Hx. pose proof (half_ulp x Hx) as Hu.
  unfold round_positive.
  assert (0 < ulp x)%Q as Hpos by apply pow2_pos.
  destruct (round_half_even_near (x / ulp x)) as [Hlo Hhi].
  assert (x / ulp x * ulp x == x)%Q as Hy by (field; lra).
  apply (Qmult_le_compat_r _ _ (ulp x)) in Hlo; [|lra].
  apply (Qmult_le_compat_r _ _ (ulp x)) in Hhi; [|lra].
  rewrite Hy in Hlo, Hhi.
  set (r := inject_Z (round_half_even (x / ulp x))) in *. clearbody r.
  set (e := (2 ^ (-53))%Q) in *. clearbody e.
  set (u := ulp x) in *. clearbody u.
  split; lra.
Qed.

(** Rounding does not go below an integer of at most 53 bits. *)
Lemma round_positive_ge (k : Z) (x : Q) :
  (1 ≤ k ≤ 2 ^ 53)%Z → (inject_Z k <= x)%Q → (inject_Z k <= round_positive x)%Q.
Proof.
  intros Hk Hkx.
  assert (1 <= x)%Q as Hx.
  { eapply Qle_trans; [|exact Hkx]. change 1%Q with (inject_Z 1).
    rewrite <- Zle_Qle. lia. }
  unfold round_positive. rewrite ulp_normal by done.
  pose proof (binade_nonneg x Hx) as Hb0.
  pose proof (binade_le x ltac:(lra)) as Hb.
  pose proof (pow2_pos (binade x - 52)) as Hpos.
  destruct (decide (binade x - 52 ≤ 0)%Z) as [Hs|Hs].
  - set (m := (2 ^ (52 - binade x))%Z).
    assert (0 < m)%Z as Hm by (apply Z.pow_pos_nonneg; lia).
    assert (2 ^ (binade x - 52) * inject_Z m == 1)%Q as Hinv.
    { unfold m. rewrite <- pow2_nonneg_exp by lia.
      rewrite <- Qpower_plus by done.
      replace (binade x - 52 + (52 - binade x))%Z with 0%Z by lia. done. }
    assert (inject_Z (k * m) <= x / 2 ^ (binade x - 52))%Q as Hy.
    { apply Qle_shift_div_l; [done|]. rewrite inject_Z_mult.
      assert (0 < inject_Z m)%Q by (rewrite <- (Zlt_Qlt 0); lia).
      set (im := inject_Z m) in *. clearbody im.
      set (u := (2 ^ (binade x - 52))%Q) in *. clearbody u.
      setoid_replace (inject_Z k * im * u)%Q with (inject_Z k * (u * im))%Q
        using relation Qeq by ring.
      rewrite Hinv. lra. }
    apply round_half_even_ge in Hy. rewrite Zle_Qle in Hy.
    rewrite inject_Z_mult in Hy.
    apply (Qmult_le_compat_r _ _ (2 ^ (binade x - 52))) in Hy; [|lra].
    eapply Qle_trans; [|exact Hy].
    setoid_replace (inject_Z k * inject_Z m * 2 ^ (binade x - 52))%Q
      with (inject_Z k * (2 ^ (binade x - 52) * inject_Z m))%Q
      using relation Qeq by ring.
    rewrite Hinv. lra.
  - assert (inject_Z (2 ^ 52) <= x / 2 ^ (binade x - 52))%Q as Hy.
    { apply Qle_shift_div_l; [done|].
      rewrite <- (pow2_nonneg_exp 52) by lia.
      rewrite <- Qpower_plus by done.
      replace (52 + (binade x - 52))%Z with (binade x) by lia. done. }
    apply round_half_even_ge in Hy. rewrite Zle_Qle in Hy.
    assert (2 <= 2 ^ (binade x - 52))%Q as H2.
    { change 2%Q with (2 ^ 1)%Q at 1. apply Qpower_le_compat_l; [lia|done]. }
    assert (inject_Z k <= inject_Z (2 ^ 52) * 2)%Q as Hk2.
    { apply Qle_trans with (inject_Z (2 ^ 53)); [|done].
      rewrite <- Zle_Qle. lia. }
    assert (0 < inject_Z (2 ^ 52))%Q as H52 by done.
    set (c := inject_Z (2 ^ 52)) in *. clearbody c.
    set (r := inject_Z (round_half_even (x / 2 ^ (binade x - 52)))) in *.
    clearbody r.
    set (u := (2 ^ (binade x - 52))%Q) in *. clearbody u.
    apply Qle_trans with (c * 2)%Q; [done|].
    apply Qle_trans with (r * 2)%Q; [lra|].
    apply Qle_trans with (r * u)%Q; [|lra].
    rewrite !(Qmult_comm r). apply Qmult_le_compat_r; lra.
Qed.

Lemma round_double_positive (x : Q) :
  (0 < x)%Q → round_double x = round_positive x.
Proof.
  intros Hx. unfold round_double. destruct x as [[|n|n] d]; done.
Qed.

Lemma timeout_bounds (d : Q) :
  (1000 < d)%Q → (round_double d == d)%Q →
  (1500 ≤ py_int (float_mul d (3 # 2)))%Z ∧
  (inject_Z (py_int (float_mul d (3 # 2)))
   <= d * (3 # 2) * (1 + 2 ^ (-53)))%Q ∧
  (d * (3 # 2) * (1 - 2 ^ (-53))
   < inject_Z (py_int (float_mul d (3 # 2)) + 1))%Q.
Proof.
  intros Hd Hdd. unfold float_mul.
  assert (round_double (3 # 2) == 3 # 2)%Q as H32 by (by vm_compute).
  assert (round_double d * round_double (3 # 2) == d * (3 # 2))%Q as Hx.
  { by rewrite Hdd, H32. }
  set (x := (round_double d * round_double (3 # 2))%Q) in *. clearbody x.
  assert (inject_Z 1500 <= x)%Q as H1500.
  { rewrite Hx. change (inject_Z 1500) with 1500%Q. lra. }
  rewrite round_double_positive
    by (eapply Qlt_le_trans; [|exact H1500]; done).
  pose proof (round_positive_ge 1500 x ltac:(lia) H1500) as Hge.
  destruct (round_positive_near x) as [Hlo Hhi].
  { eapply Qle_trans; [|exact H1500]. done. }
  rewrite py_int_floor by (eapply Qle_trans; [|exact Hge]; done).
  rewrite <- Hx. split_and!.
  - rewrite <- (Qfloor_Z 1500). by apply Qfloor_resp_le.
  - eapply Qle_trans; [apply Qfloor_le|done].
  - eapply Qle_lt_trans; [exact Hlo|apply Qlt_floor].
Qed.

(** Every action becomes the step of the same position, numbered from 1
    and named [type.tool].  The step has a timeout exactly when the
    recorded duration exceeds 1000 ms.  The timeout is then the integer
    part of the double product [duration * 1.5]: at least 1500, and
    within one of one and a half times the duration up to the rounding
    of the product (a relative [2^-53]), so it can exceed the exact
    product.  The duration is a double below [2^1023]; beyond that the
    product is infinite and [int] raises [OverflowError], which the
    steps do not represent. *)
Theorem step_timeout_is_one_and_a_half_durations actions variables (i : nat) a :
  actions !! i = Some a →
  (∀ d, Capture.duration_ms a = Some d →
        (round_double d == d)%Q ∧ (d < 2 ^ 1023)%Q) →
  ∃ s, _convert_actions_to_steps actions variables !! i = Some s ∧
    step_number s = S i ∧ step_action s = action_id a ∧
    match step_timeout s with
    | Some t =>
        ∃ d, Capture.duration_ms a = Some d ∧ (1000 < d)%Q ∧ (1500 ≤ t)%Z ∧
             (inject_Z t <= d * (3 # 2) * (1 + 2 ^ (-53)))%Q ∧
             (d * (3 # 2) * (1 - 2 ^ (-53)) < inject_Z (t + 1))%Q
    | None => ∀ d, Capture.duration_ms a = Some d → (d <= 1000)%Q
    end.
Proof.
  intros Hi Hdouble. eexists. split; [by apply convert_lookup|].
  split; [done|]. split; [done|].
  cbn [convert_action step_timeout].
  destruct (Capture.duration_ms a) as [d|]; [|done].
  destruct (Hdouble d eq_refl) as [Hdd _].
  destruct (Qeq_bool d 0) eqn:E0; cbn [negb andb].
  - intros ? [= <-]. apply Qeq_bool_iff in E0. rewrite E0. done.
  - destruct (Qle_bool d 1000) eqn:E1; cbn [negb].
    + intros ? [= <-]. by apply Qle_bool_iff.
    + assert (1000 < d)%Q as Hd.
      { apply Qnot_le_lt. intros H. apply Qle_bool_iff in H. congruence. }
      exists d. split; [done|]. split; [done|]. by apply timeout_bounds.
Qed.

Definition slow_click : Capture.CapturedAction :=
  Capture.mkAction 0 "browser" "click" [("selector", VStr "#a")] None None
                   (Some (2501 # 1)%Q) true None.

(** A click of 1025.3333333333333 ms, the double
    [4509463689385301 / 2^42]. *)
Definition third_click : Capture.CapturedAction :=
  Capture.mkAction 0 "browser" "click" [("selector", VStr "#a")] None None
                   (Some (4509463689385301 # 4398046511104)%Q) true None.

Lemma step_timeout_witness :
  ∃ s, _convert_actions_to_steps [slow_click] [] !! 0%nat = Some s ∧
    step_number s = 1%nat ∧ step_action s = "browser.click" ∧
    match step_timeout s with
    | Some t =>
        ∃ d, Capture.duration_ms slow_click = Some d ∧ (1000 < d)%Q ∧
             (1500 ≤ t)%Z ∧
             (inject_Z t <= d * (3 # 2) * (1 + 2 ^ (-53)))%Q ∧
             (d * (3 # 2) * (1 - 2 ^ (-53)) < inject_Z (t + 1))%Q
    | None => ∀ d, Capture.duration_ms slow_click = Some d → (d <= 1000)%Q
    end.
Proof.
  apply (step_timeout_is_one_and_a_half_durations [slow_click] [] 0 slow_click
           eq_refl).
  intros d [= <-]. split; by vm_compute.
Defined.

Example slow_click_timeout :
  step_timeout <$> _convert_actions_to_steps [slow_click] [] = [Some 3751%Z].
Proof. vm_compute. reflexivity. Qed.

(** The double product rounds up to 1538.0, although one and a half times
    the duration is below 1538. *)
Example third_click_timeout :
  step_timeout <$> _convert_actions_to_steps [third_click] [] = [Some 1538%Z] ∧
  Qfloor ((4509463689385301 # 4398046511104) * (3 # 2)) = 1537%Z.
Proof. vm_compute. done. Qed.

(** *** [_simplify_result] *)

Lemma simplify_result_lookup result k :
  dict_get k (_simplify_result result)
  = if bool_decide (k ∈ essential_fields) then dict_get k result else None.
Proof.
  unfold _simplify_result, essential_fields. cbn [flat_map].
  case_bool_decide as Hin.
  - repeat (apply elem_of_cons in Hin as [->|Hin]);
      [..|by apply elem_of_nil in Hin];
      destruct (dict_get "status" result) as [v1|] eqn:E1;
      destruct (dict_get "success" result) as [v2|] eqn:E2;
      destruct (dict_get "element_count" result) as [v3|] eqn:E3;
      destruct (dict_get "found" result) as [v4|] eqn:E4;
      destruct (dict_get "visible" result) as [v5|] eqn:E5;
      reflexivity.
  - assert (∀ c, c ∈ ["status"; "success"; "element_count"; "found"; "visible"] →
                 String.eqb k c = false) as Hne.
    { intros c Hc. apply String.eqb_neq. by intros ->. }
    destruct (dict_get "status" result) as [v1|];
    destruct (dict_get "success" result) as [v2|];
    destruct (dict_get "element_count" result) as [v3|];
    destruct (dict_get "found" result) as [v4|];
    destruct (dict_get "visible" result) as [v5|];
    cbn [app dict_get];
    rewrite ?Hne by (repeat constructor); reflexivity.
Qed.

(** The expected result of a step holds the essential fields of the
    recorded result with their values and nothing else, in the order
    [status, success, element_count, found, visible]; simplifying twice is
    simplifying once. *)
Theorem simplify_result_keeps_the_essential_fields result :
  (∀ k, dict_get k (_simplify_result result)
        = if bool_decide (k ∈ essential_fields) then dict_get k result
          else None) ∧
  sublist (_simplify_result result).*1 essential_fields ∧
  _simplify_result (_simplify_result result) = _simplify_result result.
Proof.
  split; [apply simplify_result_lookup|]. split.
  - unfold _simplify_result, essential_fields. cbn [flat_map].
    repeat match goal with
    | |- context [dict_get ?c result] => destruct (dict_get c result)
    end; cbn; repeat first [apply sublist_nil|apply sublist_skip|apply sublist_cons].
  - unfold _simplify_result at 1. unfold essential_fields. cbn [flat_map].
    rewrite !simplify_result_lookup. reflexivity.
Qed.

(** *** The metadata of a generated workflow *)

Lemma dict_get_set k k' v (d : dict) :
  dict_get k (dict_set k' v d)
  = if String.eqb k k' then Some v else dict_get k d.
Proof.
  induction d as [|[k0 v0] d IH]; cbn.
  - by destruct (String.eqb k k').
  - destruct (String.eqb k' k0) eqn:E; cbn.
    + apply String.eqb_eq in E as ->. by destruct (String.eqb k k0).
    + destruct (String.eqb k k0) eqn:E0.
      * apply String.eqb_eq in E0 as ->. by rewrite String.eqb_sym, E.
      * done.
Qed.

(** [{**base, **md}] *)
Lemma dict_get_update_all k (md : dict) : ∀ base : dict,
  NoDup md.*1 →
  dict_get k (fold_left (λ d kv, dict_set kv.1 kv.2 d) md base)
  = match dict_get k md with Some v => Some v | None => dict_get k base end.
Proof.
  induction md as [|[k0 v0] md IH]; intros base Hnd; [done|].
  cbn [fold_left fst snd fmap list_fmap] in *.
  apply NoDup_cons in Hnd as [Hnotin Hnd]. rewrite IH by done.
  cbn [dict_get]. destruct (String.eqb k k0) eqn:E.
  - apply String.eqb_eq in E as ->.
    destruct (dict_get k0 md) as [v|] eqn:Hmd.
    + exfalso. apply Hnotin. clear -Hmd.
      induction md as [|[k1 v1] md IH]; [done|]. cbn in Hmd.
      destruct (String.eqb k0 k1) eqn:E.
      * apply String.eqb_eq in E as ->. cbn. left.
      * cbn. right. by apply IH.
    + by rewrite dict_get_set, String.eqb_refl.
  - destruct (dict_get k md); [done|]. by rewrite dict_get_set, E.
Qed.

(** The metadata of the session take precedence over the generated
    entries: a key of the session metadata keeps its value in the
    workflow, also when it is [generated_from], [generated_at] or
    [action_count]; these three are what the generator says only where the
    session has no such key. *)
Theorem session_metadata_overrides_generated set_order cfg session nm k :
  NoDup (Capture.metadata session).*1 →
  dict_get k (wf_metadata (generate_workflow set_order cfg session nm))
  = match dict_get k (Capture.metadata session) with
    | Some v => Some v
    | None =>
        dict_get k
          [ ("generated_from", VStr (Capture.session_id session));
            ("generated_at", opt_value VFloat (Capture.ended_at session));
            ("action_count",
             VInt (Z.of_nat (length (Capture.actions session)))) ]
    end.
Proof. intros Hnd. cbn [generate_workflow wf_metadata]. by apply dict_get_update_all. Qed.

Definition relabelled_session : Capture.RecordingSession :=
  Capture.mkSession "session_1_demo" "demo" 0 (Some 1%Q)
                    click_type_submit
                    [("author", VStr "me"); ("action_count", VInt 99)].

Lemma session_metadata_witness :
  dict_get "action_count"
    (wf_metadata (generate_workflow first_seen_order default_config
                                    relabelled_session None))
  = Some (VInt 99).
Proof.
  apply (session_metadata_overrides_generated first_seen_order default_config
           relabelled_session None "action_count").
  apply (bool_decide_unpack _). vm_compute. exact I.
Defined.

End GeneratorOps.

(** ** [integration/orchestrator.py], continued: recording and the gate *)
Module OrchestratorOps.
Import Orchestrator.

(** One call of [execute_secure_action]. *)
Record Request : Type := mkReq {
  rq_type : string;
  rq_tool : string;
  rq_parameters : dict
}.

(** ['blocked' in result] *)
Definition blocked (result : dict) : bool := dict_mem "blocked" result.



(** The string-valued parameters, in order. *)
Fixpoint string_params (parameters : dict) : list (string * string) :=
  match parameters with
  | [] => []
  | (k, VStr s) :: rest => (k, s) :: string_params rest
  | _ :: rest => string_params rest
  end.

Definition accepted (validator : Validator) (ks : string * string) : Prop :=
  ∃ reason, validator ks.2 (_detect_input_type ks.1) = Returned (true, reason).

Definition validate_call (ks : string * string) : Call :=
  CallValidate ks.2 (_detect_input_type ks.1).

(** *** [_detect_input_type] *)

Lemma lower_char_idem c : lower_char (lower_char c) = lower_char c.
Proof. destruct c as [[] [] [] [] [] [] [] []]; reflexivity. Qed.

Lemma lower_idem s : lower (lower s) = lower s.
Proof.
  induction s as [|c s IH]; [done|]. cbn. by rewrite lower_char_idem, IH.
Qed.

(** The input type of a parameter is one of six classes and does not
    depend on the case of the letters of its name. *)
Theorem detect_input_type_ignores_case param_name :
  _detect_input_type (lower param_name) = _detect_input_type param_name ∧
  _detect_input_type param_name
  ∈ ["url"; "path"; "command"; "sql"; "html"; "general"].
Proof.
  unfold _detect_input_type. rewrite lower_idem. split; [done|].
  cbv zeta. repeat case_match; repeat constructor.
Qed.


Section Recording.

Context {M : Type}.

Variable security : option Validator.
Variable vision : option Vision.
Variable memory : option (MemoryManager M).
Variable time_at : nat → Q.
Variable fs_writable : string → bool.
Variable dict_repr : dict → string.

Definition start_recording (session_name : string) (metadata : option dict)
    (o : Orch M) : Exc string * Orch M :=
  match recorder o with
  | None => (Raised "Workflow recorder not available", o)
  | Some r =>
      match Capture.start_recording time_at fs_writable session_name metadata r with
      | (Returned session_id, r) =>
          (Returned session_id,
           mkOrch (Some r) true (Some session_id) (memory_state o) (calls o))
      | (Raised e, r) => (Raised e, set_recorder r o)
      end
  end.

Definition stop_recording (o : Orch M) : Exc (option string) * Orch M :=
  match recorder o with
  | None => (Returned None, o)
  | Some r =>
      if is_recording o then
        match Capture.stop_recording time_at fs_writable r with
        | (Returned session_id, r) =>
            (Returned session_id,
             mkOrch (Some r) false None (memory_state o) (calls o))
        | (Raised e, r) => (Raised e, set_recorder r o)
        end
      else (Returned None, o)
  end.

Definition execute (q : Request) (o : Orch M) : dict * Orch M :=
  execute_secure_action security vision memory time_at dict_repr
                        (rq_type q) (rq_tool q) (rq_parameters q) o.

(** A run of calls of [execute_secure_action], with their results. *)
Fixpoint run_actions (reqs : list Request) (o : Orch M)
    : list dict * Orch M :=
  match reqs with
  | [] => ([], o)
  | q :: rest =>
      let '(result, o) := execute q o in
      let '(results, o) := run_actions rest o in
      (result :: results, o)
  end.

(** *** What a call does to the recorder and to the memory *)








(** When the session file cannot be written, [stop_recording] raises and
    the orchestrator still believes it is recording, while the recorder
    has already left the recording state: a second [stop_recording]
    returns [None], the orchestrator stops, and the session has not been
    stored. *)
Theorem failed_save_loses_the_recording (o : Orch M) r cur :
  recorder o = Some r → is_recording o = true →
  Capture.is_recording r = true → Capture.current_session r = Some cur →
  fs_writable (Capture.session_file (Capture.session_id cur)) = false →
  let o1 := (stop_recording o).2 in
  let o2 := (stop_recording o1).2 in
  (stop_recording o).1 = Raised "OSError" ∧
  is_recording o1 = true ∧
  (∃ r1, recorder o1 = Some r1 ∧ Capture.is_recording r1 = false) ∧
  (stop_recording o1).1 = Returned None ∧
  is_recording o2 = false ∧
  ∃ r2, recorder o2 = Some r2 ∧ Capture.storage r2 = Capture.storage r.
Proof.
  intros Hr Hi Hrec Hcur Hfs.
  pose proof (Capture.stop_recording_active time_at fs_writable r cur Hrec Hcur)
    as H.
  cbn zeta in H. rewrite Hfs in H. destruct H as (r1 & Hstop & Hoff & Hcur1 & Hst).
  assert (stop_recording o = (Raised "OSError", set_recorder r1 o)) as ->.
  { unfold stop_recording. by rewrite Hr, Hi, Hstop. }
  cbn [fst snd].
  assert (stop_recording (set_recorder r1 o)
          = (Returned None,
             mkOrch (Some r1) false None (memory_state o) (calls o))) as ->.
  { unfold stop_recording. cbn [set_recorder recorder is_recording].
    rewrite Hi. rewrite Capture.stop_recording_inactive; [done|].
    unfold Capture.active. by rewrite Hoff. }
  cbn. split_and!; eauto.
Qed.

(** *** The order of validation *)

Lemma validate_action_accepts validator parameters :
  Forall (accepted validator) (string_params parameters) →
  _validate_action validator parameters
  = ((true, ""), map validate_call (string_params parameters)).
Proof.
  induction parameters as [|[k v] ps IH]; [done|].
  destruct v; try exact IH.
  cbn [string_params]. intros [[reason Hk] Hps]%Forall_cons.
  cbn [_validate_action fst snd] in *. rewrite Hk, (IH Hps). done.
Qed.

(** Parameters are validated in their order, and validation stops at the
    first string the validator does not accept (it rejects it or raises):
    the strings before it have been validated, those after it never are,
    and the call is refused.  When every string is accepted, every string
    has been validated, once and in order. *)
Theorem validation_stops_at_the_first_rejection validator parameters :
  (Forall (accepted validator) (string_params parameters) →
   _validate_action validator parameters
   = ((true, ""), map validate_call (string_params parameters))) ∧
  (∀ pre ks post,
     string_params parameters = pre ++ ks :: post →
     Forall (accepted validator) pre → ¬ accepted validator ks →
     (_validate_action validator parameters).1.1 = false ∧
     (_validate_action validator parameters).2
     = map validate_call (pre ++ [ks])).
Proof.
  split; [apply validate_action_accepts|].
  induction parameters as [|[k v] ps IH]; intros pre ks post Hsp Hpre Hks.
  { by destruct pre. }
  destruct v; try (by apply (IH pre ks post)).
  cbn [string_params] in Hsp. cbn [_validate_action].
  destruct pre as [|[k0 s0] pre].
  - injection Hsp as <- Hpost. unfold accepted in Hks. cbn [fst snd] in Hks.
    destruct (validator s (_detect_input_type k)) as [[[] reason]|e];
      [by destruct Hks; eauto|done|done].
  - injection Hsp as <- <- Hsp. apply Forall_cons in Hpre as [[reason Hk] Hpre].
    cbn [fst snd] in Hk. rewrite Hk.
    destruct (IH pre ks post Hsp Hpre Hks) as [H1 H2].
    destruct (_validate_action validator ps) as [verdict cs].
    cbn [fst snd] in *. by rewrite H2.
Qed.

(** *** Tools without an implementation *)

Definition is_store (c : Call) : bool :=
  match c with CallStore _ _ _ => true | _ => false end.

(** The tools that [_execute_action] hands to a collaborator, when that
    collaborator is loaded. *)
Definition available (ty tool : string) : bool :=
  String.eqb ty "vision" && String.eqb tool "analyze_screen"
  && (match vision with Some _ => true | None => false end)
  || String.eqb ty "memory"
     && (String.eqb tool "search" || String.eqb tool "store_screen")
     && (match memory with Some _ => true | None => false end).

Lemma execute_action_unsupported ty tool params (o : Orch M) :
  available ty tool = false →
  ∃ msg, _execute_action vision memory ty tool params o
         = (failure msg, log (CallExecute ty tool params) o).
Proof.
  unfold available, _execute_action, _execute_vision_action,
    _execute_memory_action.
  destruct (String.eqb ty "vision").
  { destruct vision; [|by eexists].
    destruct (String.eqb tool "analyze_screen"); [done|]. by eexists. }
  destruct (String.eqb ty "memory").
  { destruct memory; [|by eexists].
    destruct (String.eqb tool "search"); [done|].
    destruct (String.eqb tool "store_screen"); [done|]. by eexists. }
  intros _. destruct (String.eqb ty "browser"); [by eexists|].
  destruct (String.eqb ty "hands"); by eexists.
Qed.

Lemma execute_validated_unsupported ty tool params (o : Orch M) :
  available ty tool = false →
  let out := execute_validated vision memory time_at dict_repr ty tool params o in
  dict_get "success" out.1 = Some (VBool false) ∧
  memory_state out.2 = memory_state o ∧
  ∃ cs, calls out.2 = calls o ++ cs ∧ Forall (λ c, is_store c = false) cs.
Proof.
  intros Hs. unfold execute_validated.
  destruct (recorder o) as [r|] eqn:Er; [destruct (is_recording o) eqn:Ei|];
    match goal with
    | |- context [_execute_action ?v ?m ?a ?b ?c ?o1] =>
        destruct (execute_action_unsupported a b c o1 Hs) as [msg ->]
    end;
    cbn [recorder is_recording set_recorder log]; rewrite ?Er, ?Ei;
    destruct memory as [m|]; cbn; (split_and!; [done|done|]);
    eexists; (split; [by rewrite <- ?app_assoc|by repeat constructor]).
Qed.

Lemma unsupported_call_fails ty tool params (o : Orch M) :
  available ty tool = false →
  let out :=
    execute_secure_action security vision memory time_at dict_repr
                          ty tool params o in
  dict_get "success" out.1 = Some (VBool false) ∧
  memory_state out.2 = memory_state o ∧
  ∃ cs, calls out.2 = calls o ++ cs ∧
        Forall (λ c, is_store c = false) cs.
Proof.
  intros Hs. unfold execute_secure_action.
  pose proof (execute_validated_unsupported ty tool params) as HV.
  destruct security as [validator|].
  - pose proof (validate_calls validator params) as Hcs.
    destruct (_validate_action validator params) as [[is_valid reason] cs].
    cbn [snd] in Hcs.
    assert (Forall (λ c, is_store c = false) cs) as Hns.
    { apply Forall_forall. intros c Hc. rewrite forallb_forall in Hcs.
      specialize (Hcs c). rewrite <- list_elem_of_In in Hcs.
      specialize (Hcs Hc). by destruct c. }
    destruct is_valid.
    + destruct (HV (mkOrch (recorder o) (is_recording o) (current_session_id o)
                           (memory_state o) (calls o ++ cs)) Hs)
        as (H1 & H2 & cs' & H3 & H4).
      cbn zeta in *. split_and!; [done|done|].
      exists (cs ++ cs'). split; [by rewrite H3, app_assoc|].
      apply Forall_app. by split.
    + cbn. split_and!; [done|done|]. by exists cs.
  - by apply HV.
Qed.

(** Only three tools can succeed: [vision.analyze_screen] when the vision
    analyzer is loaded, [memory.search] and [memory.store_screen] when the
    memory manager is.  A call of any other tool or type ([browser] and
    [hands] included) returns a failure, blocked or not, leaves the memory
    as it was and makes no memory write. *)
Theorem only_available_tools_can_succeed ty tool params (o : Orch M) :
  available ty tool = false →
  let out :=
    execute_secure_action security vision memory time_at dict_repr
                          ty tool params o in
  dict_get "success" out.1 = Some (VBool false) ∧
  memory_state out.2 = memory_state o ∧
  ∃ cs, calls out.2 = calls o ++ cs ∧
        Forall (λ c, is_store c = false) cs.
Proof. apply unsupported_call_fails. Qed.

End Recording.

(** *** A recording through the orchestrator *)

Definition idle : Orch (list string) :=
  mkOrch (Some (Capture.init "rec" false)) false None [] [].

Definition three_requests : list Request :=
  [ mkReq "memory" "search" [("query", VStr "login form")];
    mkReq "hands" "type" [("command", VStr "rm -rf /")];
    mkReq "browser" "click" [("selector", VStr "#go")] ].

Definition started : Exc string * Orch (list string) :=
  start_recording Capture.demo_clock (λ _, true) "my flow" None idle.

Definition ran : list dict * Orch (list string) :=
  run_actions (Some demo_validator) None (Some demo_memory)
              Capture.demo_clock demo_repr three_requests started.2.

Definition stopped : Exc (option string) * Orch (list string) :=
  stop_recording Capture.demo_clock (λ _, true) ran.2.

Example three_requests_results :
  map blocked ran.1 = [false; true; false] ∧
  map succeeded ran.1 = [true; false; false].
Proof. vm_compute. done. Qed.


Lemma failed_save_witness :
  (stop_recording Capture.demo_clock (λ _, false) demo_orch).1
  = Raised "OSError" ∧
  is_recording (stop_recording Capture.demo_clock (λ _, false) demo_orch).2
  = true ∧
  (∃ r1, recorder (stop_recording Capture.demo_clock (λ _, false) demo_orch).2
         = Some r1 ∧ Capture.is_recording r1 = false) ∧
  (stop_recording Capture.demo_clock (λ _, false)
     (stop_recording Capture.demo_clock (λ _, false) demo_orch).2).1
  = Returned None ∧
  is_recording
    (stop_recording Capture.demo_clock (λ _, false)
       (stop_recording Capture.demo_clock (λ _, false) demo_orch).2).2
  = false ∧
  ∃ r2, recorder
          (stop_recording Capture.demo_clock (λ _, false)
             (stop_recording Capture.demo_clock (λ _, false) demo_orch).2).2
        = Some r2 ∧
        Capture.storage r2 = Capture.storage Capture.demo_started.2.
Proof.
  apply (failed_save_loses_the_recording Capture.demo_clock (λ _, false)
           demo_orch Capture.demo_started.2
           (Capture.mkSession "session_1700000000_my_flow" "my flow"
                              (Capture.demo_clock 1) None [] []));
    reflexivity.
Defined.

Lemma only_available_tools_witness :
  let out :=
    execute_secure_action (Some demo_validator) None (Some demo_memory)
      Capture.demo_clock demo_repr "browser" "click"
      [("selector", VStr "#go")] demo_orch in
  dict_get "success" out.1 = Some (VBool false) ∧
  memory_state out.2 = memory_state demo_orch ∧
  ∃ cs, calls out.2 = calls demo_orch ++ cs ∧
        Forall (λ c, is_store c = false) cs.
Proof.
  apply (only_available_tools_can_succeed (Some demo_validator) None
           (Some demo_memory) Capture.demo_clock demo_repr "browser" "click"
           [("selector", VStr "#go")] demo_orch); reflexivity.
Defined.

End OrchestratorOps.

(** ** [integration/autonomous_agent.py] on [integration/orchestrator.py] *)
Module AgentOps.
Import Agent.

Section OnTheOrchestrator.

Context {M : Type}.

(** The orchestrator the agent drives, and the settings of the agent. *)
Variable security : option Orchestrator.Validator.
Variable vision : option Orchestrator.Vision.
Variable memory : option (Orchestrator.MemoryManager M).
Variable time_at : nat → Q.
Variable dict_repr : dict → string.
Variable confidence_threshold : Q.
Variable learning_enabled : bool.

(** [self.orchestrator.execute_secure_action] *)
Definition exec : string → string → dict → Orchestrator.Orch M
                  → dict * Orchestrator.Orch M :=
  Orchestrator.execute_secure_action security vision memory time_at dict_repr.

Definition no_store (cs : list Orchestrator.Call) : Prop :=
  Forall (λ c, OrchestratorOps.is_store c = false) cs.

(** What the orchestrator state keeps of a call that cannot succeed. *)
Definition untouched (o o' : Orchestrator.Orch M) : Prop :=
  Orchestrator.memory_state o' = Orchestrator.memory_state o ∧
  ∃ cs, Orchestrator.calls o' = Orchestrator.calls o ++ cs ∧ no_store cs.

Lemma untouched_refl o : untouched o o.
Proof. split; [done|]. exists []. split; [by rewrite app_nil_r|constructor]. Qed.

Lemma untouched_trans o1 o2 o3 :
  untouched o1 o2 → untouched o2 o3 → untouched o1 o3.
Proof.
  intros (Hm1 & cs1 & Hc1 & Hn1) (Hm2 & cs2 & Hc2 & Hn2).
  split; [congruence|]. exists (cs1 ++ cs2).
  split; [by rewrite Hc2, Hc1, app_assoc|by apply Forall_app].
Qed.

Lemma exec_unavailable ty tool params o :
  OrchestratorOps.available vision memory ty tool = false →
  dict_get "success" (exec ty tool params o).1 = Some (VBool false) ∧
  untouched o (exec ty tool params o).2.
Proof.
  intros H.
  destruct (OrchestratorOps.unsupported_call_fails security vision memory
              time_at dict_repr ty tool params o H) as (H1 & H2 & H3).
  done.
Qed.

(** *** The [proven] strategy *)

(** A plan of the [proven] strategy never succeeds: its one action is
    [memory.replay_workflow], which the orchestrator does not implement.
    The plan reports failure with the one failed result, and the memory
    is left as it was. *)
Theorem proven_plans_always_fail g analysis similar_experiences context o :
  strategy (_decide_action confidence_threshold g analysis
                           similar_experiences context) = Some "proven" →
  let out :=
    _execute_action_plan exec
      (_decide_action confidence_threshold g analysis similar_experiences
                      context) o in
  pr_success out.1 = false ∧ pr_strategy out.1 = Some "proven" ∧
  (∃ r, pr_results out.1 = [r] ∧ dict_get "success" r = Some (VBool false)) ∧
  untouched o out.2.
Proof.
  unfold _decide_action.
  destruct (Qle_bool confidence_threshold _); [|done].
  destruct (List.filter exp_success similar_experiences) as [|exp l]; [done|].
  intros _. unfold _execute_action_plan.
  cbn [actions fallback_actions strategy _extract_actions_from_memory
       execute_actions].
  unfold run. cbn [action_type tool_name parameters].
  destruct (exec_unavailable "memory" "replay_workflow"
              [("memory_id", dict_get_none "id" exp)] o) as [Hs Hu].
  { unfold OrchestratorOps.available. cbn. by destruct memory. }
  destruct (exec "memory" "replay_workflow" _ o) as [r o1].
  cbn [fst snd] in *. unfold dict_get_default. rewrite Hs. cbn.
  split_and!; eauto.
Qed.

(** *** Learning *)

(** [_learn_from_result] stores nothing: [memory.store_workflow] is not
    a tool of the orchestrator, so the call fails (or is blocked), the
    memory is left as it was and no memory write is made. *)
Theorem learning_stores_nothing g action_plan result o :
  untouched o (_learn_from_result exec g action_plan result o).
Proof.
  unfold _learn_from_result. apply exec_unavailable.
  unfold OrchestratorOps.available. cbn. by destruct memory.
Qed.

(** *** Plans and the tools of the orchestrator *)

Definition is_available (a : Action) : bool :=
  OrchestratorOps.available vision memory (action_type a) (tool_name a).

Lemma execute_actions_success fb acts : ∀ acc o,
  (execute_actions exec fb acts acc o).1.1 = true →
  forallb is_available acts = true.
Proof.
  induction acts as [|a acts IH]; intros acc o; [done|].
  cbn [execute_actions forallb]. unfold run.
  destruct (is_available a) eqn:Ha.
  - destruct (exec _ _ _ o) as [r o1].
    destruct (truthy _); [apply IH|].
    destruct fb; [done|]. by destruct (_execute_fallback _ _ _).
  - destruct (exec_unavailable (action_type a) (tool_name a) (parameters a) o Ha)
      as [Hs _].
    destruct (exec _ _ _ o) as [r o1]. cbn [fst] in Hs.
    unfold dict_get_default. rewrite Hs. cbn [truthy].
    destruct fb; [done|]. by destruct (_execute_fallback _ _ _).
Qed.

(** A plan can succeed only when each of its actions is one of the tools
    the orchestrator has a loaded collaborator for: a plan with an action
    of type [browser] or [hands] (the default type of a recommended
    action is [browser]) reports failure. *)
Theorem plans_succeed_only_with_available_tools plan o :
  pr_success (_execute_action_plan exec plan o).1 = true →
  Forall (λ a, is_available a = true) (actions plan).
Proof.
  unfold _execute_action_plan. intros H.
  apply Forall_forall. intros a Ha.
  assert (forallb is_available (actions plan) = true) as Hall.
  { apply (execute_actions_success (fallback_actions plan) _ [] o).
    by destruct (execute_actions _ _ _ _ _) as [[? ?] ?]. }
  rewrite forallb_forall in Hall. apply Hall. by apply list_elem_of_In.
Qed.

(** *** Without a vision analyzer *)

Definition vision_failed (cycle : dict) : Prop :=
  dict_get "success" cycle = Some (VBool false) ∧
  ∃ e, dict_get "error" cycle = Some (VStr ("Vision analysis failed: " +:+ e)).

Lemma cycle_without_vision shot g context o :
  vision = None →
  vision_failed
    (analyze_and_act confidence_threshold learning_enabled exec
                     shot g context o).1 ∧
  untouched o
    (analyze_and_act confidence_threshold learning_enabled exec
                     shot g context o).2.
Proof.
  intros Hv. unfold analyze_and_act, _analyze_situation.
  destruct (exec_unavailable "vision" "analyze_screen"
              [ ("screenshot_path", VStr shot);
                ("prompt", VStr (analysis_prompt g)) ] o) as [Hs Hu].
  { unfold OrchestratorOps.available. by rewrite Hv. }
  destruct (exec "vision" "analyze_screen" _ o) as [r o1].
  cbn [fst snd] in *. unfold succeeded, dict_get_none, dict_get_default.
  rewrite Hs. cbn [truthy]. split; [|done].
  split; [done|]. by eexists.
Qed.

Lemma goal_loop_without_vision g fuel : ∀ iteration shot history o,
  vision = None → Forall vision_failed history →
  let out :=
    goal_loop confidence_threshold learning_enabled exec
              g fuel iteration shot history o in
  Forall vision_failed out.1.2 ∧ untouched o out.2.
Proof.
  induction fuel as [|fuel IH]; intros iteration shot history o Hv Hh.
  - split; [done|apply untouched_refl].
  - cbn [goal_loop].
    match goal with
    | |- context [analyze_and_act _ _ _ ?s g ?c o] =>
        pose proof (check_goal_never_achieved confidence_threshold
                      learning_enabled exec s g c o) as Hcheck;
        destruct (cycle_without_vision s g c o Hv) as [Hf Hu];
        destruct (analyze_and_act confidence_threshold learning_enabled exec
                                  s g c o) as [result o1]
    end.
    cbn [fst snd] in *. rewrite Hcheck.
    destruct (IH (S iteration) None (history ++ [result]) o1 Hv) as [H1 H2].
    { apply Forall_app. split; [done|by apply Forall_singleton]. }
    split; [done|]. by eapply untouched_trans.
Qed.

(** Without a vision analyzer the autonomous run fails at every cycle:
    each of the [max_iterations] cycles ends at its first step with the
    error [Vision analysis failed: ...], the goal is reported as not
    achieved, and the memory is never written. *)
Theorem without_vision_every_cycle_fails g shot max_iterations o :
  vision = None →
  let out :=
    execute_goal_autonomously confidence_threshold learning_enabled exec
                              g shot max_iterations o in
  gr_success out.1 = false ∧
  length (gr_history out.1) = Z.to_nat max_iterations ∧
  Forall vision_failed (gr_history out.1) ∧
  untouched o out.2.
Proof.
  intros Hv. unfold execute_goal_autonomously.
  pose proof (goal_loop_runs_out confidence_threshold learning_enabled exec
                g (Z.to_nat max_iterations) 0 shot [] o) as (H1 & _ & H3).
  destruct (goal_loop_without_vision g (Z.to_nat max_iterations) 0 shot [] o Hv)
    as [H4 H5]; [constructor|].
  destruct (goal_loop _ _ _ _ _ _ _ _ _) as [[[achieved iteration] history] o'].
  cbn [fst snd gr_success gr_history] in *. done.
Qed.

End OnTheOrchestrator.

(** *** On the concrete orchestrator *)

Definition confident : Analysis := mkAnalysis (Some (9 # 10)%Q) None.

Lemma proven_plans_witness :
  let out :=
    _execute_action_plan
      (exec None None (Some Orchestrator.demo_memory) Capture.demo_clock
            Orchestrator.demo_repr)
      (_decide_action (7 # 10) "open settings" confident [remembered] None)
      idle_orch in
  pr_success out.1 = false ∧ pr_strategy out.1 = Some "proven" ∧
  (∃ r, pr_results out.1 = [r] ∧ dict_get "success" r = Some (VBool false)) ∧
  untouched idle_orch out.2.
Proof.
  apply (proven_plans_always_fail None None (Some Orchestrator.demo_memory)
           Capture.demo_clock Orchestrator.demo_repr (7 # 10)
           "open settings" confident [remembered] None idle_orch).
  reflexivity.
Defined.

Definition search_plan : ActionPlan :=
  mkPlan "open settings" (9 # 10) (Some "exploratory")
         [mkAction "memory" "search" [("query", VStr "settings")]] [].

Lemma plans_succeed_witness :
  Forall (λ a, is_available None (Some Orchestrator.demo_memory) a = true)
         (actions search_plan).
Proof.
  apply (plans_succeed_only_with_available_tools None None
           (Some Orchestrator.demo_memory) Capture.demo_clock
           Orchestrator.demo_repr search_plan idle_orch).
  vm_compute. reflexivity.
Defined.

Lemma without_vision_witness :
  let out :=
    execute_goal_autonomously (7 # 10) true
      (exec None None (Some Orchestrator.demo_memory) Capture.demo_clock
            Orchestrator.demo_repr)
      "open settings" None 3 idle_orch in
  gr_success out.1 = false ∧
  length (gr_history out.1) = Z.to_nat 3 ∧
  Forall vision_failed (gr_history out.1) ∧
  untouched idle_orch out.2.
Proof.
  apply (without_vision_every_cycle_fails None None
           (Some Orchestrator.demo_memory) Capture.demo_clock
           Orchestrator.demo_repr (7 # 10) true "open settings" None 3
           idle_orch).
  reflexivity.
Defined.

End AgentOps.

(** ** [integration/server.py]: the tools of the MCP server *)
Module Server.
Import Orchestrator.

(** The attributes of the [MCPServer]: its orchestrator, and the
    orchestrator that its [AutonomousAgent] constructs for itself. *)
Record MCPServer (M : Type) : Type := mkServer {
  orchestrator : option (Orch M);
  agent : option (Orch M)
}.
Arguments mkServer {M} _ _.
Arguments orchestrator {M} _.
Arguments agent {M} _.

(** [value[2:-1]] of a string that starts with two characters. *)
Definition var_name_of (s : string) : string :=
  String.substring 2 (String.length s - 3) s.

(** The substitution of one parameter value in [replay_workflow]. *)
Definition substitute_param (variables : dict) (v : value) : value :=
  match v with
  | VStr s =>
      if String.prefix "${" s then
        match dict_get (var_name_of s) variables with
        | Some x => x
        | None => v
        end
      else v
  | _ => v
  end.

(** [params], after the loop over [params.items()]. *)
Definition substitute_params (variables : option dict) (params : dict) : dict :=
  match variables with
  | Some ((_ :: _) as vars) =>
      map (λ kv, (kv.1, substitute_param vars kv.2)) params
  | _ => params
  end.

(** [WorkflowCapture()] on the recordings directory with the files [disk]. *)
Definition on_disk (disk : gmap string value) : Capture.WorkflowCapture :=
  Capture.mkCapture false None "~/.claude-vision-hands/recordings" disk true ∅ 0.

Definition goal_result_dict (r : Agent.GoalResult) : dict :=
  [ ("success", VBool (Agent.gr_success r));
    ("goal", VStr (Agent.gr_goal r));
    ("iterations", VInt (Z.of_nat (Agent.gr_iterations r)));
    ("history", VList (map VDict (Agent.gr_history r))) ].

Section Tools.

Context {M : Type}.

(** The collaborators an orchestrator loads, the clock, the file system,
    and what a newly constructed [AIOrchestrator] holds: the recorder it
    loads (if it can) and the memory. *)
Variable security : option Validator.
Variable vision : option Vision.
Variable memory : option (MemoryManager M).
Variable time_at : nat → Q.
Variable fs_writable : string → bool.
Variable dict_repr : dict → string.
Variable new_recorder : option Capture.WorkflowCapture.
Variable new_memory : M.

Definition exec : string → string → dict → Orch M → dict * Orch M :=
  execute_secure_action security vision memory time_at dict_repr.

(** [AIOrchestrator()] *)
Definition fresh : Orch M := mkOrch new_recorder false None new_memory [].

(** [server.initialize()] *)
Definition initialize : MCPServer M := mkServer (Some fresh) (Some fresh).

Definition start_recording (workflow_name : string) (metadata : option dict)
    (s : MCPServer M) : dict * MCPServer M :=
  let s := match orchestrator s with Some _ => s | None => initialize end in
  let o := default fresh (orchestrator s) in
  match OrchestratorOps.start_recording time_at fs_writable workflow_name
          (Some (default [] metadata)) o with
  | (Returned session_id, o) =>
      ([ ("success", VBool true);
         ("session_id", VStr session_id);
         ("workflow_name", VStr workflow_name);
         ("message", VStr ("Recording started: " +:+ session_id)) ],
       mkServer (Some o) (agent s))
  | (Raised e, o) => (failure e, mkServer (Some o) (agent s))
  end.

Definition stop_recording (s : MCPServer M) : dict * MCPServer M :=
  match orchestrator s with
  | None => (failure "No active recording session", s)
  | Some o =>
      match OrchestratorOps.stop_recording time_at fs_writable o with
      | (Returned session_id, o) =>
          let s := mkServer (Some o) (agent s) in
          match session_id with
          | Some sid =>
              if String.eqb sid "" then (failure "No active recording to stop", s)
              else
                ([ ("success", VBool true);
                   ("session_id", VStr sid);
                   ("message", VStr ("Recording stopped: " +:+ sid));
                   ("workflow_path",
                    VStr ("~/.claude-vision-hands/recordings/" +:+ sid
                          +:+ ".json")) ], s)
          | None => (failure "No active recording to stop", s)
          end
      | (Raised e, o) => (failure e, mkServer (Some o) (agent s))
      end
  end.

(** The loop of [replay_workflow] over the actions of the session. *)
Fixpoint replay_actions (variables : option dict)
    (actions : list Capture.CapturedAction) (results : list dict) (o : Orch M)
    : list dict * Orch M :=
  match actions with
  | [] => (results, o)
  | action :: rest =>
      let params := substitute_params variables (Capture.parameters action) in
      let '(result, o) :=
        exec (Capture.action_type action) (Capture.tool_name action) params o in
      let results := results ++ [result] in
      if negb (truthy (dict_get_default "success" (VBool false) result))
      then (results, o)
      else replay_actions variables rest results o
  end.

Definition replayed (workflow_name : string) (results : list dict) : dict :=
  [ ("success", VBool true);
    ("workflow_name", VStr workflow_name);
    ("actions_executed", VInt (Z.of_nat (length results)));
    ("results", VList (map VDict results)) ].

(** [replay_workflow]; [disk] holds the files of the recordings directory.
    A server that was never initialised has no orchestrator, and the first
    action raises. *)
Definition replay_workflow (workflow_name : string) (variables : option dict)
    (disk : gmap string value) (s : MCPServer M) : dict * MCPServer M :=
  match Capture.load_session workflow_name (on_disk disk) with
  | None => (failure ("Workflow not found: " +:+ workflow_name), s)
  | Some session =>
      match orchestrator s, Capture.actions session with
      | Some o, actions =>
          let '(results, o) := replay_actions variables actions [] o in
          (replayed workflow_name results, mkServer (Some o) (agent s))
      | None, [] => (replayed workflow_name [], s)
      | None, _ :: _ =>
          (failure "'NoneType' object has no attribute 'execute_secure_action'",
           s)
      end
  end.

(** [autonomous_task]; the agent is constructed with the default
    configuration, in which learning is enabled. *)
Definition autonomous_task (task_description : string)
    (screenshot_path : option string) (max_iterations : Z)
    (confidence_threshold : Q) (s : MCPServer M) : dict * MCPServer M :=
  let s := match agent s with Some _ => s | None => initialize end in
  let a := default fresh (agent s) in
  let '(result, a) :=
    match screenshot_path with
    | Some path =>
        if String.eqb path "" then
          let '(r, a) :=
            Agent.execute_goal_autonomously confidence_threshold true exec
              task_description None max_iterations a in
          (goal_result_dict r, a)
        else
          Agent.analyze_and_act confidence_threshold true exec
                                path task_description None a
    | None =>
        let '(r, a) :=
          Agent.execute_goal_autonomously confidence_threshold true exec
            task_description None max_iterations a in
        (goal_result_dict r, a)
    end in
  ([ ("success", VBool true);
     ("task", VStr task_description);
     ("result", VDict result);
     ("iterations", dict_get_default "iterations" (VInt 1) result);
     ("goal_achieved", dict_get_default "success" (VBool false) result) ],
   mkServer (orchestrator s) (Some a)).

(** One call of [autonomous_task]. *)
Record Task : Type := mkTask {
  task_description : string;
  task_screenshot : option string;
  task_iterations : Z;
  task_threshold : Q
}.

Definition run_task (t : Task) (s : MCPServer M) : MCPServer M :=
  (autonomous_task (task_description t) (task_screenshot t)
                   (task_iterations t) (task_threshold t) s).2.

Definition run_tasks (ts : list Task) (s : MCPServer M) : MCPServer M :=
  fold_left (λ s t, run_task t s) ts s.

(** *** Replay *)

(** [not result.get('success', False)] is false. *)
Definition ok (result : dict) : bool :=
  truthy (dict_get_default "success" (VBool false) result).

Lemma replay_actions_prefix variables actions : ∀ results (o : Orch M),
  ∃ rs, (replay_actions variables actions results o).1 = results ++ rs ∧
    (length rs ≤ length actions)%nat ∧
    (∀ (i : nat) r, (i + 1 < length rs)%nat → rs !! i = Some r → ok r = true) ∧
    ((length rs < length actions)%nat → ∃ r, last rs = Some r ∧ ok r = false).
Proof.
  induction actions as [|a actions IH]; intros results o.
  - exists []. cbn. rewrite app_nil_r. split_and!; [done|lia| |lia].
    intros i r Hi. lia.
  - cbn [replay_actions].
    destruct (exec _ _ _ o) as [result o1]. fold (ok result).
    destruct (ok result) eqn:Hok; cbn [negb].
    + destruct (IH (results ++ [result]) o1) as (rs & Hrs & Hlen & Hall & Hlast).
      exists (result :: rs). rewrite Hrs, <- app_assoc. cbn [app length].
      split_and!; [done|lia| |].
      * intros [|i] r Hi Hr; [by injection Hr as <-|].
        apply (Hall i r); [lia|done].
      * intros Hlt. destruct Hlast as (r & Hr & Hnok); [lia|].
        exists r. split; [|done]. destruct rs; [done|]. done.
    + exists [result]. cbn. split_and!; [done|lia| |].
      * intros i r Hi. lia.
      * intros _. by exists result.
Qed.

(** [replay_workflow] of a stored session on an initialised server always
    reports [success] true, whatever its actions return: it runs them in
    order up to and including the first that fails, and [results] holds
    their results.  So every result but the last is a success, and when
    fewer actions were executed than the session holds, the last result
    is a failure. *)
Theorem replay_reports_success_whatever_the_results
    workflow_name variables disk (s : MCPServer M) session o :
  Capture.load_session workflow_name (on_disk disk) = Some session →
  orchestrator s = Some o →
  ∃ results,
    (replay_workflow workflow_name variables disk s).1
    = replayed workflow_name results ∧
    dict_get "success" (replay_workflow workflow_name variables disk s).1
    = Some (VBool true) ∧
    (length results ≤ length (Capture.actions session))%nat ∧
    (∀ (i : nat) r, (i + 1 < length results)%nat → results !! i = Some r →
                    ok r = true) ∧
    ((length results < length (Capture.actions session))%nat →
     ∃ r, last results = Some r ∧ ok r = false).
Proof.
  intros Hload Ho. unfold replay_workflow. rewrite Hload, Ho.
  destruct (replay_actions_prefix variables (Capture.actions session) [] o)
    as (rs & Hrs & Hlen & Hall & Hlast).
  destruct (replay_actions _ _ _ _) as [results o']. cbn [fst app] in *.
  subst rs. by exists results.
Qed.

Lemma substring_prefix (a b : string) :
  String.substring 0 (String.length a) (a +:+ b) = a.
Proof.
  induction a as [|c a IH]; cbn.
  - by destruct b.
  - change (String c a +:+ b) with (String c (a +:+ b)). cbn. by rewrite IH.
Qed.

Lemma var_name_of_ref name :
  var_name_of ("${" +:+ name +:+ "}") = name.
Proof.
  unfold var_name_of.
  assert (String.length ("${" +:+ name +:+ "}") - 3 = String.length name)
    as ->.
  { change ("${" +:+ name +:+ "}")
      with (String "$" (String "{" (name +:+ "}"))).
    cbn [String.length]. rewrite CaptureOps.append_length. cbn. lia. }
  change ("${" +:+ name +:+ "}") with (String "$" (String "{" (name +:+ "}"))).
  cbn [String.substring]. apply substring_prefix.
Qed.

Lemma prefix_of_ref name : String.prefix "${" ("${" +:+ name +:+ "}") = true.
Proof.
  change ("${" +:+ name +:+ "}") with (String "$" (String "{" (name +:+ "}"))).
  cbn. by destruct (name +:+ "}").
Qed.

Lemma dict_get_map (f : value → value) k (d : dict) :
  dict_get k (map (λ kv, (kv.1, f kv.2)) d) = f <$> dict_get k d.
Proof.
  induction d as [|[k' v] d IH]; [done|]. cbn.
  by destruct (String.eqb k k').
Qed.

(** The variable references that the workflow generator writes,
    [${name}], are what [replay_workflow] resolves: a parameter whose
    value is the reference to a variable that [variables] defines gets
    the value of that variable; the keys of the parameters and their order
    are unchanged, and so is every value that is not a string starting
    with [${]. *)
Theorem replay_resolves_variable_references vars params k name x :
  dict_get k params = Some (WorkflowGen.var_ref name) →
  dict_get name vars = Some x →
  dict_get k (substitute_params (Some vars) params) = Some x ∧
  (substitute_params (Some vars) params).*1 = params.*1 ∧
  (∀ k' v, dict_get k' params = Some v →
           (∀ s', v = VStr s' → String.prefix "${" s' = false) →
           dict_get k' (substitute_params (Some vars) params) = Some v).
Proof.
  intros Hk Hx. unfold substitute_params.
  destruct vars as [|kv vars]; [done|].
  split_and!.
  - rewrite dict_get_map, Hk. cbn [fmap option_fmap option_map].
    unfold WorkflowGen.var_ref, substitute_param.
    by rewrite prefix_of_ref, var_name_of_ref, Hx.
  - clear. induction params as [|[k' v] params IH]; [done|].
    cbn. f_equal. exact IH.
  - intros k' v Hv Hs. rewrite dict_get_map, Hv. cbn. f_equal.
    destruct v; try done. cbn. by rewrite (Hs _ eq_refl).
Qed.

(** *** The autonomous task *)

(** Without a screenshot [autonomous_task] runs the autonomous loop, and
    its answer is always the same in three fields: [success] is true,
    [goal_achieved] is false, and [iterations] is [max_iterations] (0 when
    that is negative). *)
Theorem autonomous_task_never_reports_the_goal_achieved
    task max_iterations confidence_threshold (s : MCPServer M) :
  let out := autonomous_task task None max_iterations confidence_threshold s in
  dict_get "success" out.1 = Some (VBool true) ∧
  dict_get "goal_achieved" out.1 = Some (VBool false) ∧
  dict_get "iterations" out.1 = Some (VInt (Z.max 0 max_iterations)).
Proof.
  unfold autonomous_task, Agent.execute_goal_autonomously.
  match goal with
  | |- context [Agent.goal_loop ?t ?l ?e ?g ?f ?i ?sh ?h ?a] =>
      pose proof (Agent.goal_loop_runs_out t l e g f i sh h a) as (H1 & H2 & _);
      destruct (Agent.goal_loop t l e g f i sh h a)
        as [[[achieved iteration] history] a']
  end.
  cbn in H1, H2. subst. cbn. split_and!; [done|done|].
  do 2 f_equal. lia.
Qed.

(** The agent works on an orchestrator of its own: what [autonomous_task]
    does never reaches the orchestrator of the server. *)
Lemma run_task_orchestrator t (s : MCPServer M) :
  orchestrator (run_task t s)
  = orchestrator (match agent s with Some _ => s | None => initialize end).
Proof.
  unfold run_task, autonomous_task.
  destruct (task_screenshot t) as [path|]; [destruct (String.eqb path "")|];
    repeat match goal with
    | |- context [let '(_, _) := ?x in _] => destruct x
    end; done.
Qed.

Lemma run_tasks_orchestrator ts : ∀ s : MCPServer M,
  orchestrator (run_tasks ts s) = orchestrator s ∨
  orchestrator (run_tasks ts s) = Some fresh.
Proof.
  induction ts as [|t ts IH]; intros s; [by left|].
  cbn [run_tasks fold_left]. fold (run_tasks ts (run_task t s)).
  destruct (IH (run_task t s)) as [H|H]; [|by right].
  rewrite H, run_task_orchestrator. destruct (agent s); [by left|by right].
Qed.

(** Autonomous tasks are not recorded: when [start_recording] and
    [stop_recording] succeed around any number of [autonomous_task]
    calls, the session stored under the returned id has no action. *)
Theorem autonomous_tasks_are_not_recorded
    workflow_name metadata ts (s : MCPServer M) :
  let started := start_recording workflow_name metadata s in
  let stopped := stop_recording (run_tasks ts started.2) in
  dict_get "success" started.1 = Some (VBool true) →
  dict_get "success" stopped.1 = Some (VBool true) →
  ∃ sid o r session,
    dict_get "session_id" started.1 = Some (VStr sid) ∧
    dict_get "session_id" stopped.1 = Some (VStr sid) ∧
    orchestrator stopped.2 = Some o ∧ recorder o = Some r ∧
    Capture.load_session sid r = Some session ∧
    Capture.name session = workflow_name ∧
    Capture.actions session = [].
Proof.
  cbv zeta. intros Hstarted Hstopped. unfold start_recording in *.
  set (s0 := match orchestrator s with Some _ => s | None => initialize end) in *.
  unfold OrchestratorOps.start_recording in *.
  destruct (recorder (default fresh (orchestrator s0))) as [r|] eqn:Hr;
    [|discriminate Hstarted].
  destruct (Capture.start_recording time_at fs_writable workflow_name
              (Some (default [] metadata)) r) as [[sid|e] r1] eqn:Hcs;
    [|discriminate Hstarted].
  cbn [fst snd] in *.
  set (o1 := mkOrch (Some r1) true (Some sid) _ _) in *.
  pose proof (run_tasks_orchestrator ts (mkServer (Some o1) (agent s0))) as Ho.
  destruct (run_tasks ts (mkServer (Some o1) (agent s0))) as [orch2 agent2].
  cbn [orchestrator] in Ho. unfold stop_recording in *. cbn [orchestrator agent] in *.
  destruct Ho as [-> | ->].
  - unfold OrchestratorOps.stop_recording in *. cbn [recorder is_recording o1] in *.
    destruct (Capture.stop_recording time_at fs_writable r1)
      as [[x|e] r3] eqn:Hcstop; [|discriminate Hstopped].
    destruct (CaptureOps.recorded_session_stored time_at fs_writable
                workflow_name (Some (default [] metadata)) [] r sid r1 x r3
                Hcs Hcstop)
      as (-> & _ & t & t' & md' & acts & Hst & Hacts).
    apply Forall2_nil_inv_r in Hacts as ->.
    destruct (String.eqb sid ""); [discriminate Hstopped|].
    cbn [fst snd orchestrator].
    eexists sid, _, r3, (Capture.mkSession sid workflow_name t (Some t') [] md').
    split_and!; [done|done|done|done| |done|done].
    apply Capture.load_session_saved. rewrite Hst. apply lookup_insert_eq.
  - exfalso. unfold OrchestratorOps.stop_recording, fresh in Hstopped.
    cbn [recorder is_recording] in Hstopped.
    destruct new_recorder; discriminate Hstopped.
Qed.

End Tools.

(** *** A concrete server *)

Definition demo_disk : gmap string value :=
  Capture.storage Capture.demo_stopped.2.

Definition demo_server : MCPServer (list string) :=
  mkServer (Some demo_orch) None.

Definition demo_replay : dict * MCPServer (list string) :=
  replay_workflow (Some demo_validator) None (Some demo_memory)
                  Capture.demo_clock demo_repr
                  "session_1700000000_my_flow" None demo_disk demo_server.

(** The stored session has two actions; the first, a browser click,
    fails, and the replay reports success with one action executed. *)
Example demo_replay_result :
  dict_get "success" demo_replay.1 = Some (VBool true) ∧
  dict_get "actions_executed" demo_replay.1 = Some (VInt 1) ∧
  dict_get "results" demo_replay.1
  = Some (VList [VDict (failure "Browser control not yet implemented")]).
Proof. vm_compute. done. Qed.

Lemma replay_reports_success_witness :
  ∃ results,
    demo_replay.1 = replayed "session_1700000000_my_flow" results ∧
    dict_get "success" demo_replay.1 = Some (VBool true).
Proof.
  destruct (Capture.load_session "session_1700000000_my_flow"
              (on_disk demo_disk)) as [session|] eqn:Hload;
    [|vm_compute in Hload; discriminate Hload].
  destruct (replay_reports_success_whatever_the_results
              (Some demo_validator) None (Some demo_memory)
              Capture.demo_clock demo_repr
              "session_1700000000_my_flow" None demo_disk demo_server
              session demo_orch Hload eq_refl)
    as (results & H1 & H2 & _).
  exists results. split; [exact H1|exact H2].
Defined.

Lemma replay_resolves_witness :
  dict_get "selector"
    (substitute_params (Some [("var_1", VStr "#a")])
       [("selector", WorkflowGen.var_ref "var_1"); ("n", VInt 2)])
  = Some (VStr "#a").
Proof.
  exact (proj1 (replay_resolves_variable_references
                  [("var_1", VStr "#a")]
                  [("selector", WorkflowGen.var_ref "var_1"); ("n", VInt 2)]
                  "selector" "var_1" (VStr "#a") eq_refl eq_refl)).
Defined.

Definition cold_server : MCPServer (list string) := mkServer None None.

Definition two_tasks : list Task :=
  [ mkTask "open settings" None 2 (7 # 10);
    mkTask "log in" (Some "/tmp/screen.png") 1 (1 # 2) ].

Definition demo_started : dict * MCPServer (list string) :=
  start_recording Capture.demo_clock (λ _, true)
    (Some (Capture.init "rec" false)) [] "my flow" None cold_server.

Definition demo_stopped : dict * MCPServer (list string) :=
  stop_recording Capture.demo_clock (λ _, true)
    (run_tasks (Some demo_validator) (Some Agent.demo_vision)
               (Some demo_memory) Capture.demo_clock demo_repr
               (Some (Capture.init "rec" false)) [] two_tasks demo_started.2).

Lemma autonomous_tasks_witness :
  ∃ sid o r session,
    dict_get "session_id" demo_started.1 = Some (VStr sid) ∧
    dict_get "session_id" demo_stopped.1 = Some (VStr sid) ∧
    orchestrator demo_stopped.2 = Some o ∧ recorder o = Some r ∧
    Capture.load_session sid r = Some session ∧
    Capture.name session = "my flow" ∧
    Capture.actions session = [].
Proof.
  apply (autonomous_tasks_are_not_recorded
           (Some demo_validator) (Some Agent.demo_vision) (Some demo_memory)
           Capture.demo_clock (λ _, true) demo_repr
           (Some (Capture.init "rec" false)) []
           "my flow" None two_tasks cold_server);
    vm_compute; reflexivity.
Defined.

End Server.

(** ** [security/validator.py]: the validator behind the gate *)
Module SecurityValidator.

(** The pattern tables of the class, as Python writes them. *)
Definition DANGEROUS_COMMANDS : list string :=
  [ "\b(rm|del|format|mkfs|dd)\b.*-[rf]";
    "\b(sudo|su|doas)\b";
    "[:,;|&`$]";
    "\$\(";
    "eval\s*\(";
    "exec\s*\(";
    "__import__";
    "compile\s*\(";
    ">\s*/dev/";
    "/proc/";
    "/sys/";
    "/etc/(passwd|shadow|sudoers)";
    "\bcat\b.*(/etc/|/var/log/)" ].

Definition SQL_INJECTION_PATTERNS : list string :=
  [ "(\b(SELECT|INSERT|UPDATE|DELETE|DROP|CREATE|ALTER|EXEC|EXECUTE)\b)";
    "(--|#|/\*|\*/)";
    "('\s*(OR|AND)\s*'?\d)";
    "(UNION\s+SELECT)";
    "(;|\|\||&&)" ].

Definition XSS_PATTERNS : list string :=
  [ "<script[^>]*>.*?</script>";
    "javascript:";
    "on\w+\s*=";
    "<iframe";
    "<object";
    "<embed";
    "eval\s*\(" ].

Definition PATH_TRAVERSAL_PATTERNS : list string :=
  [ "\.\./"; "\.\."; "~"; "/etc/"; "/var/"; "/root/"; "C:\\" ].

Definition ALLOWED_URL_SCHEMES : list string := ["http"; "https"; "file"].

Definition DANGEROUS_EXTENSIONS : list string :=
  [ ".exe"; ".dll"; ".so"; ".dylib"; ".sh"; ".bat"; ".cmd"; ".ps1";
    ".vbs"; ".js"; ".jar" ].

Definition newline : string := String (ascii_of_nat 10) "".

(** [dangerous_chars] of [_validate_command] *)
Definition dangerous_chars : list string :=
  ["|"; "&"; ";"; "$"; "`"; newline; "<"; ">"].

Section Validation.

(** [re.search(pattern, text)] finds a match; the flag is
    [re.IGNORECASE]. *)
Variable re_search : string → string → bool → bool.

(** [Path(path).suffix], [str(Path(path).resolve())] and
    [str(Path.cwd().resolve())]; the last two can raise. *)
Variable path_suffix : string → string.
Variable path_resolve : string → Exc string.
Variable project_root : Exc string.

(** [urlparse(url)]: the scheme and the netloc, or an exception. *)
Variable urlparse : string → Exc (string * string).

(** The configuration read by [__init__]. *)
Variable strict_mode : bool.
Variable allow_file_operations : bool.
Variable allowed_domains : list string.
Variable blocked_domains : list string.

Definition first_match (patterns : list string) (text : string)
    (ignore_case : bool) : option string :=
  find (λ pattern, re_search pattern text ignore_case) patterns.

Definition _validate_command (command : string) : bool * string :=
  match first_match DANGEROUS_COMMANDS command true with
  | Some pattern => (false, "Dangerous command pattern detected: " +:+ pattern)
  | None =>
      match find (λ char, contains char command) dangerous_chars with
      | Some char => (false, "Shell metacharacter '" +:+ char +:+ "' not allowed")
      | None => (true, "Command validated")
      end
  end.

Definition _validate_path (path : string) : bool * string :=
  match first_match PATH_TRAVERSAL_PATTERNS path false with
  | Some pattern => (false, "Path traversal pattern detected: " +:+ pattern)
  | None =>
      if bool_decide (lower (path_suffix path) ∈ DANGEROUS_EXTENSIONS)
      then (false, "File extension " +:+ path_suffix path +:+ " not allowed")
      else
        match path_resolve path with
        | Raised e => (false, "Invalid path: " +:+ e)
        | Returned resolved =>
            if strict_mode then
              match project_root with
              | Raised e => (false, "Invalid path: " +:+ e)
              | Returned root =>
                  if String.prefix root resolved then (true, "Path validated")
                  else (false, "Path must be within project directory")
              end
            else (true, "Path validated")
        end
  end.

Definition _validate_url (url : string) : bool * string :=
  match urlparse url with
  | Raised e => (false, "Invalid URL: " +:+ e)
  | Returned (scheme, netloc) =>
      if negb (bool_decide (scheme ∈ ALLOWED_URL_SCHEMES))
      then (false, "URL scheme '" +:+ scheme +:+ "' not allowed")
      else if bool_decide (netloc ∈ blocked_domains)
      then (false, "Domain '" +:+ netloc +:+ "' is blocked")
      else if match allowed_domains with [] => false | _ => true end
              && negb (bool_decide (netloc ∈ allowed_domains))
      then (false, "Domain '" +:+ netloc +:+ "' not in allowed list")
      else if bool_decide (scheme ∈ ["javascript"; "data"])
      then (false, "javascript: and data: URLs not allowed")
      else (true, "URL validated")
  end.

Definition _validate_sql (query : string) : bool * string :=
  match first_match SQL_INJECTION_PATTERNS query true with
  | Some pattern => (false, "SQL injection pattern detected: " +:+ pattern)
  | None => (true, "SQL validated")
  end.

Definition _validate_html (html_content : string) : bool * string :=
  match first_match XSS_PATTERNS html_content true with
  | Some pattern => (false, "XSS pattern detected: " +:+ pattern)
  | None => (true, "HTML validated")
  end.

Definition _validate_general (text : string) : bool * string :=
  let checks :=
    [_validate_command text; _validate_sql text; _validate_html text] in
  match find (λ check : bool * string, negb check.1) checks with
  | Some check => check
  | None => (true, "Input validated")
  end.

Definition validate_input (input_text input_type : string) : bool * string :=
  if String.eqb input_text "" then (true, "Empty input")
  else if String.eqb input_type "command" then _validate_command input_text
  else if String.eqb input_type "path" then _validate_path input_text
  else if String.eqb input_type "url" then _validate_url input_text
  else if String.eqb input_type "sql" then _validate_sql input_text
  else if String.eqb input_type "html" then _validate_html input_text
  else _validate_general input_text.

Definition is_safe_file_operation (operation path : string) : bool * string :=
  if negb allow_file_operations then (false, "File operations are disabled")
  else
    match _validate_path path with
    | (false, reason) => (false, reason)
    | (true, _) =>
        if bool_decide (operation ∈ ["delete"; "execute"]) && strict_mode
        then (false, "Operation '" +:+ operation
                     +:+ "' not allowed in strict mode")
        else (true, "File operation is safe")
    end.

(** The validator as the orchestrator calls it. *)
Definition as_validator : Orchestrator.Validator :=
  λ input_text input_type, Returned (validate_input input_text input_type).

(** *** What [validate_input] accepts *)

Lemma general_accepts text :
  (_validate_general text).1 = true →
  (_validate_command text).1 = true ∧ (_validate_sql text).1 = true ∧
  (_validate_html text).1 = true.
Proof.
  unfold _validate_general. cbn [find].
  destruct (_validate_command text) as [[] r1]; cbn; [|done].
  destruct (_validate_sql text) as [[] r2]; cbn; [|done].
  destruct (_validate_html text) as [[] r3]; cbn; done.
Qed.

(** The empty input is valid for every input type; an input type other
    than [command], [path], [url], [sql] and [html] is validated as
    [general]; and what [general] accepts is accepted as a command, as SQL
    and as HTML: the general validation is at least as strict as each of
    the three, and when it refuses, its answer is that of one of them. *)
Theorem general_validation_is_the_strictest text input_type :
  (validate_input "" input_type).1 = true ∧
  (input_type ∉ ["command"; "path"; "url"; "sql"; "html"] →
   validate_input text input_type = validate_input text "general") ∧
  ((validate_input text "general").1 = true →
   (validate_input text "command").1 = true ∧
   (validate_input text "sql").1 = true ∧
   (validate_input text "html").1 = true) ∧
  ((validate_input text "general").1 = false →
   validate_input text "general"
   ∈ [validate_input text "command"; validate_input text "sql";
      validate_input text "html"]).
Proof.
  split_and!.
  - done.
  - intros Hty. unfold validate_input.
    destruct (String.eqb text ""); [done|].
    assert (∀ c, c ∈ ["command"; "path"; "url"; "sql"; "html"] →
                 String.eqb input_type c = false) as Hne.
    { intros c Hc. apply String.eqb_neq. by intros ->. }
    rewrite !Hne by (repeat constructor). done.
  - unfold validate_input. destruct (String.eqb text ""); [done|].
    cbn. apply general_accepts.
  - unfold validate_input. destruct (String.eqb text ""); [done|].
    cbn [String.eqb Ascii.eqb Bool.eqb]. unfold _validate_general.
    cbn [find].
    destruct (_validate_command text) as [[] r1]; cbn; [|intros; left].
    destruct (_validate_sql text) as [[] r2]; cbn; [|intros; right; left].
    destruct (_validate_html text) as [[] r3]; cbn; [done|].
    intros; right; right; left.
Qed.

(** *** Shell metacharacters *)

Lemma contains_nonempty c s :
  c ∈ dangerous_chars → contains c s = true → s ≠ "".
Proof.
  intros Hc Hs ->.
  repeat (apply elem_of_cons in Hc as [->|Hc]; [discriminate Hs|]).
  by apply elem_of_nil in Hc.
Qed.

Lemma command_with_metacharacter c command :
  c ∈ dangerous_chars → contains c command = true →
  (_validate_command command).1 = false.
Proof.
  intros Hc Hs. unfold _validate_command.
  destruct (first_match DANGEROUS_COMMANDS command true); [done|].
  destruct (find _ dangerous_chars) eqn:E; [done|].
  apply find_none with (x := c) in E; [congruence|].
  by apply list_elem_of_In.
Qed.

Lemma validate_command_input c command :
  c ∈ dangerous_chars → contains c command = true →
  ∃ reason, validate_input command "command" = (false, reason).
Proof.
  intros Hc Hs. unfold validate_input.
  pose proof (contains_nonempty c command Hc Hs) as Hne.
  apply String.eqb_neq in Hne. rewrite Hne. cbn.
  pose proof (command_with_metacharacter c command Hc Hs) as H.
  destruct (_validate_command command) as [[] reason]; [done|]. by eexists.
Qed.

End Validation.

Section Gate.

Context {M : Type}.

Variable re_search : string → string → bool → bool.
Variable path_suffix : string → string.
Variable path_resolve : string → Exc string.
Variable project_root : Exc string.
Variable urlparse : string → Exc (string * string).
Variable strict_mode : bool.
Variable allowed_domains : list string.
Variable blocked_domains : list string.
Variable vision : option Orchestrator.Vision.
Variable memory : option (Orchestrator.MemoryManager M).
Variable time_at : nat → Q.
Variable dict_repr : dict → string.

(** The orchestrator with the security validator loaded. *)
Definition guarded : string → string → dict → Orchestrator.Orch M
                     → dict * Orchestrator.Orch M :=
  Orchestrator.execute_secure_action
    (Some (as_validator re_search path_suffix path_resolve project_root
                        urlparse strict_mode allowed_domains blocked_domains))
    vision memory time_at dict_repr.

(** With the validator loaded, a call is blocked as soon as one of its
    parameters is validated as a command (its name contains [command] or
    [cmd], and none of [url], [link], [path], [file]) and its value, a
    string, contains one of the characters [| & ; $ ` < >] or a newline:
    the result has [blocked] true, and the recorder, the recording flag
    and the memory are as before. *)
Theorem shell_metacharacters_are_blocked
    action_type tool_name parameters k s c (o : Orchestrator.Orch M) :
  (k, VStr s) ∈ parameters →
  Orchestrator._detect_input_type k = "command" →
  c ∈ dangerous_chars → contains c s = true →
  let out := guarded action_type tool_name parameters o in
  dict_get "blocked" out.1 = Some (VBool true) ∧
  dict_get "success" out.1 = Some (VBool false) ∧
  Orchestrator.recorder out.2 = Orchestrator.recorder o ∧
  Orchestrator.is_recording out.2 = Orchestrator.is_recording o ∧
  Orchestrator.memory_state out.2 = Orchestrator.memory_state o.
Proof.
  intros Hin Hty Hc Hs.
  destruct (validate_command_input re_search path_suffix path_resolve
              project_root urlparse strict_mode allowed_domains
              blocked_domains c s Hc Hs) as [reason Hv].
  destruct (Orchestrator.validate_rejects
              (as_validator re_search path_suffix path_resolve project_root
                            urlparse strict_mode allowed_domains blocked_domains)
              parameters) as (reason' & cs & Hrej & _).
  { exists k, s, reason. split; [done|]. unfold as_validator.
    by rewrite Hty, Hv. }
  unfold guarded, Orchestrator.execute_secure_action. rewrite Hrej. done.
Qed.

End Gate.

(** A regular-expression engine that finds nothing: what is refused
    then is refused by the character tests alone. *)
Definition no_regex : string → string → bool → bool := λ _ _ _, false.

Lemma shell_metacharacters_witness :
  let out :=
    guarded no_regex (λ _, "") Returned (Returned "/srv")
            (λ _, Returned ("https", "example.org")) true [] []
            None (Some Orchestrator.demo_memory) Capture.demo_clock
            Orchestrator.demo_repr
            "hands" "type" [("n", VInt 1); ("cmd", VStr "ls; reboot")]
            Orchestrator.demo_orch in
  dict_get "blocked" out.1 = Some (VBool true) ∧
  dict_get "success" out.1 = Some (VBool false) ∧
  Orchestrator.recorder out.2 = Orchestrator.recorder Orchestrator.demo_orch ∧
  Orchestrator.is_recording out.2
  = Orchestrator.is_recording Orchestrator.demo_orch ∧
  Orchestrator.memory_state out.2
  = Orchestrator.memory_state Orchestrator.demo_orch.
Proof.
  apply (shell_metacharacters_are_blocked no_regex (λ _, "") Returned
           (Returned "/srv") (λ _, Returned ("https", "example.org")) true
           [] [] None (Some Orchestrator.demo_memory) Capture.demo_clock
           Orchestrator.demo_repr "hands" "type"
           [("n", VInt 1); ("cmd", VStr "ls; reboot")] "cmd" "ls; reboot" ";"
           Orchestrator.demo_orch).
  - right. left.
  - reflexivity.
  - do 2 right. left.
  - reflexivity.
Defined.

End SecurityValidator.
